(** * fluid-dynamics: a shallow embedding of the simulation driver

    The development follows [src/webgl-utils.js] (shader plumbing, frame
    buffer objects, the half-float decoder) and the [FluidDynanmics] class
    (resize, splats, the update loop, [step], the solid coupling and
    [render]), together with the fragment shaders that are part of the
    sources.

    JavaScript numbers are modelled in two ways, following what the code
    does with them:
    - where the code works on bit patterns ([uInt16ToFloat32]) numbers are
      integers of [Z] with the 32-bit wrap-around of the JavaScript bitwise
      operators written out;
    - everywhere else numbers are real numbers ([R]): the arithmetic is the
      ideal one, rounding of IEEE doubles is not modelled. *)

From Stdlib Require Import ZArith List Bool Lia String.
From Stdlib Require Import Reals Lra.
From Stdlib Require Import Floats.SpecFloat.
From stdpp Require Import gmap strings.
Import ListNotations.

(** ** JavaScript 32-bit integer operators *)

Module JSInt.
Local Open Scope Z_scope.

(** [ToInt32]: the signed 32-bit reading every bitwise operator applies to
    its operands and to its result. *)
Definition toInt32 (z : Z) : Z :=
  let u := Z.land z 0xFFFFFFFF in
  if u <? 0x80000000 then u else u - 0x100000000.

(** [ToUint32]: what a store into a [Uint32Array] cell keeps. *)
Definition toUint32 (z : Z) : Z := Z.land z 0xFFFFFFFF.

(** [a & b] *)
Definition and32 (a b : Z) : Z := toInt32 (Z.land (toInt32 a) (toInt32 b)).

(** [a | b] *)
Definition or32 (a b : Z) : Z := toInt32 (Z.lor (toInt32 a) (toInt32 b)).

(** [a << n]: the shift count is taken modulo 32. *)
Definition shl32 (a n : Z) : Z :=
  toInt32 (Z.shiftl (toInt32 a) (Z.land n 31)).

(** [a >> n]: sign-propagating shift. *)
Definition sar32 (a n : Z) : Z := Z.shiftr (toInt32 a) (Z.land n 31).

(** [Math.clz32(x)] *)
Definition clz32 (x : Z) : Z :=
  let u := toUint32 x in
  if u =? 0 then 32 else 31 - Z.log2 u.

End JSInt.

(** ** IEEE 754 binary interchange formats (the reference semantics) *)

Module IEEE.
Local Open Scope Z_scope.

(** Decoding of a bit pattern with [ew] exponent bits and [mw] fraction
    bits.  A finite value [S754_finite s m e] denotes (-1)^s * m * 2^e. *)
Definition decode (ew mw : Z) (bits : Z) : spec_float :=
  let bias := 2 ^ (ew - 1) - 1 in
  let s := Z.testbit bits (ew + mw) in
  let e := Z.land (Z.shiftr bits mw) (2 ^ ew - 1) in
  let m := Z.land bits (2 ^ mw - 1) in
  if e =? 0 then
    if m =? 0 then S754_zero s
    else S754_finite s (Z.to_pos m) (1 - bias - mw)
  else if e =? 2 ^ ew - 1 then
    if m =? 0 then S754_infinity s else S754_nan
  else S754_finite s (Z.to_pos (m + 2 ^ mw)) (e - bias - mw).

(** binary16 (half precision) and binary32 (single precision). *)
Definition decode16 : Z -> spec_float := decode 5 10.
Definition decode32 : Z -> spec_float := decode 8 23.

(** Two decoded numbers are the same datum: same class, same sign and, for
    finite numbers, m1 * 2^e1 = m2 * 2^e2 (compared after scaling both to
    the smaller exponent). *)
Definition same_value (a b : spec_float) : bool :=
  match a, b with
  | S754_zero s1, S754_zero s2 => Bool.eqb s1 s2
  | S754_infinity s1, S754_infinity s2 => Bool.eqb s1 s2
  | S754_nan, S754_nan => true
  | S754_finite s1 m1 e1, S754_finite s2 m2 e2 =>
      Bool.eqb s1 s2 &&
      (Z.pos m1 * 2 ^ (e1 - Z.min e1 e2) =? Z.pos m2 * 2 ^ (e2 - Z.min e1 e2))
  | _, _ => false
  end.

(** The largest [k] with [2^k <= frac]: position of the leading one. *)
Definition leading_bit (frac : Z) : Z := Z.log2 frac.

End IEEE.

(** ** [uInt16ToFloat32] of webgl-utils.js *)

Module HalfFloat.
Import JSInt IEEE.
Local Open Scope Z_scope.

(** The value of [f] when it is stored into [uInt32Val[0]]: the body of
    [uInt16ToFloat32] up to the store. *)
Definition uInt16ToFloat32_bits (hf : Z) : Z :=
  let f := shl32 (and32 hf 0x8000) 16 in
  let expo := sar32 (and32 hf 0x7C00) 10 in
  let f :=
    if expo =? 0 then
      let frac := and32 hf 0x03FF in
      if negb (frac =? 0) then
        let extra := clz32 frac - 21 in
        or32 f (or32 (shl32 (113 - extra) 23)
                     (shl32 (and32 hf 0x01FF) (13 + extra)))
      else f
    else if expo <? 31 then
      or32 f (or32 (shl32 (expo + 112) 23) (shl32 (and32 hf 0x03FF) 13))
    else
      or32 f (or32 0x7F800000 (shl32 (and32 hf 0x03FF) 13)) in
  toUint32 f.

(** [float32Val[0]] reads the same four bytes back as a binary32 number. *)
Definition uInt16ToFloat32 (hf : Z) : spec_float :=
  decode32 (uInt16ToFloat32_bits hf).

(** The conversion is right at [hf] when the number returned is the number
    the half-float pattern denotes. *)
Definition converts_correctly (hf : Z) : bool :=
  same_value (uInt16ToFloat32 hf) (decode16 hf).

(** Subnormal half-floats whose leading fraction bit sits at an odd
    position below bit 9. *)
Definition odd_subnormal (hf : Z) : bool :=
  (Z.land hf 0x7C00 =? 0) && negb (Z.land hf 0x03FF =? 0) &&
  (Z.land hf 0x03FF <? 0x0200) && Z.odd (leading_bit (Z.land hf 0x03FF)).

(** The [n] consecutive integers from [start]. *)
Fixpoint zrange (n : nat) (start : Z) : list Z :=
  match n with
  | O => []
  | S k => start :: zrange k (start + 1)
  end.

(** All 16-bit patterns. *)
Definition all_uint16 : list Z := zrange (Z.to_nat 65536) 0.

End HalfFloat.


(** ** A state monad in which a throw keeps the state reached *)

Module JS.

(** The two ways the code fails: a [throw] statement of the sources, and
    the [TypeError] the JavaScript engine raises when a value that is
    [undefined] is called or dereferenced. *)
Inductive Error : Type :=
  | Thrown (msg : string)
  | TypeError (msg : string).

(** A run returns, throws, or (in the model only) exhausts the fuel given
    to its loops. *)
Inductive Result (St A : Type) : Type :=
  | Ok (a : A) (s : St)
  | Err (e : Error) (s : St)
  | Timeout.
Arguments Ok {St A} a s.
Arguments Err {St A} e s.
Arguments Timeout {St A}.

Definition M (St A : Type) : Type := St -> Result St A.

Definition ret {St A} (a : A) : M St A := fun s => Ok a s.

Definition bind {St A B} (c : M St A) (k : A -> M St B) : M St B :=
  fun s => match c s with
           | Ok a s' => k a s'
           | Err e s' => Err e s'
           | Timeout => Timeout
           end.

Definition throw {St A} (e : Error) : M St A := fun s => Err e s.
Definition get {St} : M St St := fun s => Ok s s.
Definition gets {St A} (f : St -> A) : M St A := fun s => Ok (f s) s.
Definition modify {St} (f : St -> St) : M St unit := fun s => Ok tt (f s).

(** [for (const x of l) body(x)] *)
Fixpoint forOf {St A} (l : list A) (body : A -> M St unit) : M St unit :=
  match l with
  | [] => ret tt
  | x :: l' => bind (body x) (fun _ => forOf l' body)
  end.

Definition timeout {St A} : M St A := fun _ => Timeout.

(** [for (let i = start; i < bound; i++) body(i)], the bound being read
    again before every iteration. *)
Fixpoint forLt {St} (fuel : nat) (i : nat) (bound : St -> R)
    (body : nat -> M St unit) : M St unit :=
  match fuel with
  | O => timeout
  | S fuel' =>
      fun s =>
        if Rlt_dec (INR i) (bound s)
        then bind (body i) (fun _ => forLt fuel' (S i) bound body) s
        else Ok tt s
  end.

(** The state a run stops in when it throws. *)
Definition raises {St A} (r : Result St A) : Prop :=
  match r with Err _ _ => True | _ => False end.

Definition returns {St A} (r : Result St A) : Prop :=
  match r with Ok _ _ => True | _ => False end.

End JS.

Declare Scope js_scope.
Delimit Scope js_scope with js.
Notation "x <- c ;; k" := (JS.bind c (fun x => k))
  (at level 100, c at next level, right associativity) : js_scope.
Notation "c ;;; k" := (JS.bind c (fun _ => k))
  (at level 100, right associativity) : js_scope.

(** ** Numbers, vectors and the matrix helpers of the class file *)

Module Num.
Local Open Scope R_scope.

(** [Math.floor] and [Math.ceil] on ideal numbers. *)
Definition floor (x : R) : R := IZR (Int_part x).
Definition ceil (x : R) : R := - IZR (Int_part (- x)).

(** [Math.min] *)
Definition min (x y : R) : R := Rmin x y.

(** How often [for (let i = 0; i < x; i++)] runs its body: the number of
    whole numbers from 0 on that are below [x]. *)
Definition loopCount (x : R) : nat := Z.to_nat (- Int_part (- x)).

(** Truthiness of a number: [0] is falsy. *)
Definition truthy (x : R) : bool := if Req_dec_T x 0 then false else true.

(** [x || d] for an optional numeric property. *)
Definition orElse (x : option R) (d : R) : R :=
  match x with
  | Some v => if truthy v then v else d
  | None => d
  end.

(** [a != b] where the left side may still be [undefined]. *)
Definition differs (a : option R) (b : R) : bool :=
  match a with
  | Some v => if Req_dec_T v b then false else true
  | None => true
  end.

Definition vec2 : Type := R * R.
Definition vec3 : Type := R * R * R.
Definition vec4 : Type := R * R * R * R.

(** Entry [i] of a numeric array; a missing entry reads as 0. *)
Definition at_ (l : list R) (i : nat) : R := nth i l 0.

Definition toVec2 (l : list R) : vec2 := (at_ l 0, at_ l 1).
Definition toVec3 (l : list R) : vec3 := (at_ l 0, at_ l 1, at_ l 2).

(** GLSL [mat2 * vec2] and [mat4 * vec4]; matrices are column-major as
    [uniformMatrix*fv] receives them with [transpose = false]. *)
Definition mat2_mul (m : list R) (v : vec2) : vec2 :=
  let '(x, y) := v in
  (at_ m 0 * x + at_ m 2 * y, at_ m 1 * x + at_ m 3 * y).

Definition mat4_mul (m : list R) (v : vec4) : vec4 :=
  let '(x, y, z, w) := v in
  (at_ m 0 * x + at_ m 4 * y + at_ m 8 * z + at_ m 12 * w,
   at_ m 1 * x + at_ m 5 * y + at_ m 9 * z + at_ m 13 * w,
   at_ m 2 * x + at_ m 6 * y + at_ m 10 * z + at_ m 14 * w,
   at_ m 3 * x + at_ m 7 * y + at_ m 11 * z + at_ m 15 * w).

Definition dot2 (a b : vec2) : R := fst a * fst b + snd a * snd b.

End Num.

Module Transforms.
Import Num.
Local Open Scope R_scope.

(** [identityMatrix4(s1, s2, s3, s4)]: every missing argument is 1. *)
Definition identityMatrix4 (s1 s2 s3 s4 : option R) : list R :=
  let d (s : option R) := match s with Some v => v | None => 1 end in
  [ d s1; 0; 0; 0;
    0; d s2; 0; 0;
    0; 0; d s3; 0;
    0; 0; 0; d s4 ].

(** [identityTransform(s)] *)
Definition identityTransform (s : R) : list R :=
  identityMatrix4 (Some s) (Some s) (Some s) (Some 1).

(** [rToRG(s)] *)
Definition rToRG (s : R) : list R :=
  [ s; - s; 0; 0;
    0; 0; 0; 0;
    0; 0; 0; 0;
    0; 0; 0; 1 ].

(** [splatTransform(angle, majorSize, minorSize, width, height)] *)
Definition splatTransform (angle majorSize minorSize width height : R)
  : list R :=
  let c := cos angle in
  let s := sin angle in
  [ width / majorSize * c; width / minorSize * s;
    - height / majorSize * s; height / minorSize * c ].

(** [HSVtoRGB(h, s, v)].  The [switch] has the six cases 0..5 of [i % 6];
    for any other remainder the three components stay [undefined], which is
    [None] here. *)
Definition HSVtoRGB (h s v : R) : option (list R) :=
  let i := Int_part (h * 6) in
  let f := h * 6 - IZR i in
  let p := v * (1 - s) in
  let q := v * (1 - f * s) in
  let t := v * (1 - (1 - f) * s) in
  match Z.rem i 6 with
  | 0%Z => Some [v; t; p]
  | 1%Z => Some [q; v; p]
  | 2%Z => Some [p; v; t]
  | 3%Z => Some [p; q; v]
  | 4%Z => Some [t; p; v]
  | 5%Z => Some [v; p; q]
  | _ => None
  end.

End Transforms.

(** ** The fragment shaders that are part of the sources *)

Module Shaders.
Import Num.
Local Open Scope R_scope.

(** A bound texture as a shader sees it: [texture2D(sampler, uv)]. *)
Definition sampler : Type := vec2 -> vec4.

Definition xyz (c : vec4) : vec3 := let '(x, y, z, _) := c in (x, y, z).
Definition xy (c : vec4) : vec2 := let '(x, y, _, _) := c in (x, y).

(** shaders/transform.js: [gl_FragColor = value * texture2D(uTexture, vUv)] *)
Definition transform_main (value : list R) (uTexture : sampler) (vUv : vec2)
  : vec4 :=
  mat4_mul value (uTexture vUv).

(** The gaussian splat shader. *)
Definition splat_main (uSource : sampler) (point : vec2) (transform : list R)
    (color : vec3) (vUv : vec2) : vec4 :=
  let p := mat2_mul transform (fst vUv - fst point, snd vUv - snd point) in
  let e := exp (- dot2 p p) in
  let '(cr, cg, cb) := color in
  let '(br, bg, bb) := xyz (uSource vUv) in
  (br * (1 - e) + e * cr, bg * (1 - e) + e * cg, bb * (1 - e) + e * cb, 1).

(** The hard-border ellipsis shader. *)
Definition ellipsis_main (uSource : sampler) (point : vec2)
    (transform : list R) (color : vec3) (vUv : vec2) : vec4 :=
  let p := mat2_mul transform (fst vUv - fst point, snd vUv - snd point) in
  let '(cr, cg, cb) := color in
  if Rlt_dec (sqrt (dot2 p p)) 1 then (cr, cg, cb, 1) else uSource vUv.

(** The advection shader. *)
Definition advection_main (uVelocity uSource : sampler) (texelSize : vec2)
    (dt scale : R) (vUv : vec2) : vec4 :=
  let '(vx, vy) := xy (uVelocity vUv) in
  let coord := (fst vUv - dt * vx * fst texelSize,
                snd vUv - dt * vy * snd texelSize) in
  let '(r, g, b, _) := uSource coord in
  (scale * r, scale * g, scale * b, 1).

End Shaders.

(** ** Frame buffer objects of webgl-utils.js *)

(** The object [createTextureFBO] returns.  A texture and the frame buffer
    it is attached to are created and deleted together, so one name stands
    for both. *)
Module TextureFBO.
Record t : Type := mk {
  texture : nat;
  width : R;
  height : R;
  texelSize : R * R
}.
End TextureFBO.

(** The object [createDoubleTextureFBO] returns: [fbo1] and [fbo2] are the
    variables its closures share, [read] is [fbo1] and [write] is [fbo2]. *)
Module DoubleTextureFBO.
Record t : Type := mk {
  w : R;
  h : R;
  texelSize : R * R;
  fbo1 : TextureFBO.t;
  fbo2 : TextureFBO.t
}.

Definition read (d : t) : TextureFBO.t := fbo1 d.
Definition write (d : t) : TextureFBO.t := fbo2 d.

(** [swap()] exchanges the two variables; [w], [h] and [texelSize] were
    copied when the object was built and stay. *)
Definition swap (d : t) : t := mk (w d) (h d) (texelSize d) (fbo2 d) (fbo1 d).
End DoubleTextureFBO.

(** ** Values passed through the WebGL interface *)

Module WebGL.

Inductive InternalFormat : Type := RGBA16F | RG16F | R16F.
Inductive Filter : Type := LINEAR | NEAREST.

(** A uniform value as the class passes it to [use]: a number, an array
    literal of numbers, a [Float32Array], or the unit number [attach]
    returned. *)
Inductive Arg : Type :=
  | ANum (x : R)
  | AArr (l : list R)
  | AF32 (l : list R)
  | AUnit (u : nat).

(** [Array.isArray(value) ? value.length : [value].length] *)
Definition argLength (a : Arg) : nat :=
  match a with
  | AArr l => length l
  | _ => 1
  end.

(** The numbers a uniform holds. *)
Definition argNums (a : option Arg) : list R :=
  match a with
  | Some (ANum x) => [x]
  | Some (AArr l) => l
  | Some (AF32 l) => l
  | Some (AUnit u) => [INR u]
  | None => []
  end.

(** The texture unit a sampler uniform points to (0 when never set). *)
Definition argUnit (a : option Arg) : nat :=
  match a with
  | Some (AUnit u) => u
  | _ => O
  end.

(** A linked program with the extended properties [compilePrograms] adds:
    its name and, per active uniform, the setter method and the number of
    arguments expected. *)
Record Program : Type := mkProgram {
  name : string;
  puniforms : gmap string (string * nat)
}.

(** One [gl.drawElements] call as it was issued: the program in use, its
    uniform values, the textures bound to the units, the texture rendered
    to ([None] is the canvas) and the viewport. *)
Record DrawCall : Type := mkDraw {
  dcProgram : string;
  dcUniforms : gmap string Arg;
  dcUnits : gmap nat nat;
  dcTarget : option nat;
  dcViewport : R * R * R * R
}.

End WebGL.

(** ** Options and solids *)

Module Types.
Local Open Scope R_scope.

(** An entry of [renderTransforms]: a scalar or a [Float32Array]. *)
Inductive RenderTransform : Type :=
  | Scalar (s : R)
  | Matrix (m : list R).

(** The options of the [config] object, which [Object.assign] copies onto
    the instance.  The hooks [preRender] and [postRender] are functions of
    the caller and are kept apart. *)
Record Config : Type := mkConfig {
  bottom : R;
  left : R;
  width : R;
  height : R;
  simScale : R;
  dyeScale : R;
  paused : bool;
  velocityDissipation : R;
  dyeDissipation : R;
  pressureDissipation : R;
  maxSimulationStep : R;
  pressureIterations : R;
  curl : R;
  renderSource : string;
  renderTransforms : gmap string RenderTransform;
  autoUpdate : bool;
  updateTimeAlpha : R
}.

(** The defaults of the [config] object. *)
Definition defaultRenderTransforms : gmap string RenderTransform :=
  <["velocity"%string := Scalar (1 / 100)]>
  (<["pressure"%string := Scalar (1 / 100)]>
  (<["divergence"%string := Scalar 1]>
  (<["curl"%string := Scalar (1 / 10)]>
  (<["solid"%string := Scalar (1 / 10)]> ∅)))).

Definition defaultConfig : Config :=
  mkConfig 0 0 100 100 1 1 false (1 / 10) (1 / 10) 0 (1 / 20) 20 3
           "dye" defaultRenderTransforms true (1 / 120).

(** A solid object of the caller: [position] and [velocity] are its two
    arrays, [density] and [mass] are optional properties.  The objects
    live in the heap of the instance and [solids] lists references to
    them, so one object listed twice is one object.  The two arrays are
    held by value: every solid is taken to own its arrays, and an array
    shared between two solids is outside this model. *)
Record Solid : Type := mkSolid {
  position : R * R;
  velocity : R * R;
  radius : R;
  density : option R;
  mass : option R
}.

(** The names of the three double buffers that carry state. *)
Inductive StateBuffer : Type := Dye | Velocity | Pressure.

(** What a private property of the instance can hold, as far as [render]
    can tell values apart: nothing, a number, a double buffer, a single
    buffer, or some other object or function. *)
Inductive JSValue : Type :=
  | VUndefined
  | VNumber (x : R)
  | VDouble (d : DoubleTextureFBO.t)
  | VTexture (f : TextureFBO.t)
  | VObject.

End Types.

(** ** The programs [compilePrograms] returns *)

Module Programs.
Import WebGL.

(** The uniform types the shaders use. *)
Inductive UniformType : Type :=
  | FLOAT | FLOAT_VEC2 | FLOAT_VEC3 | SAMPLER_2D | FLOAT_MAT2 | FLOAT_MAT4.

(** [uniformTypeMeta]: setter method and number of arguments. *)
Definition uniformTypeMeta (ty : UniformType) : string * nat :=
  match ty with
  | FLOAT => ("uniform1f"%string, 1%nat)
  | FLOAT_VEC2 => ("uniform2f"%string, 2%nat)
  | FLOAT_VEC3 => ("uniform3f"%string, 3%nat)
  | SAMPLER_2D => ("uniform1i"%string, 1%nat)
  | FLOAT_MAT2 => ("uniformMatrix2fv"%string, 1%nat)
  | FLOAT_MAT4 => ("uniformMatrix4fv"%string, 1%nat)
  end.

(** [getUniforms] on the active uniforms of a linked program. *)
Definition getUniforms (active : list (string * UniformType))
  : gmap string (string * nat) :=
  list_to_map (map (fun d => (fst d, uniformTypeMeta (snd d))) active).

(** The uniform declarations of the fragment shaders that are among the
    sources (the vertex shader declares none that the class sets). *)
Definition transformUniforms : list (string * UniformType) :=
  [("uTexture"%string, SAMPLER_2D); ("value"%string, FLOAT_MAT4)].

Definition splatUniforms : list (string * UniformType) :=
  [("uSource"%string, SAMPLER_2D); ("point"%string, FLOAT_VEC2);
   ("transform"%string, FLOAT_MAT2); ("color"%string, FLOAT_VEC3)].

Definition ellipsisUniforms : list (string * UniformType) :=
  [("point"%string, FLOAT_VEC2); ("transform"%string, FLOAT_MAT2);
   ("color"%string, FLOAT_VEC3); ("uSource"%string, SAMPLER_2D)].

Definition advectionUniforms : list (string * UniformType) :=
  [("uVelocity"%string, SAMPLER_2D); ("uSource"%string, SAMPLER_2D);
   ("texelSize"%string, FLOAT_VEC2); ("dt"%string, FLOAT);
   ("scale"%string, FLOAT)].

(** Modelled from the spec: the texts of the curl, vorticity, divergence,
    pressure and gradient-subtract shaders are not among the sources; the
    spec has each pass consume its declared inputs, and the declarations
    below are the inputs [step] sets for each of them. *)
Definition curlUniforms : list (string * UniformType) :=
  [("uVelocity"%string, SAMPLER_2D); ("texelSize"%string, FLOAT_VEC2)].

Definition vorticityUniforms : list (string * UniformType) :=
  [("uVelocity"%string, SAMPLER_2D); ("uCurl"%string, SAMPLER_2D);
   ("texelSize"%string, FLOAT_VEC2); ("curl"%string, FLOAT);
   ("dt"%string, FLOAT)].

Definition divergenceUniforms : list (string * UniformType) :=
  [("uVelocity"%string, SAMPLER_2D); ("texelSize"%string, FLOAT_VEC2)].

Definition pressureUniforms : list (string * UniformType) :=
  [("uPressure"%string, SAMPLER_2D); ("uDivergence"%string, SAMPLER_2D);
   ("texelSize"%string, FLOAT_VEC2)].

Definition gradientSubtractUniforms : list (string * UniformType) :=
  [("uPressure"%string, SAMPLER_2D); ("uVelocity"%string, SAMPLER_2D);
   ("texelSize"%string, FLOAT_VEC2)].

(** The programs of the constructor, all linked. *)
Definition sources : list (string * list (string * UniformType)) :=
  [("advection"%string, advectionUniforms);
   ("curl"%string, curlUniforms);
   ("divergence"%string, divergenceUniforms);
   ("ellipsis"%string, ellipsisUniforms);
   ("gradientSubtract"%string, gradientSubtractUniforms);
   ("pressure"%string, pressureUniforms);
   ("transform"%string, transformUniforms);
   ("splat"%string, splatUniforms);
   ("vorticity"%string, vorticityUniforms)].

(** [compilePrograms(gl, programs)] when every program links. *)
Definition compilePrograms
    (programs : list (string * list (string * UniformType)))
  : gmap string Program :=
  list_to_map
    (map (fun np => (fst np, mkProgram (fst np) (getUniforms (snd np))))
         programs).

Definition compiled : gmap string Program := compilePrograms sources.

(** The program object of a name with given declarations. *)
Definition linked (n : string) (decls : list (string * UniformType))
  : Program :=
  mkProgram n (getUniforms decls).

(** [useProgram] finds every uniform of [vals] in [prog], with the right
    number of arguments. *)
Definition argsOk (prog : Program) (vals : list (string * Arg)) : bool :=
  forallb
    (fun nv =>
       match puniforms prog !! fst nv with
       | Some (_, size) => Nat.eqb (argLength (snd nv)) size
       | None => false
       end)
    vals.

End Programs.

(** ** The WebGL context and the [FluidDynanmics] class *)

Module Fluid.
Import Num Transforms Shaders JS WebGL Types.
Local Open Scope R_scope.
Local Open Scope js_scope.

(** What the WebGL implementation contributes.  [Image] is the content of a
    texture or of the canvas; [blankImage] is a texture after [texImage2D]
    with no data and [clear]; [texture2D] is sampling; [rasterize] is the
    effect on a render target of drawing the full-viewport quad with a
    fragment function, with blending on or off; [readPixels] is the
    read-back of the red channel as half-floats.  [externalShader] stands
    for the fragment shaders of the repository that are not among the
    sources (curl, vorticity, divergence, pressure, gradient-subtract), by
    program name: uniform values and bound samplers to a colour per
    fragment. *)
Class WebGL2RenderingContext : Type := {
  Image : Type;
  blankImage : R -> R -> InternalFormat -> Filter -> Image;
  texture2D : Image -> sampler;
  rasterize :
    bool -> R * R * R * R -> (R * R -> R * R * R * R) -> Image -> Image;
  readPixels : Image -> Z -> Z -> Z -> Z -> list Z;
  externalShader :
    string -> gmap string Arg -> (nat -> sampler) -> R * R -> R * R * R * R
}.

(** [Math.cos] and [Math.sin] as the engine computes them on the sampling
    angles of [_updateSolids].  The language leaves their precision to the
    implementation, and there the result is rounded down to a texel index:
    a cosine of 3 * PI / 2 that comes out as a tiny negative number instead
    of 0 moves the sample to the neighbouring texel.  So these two are
    taken from the engine and nothing is assumed of them. *)
Class MathObject : Type := {
  Math_cos : R -> R;
  Math_sin : R -> R
}.

Section Engine.
Context `{ctx : WebGL2RenderingContext} `{math : MathObject}.

Record GLState : Type := mkGL {
  textures : gmap nat Image;
  nextName : nat;
  activeUnit : nat;
  units : gmap nat nat;
  program : option string;
  uniforms : gmap string (gmap string Arg);
  framebuffer : option nat;
  viewport : R * R * R * R;
  blend : bool;
  canvas : Image;
  drawLog : list DrawCall
}.

Definition set_textures (v : gmap nat Image) (g : GLState) : GLState :=
  mkGL v (nextName g) (activeUnit g) (units g) (program g) (uniforms g)
    (framebuffer g) (viewport g) (blend g) (canvas g) (drawLog g).

Definition set_nextName (v : nat) (g : GLState) : GLState :=
  mkGL (textures g) v (activeUnit g) (units g) (program g) (uniforms g)
    (framebuffer g) (viewport g) (blend g) (canvas g) (drawLog g).

Definition set_activeUnit (v : nat) (g : GLState) : GLState :=
  mkGL (textures g) (nextName g) v (units g) (program g) (uniforms g)
    (framebuffer g) (viewport g) (blend g) (canvas g) (drawLog g).

Definition set_units (v : gmap nat nat) (g : GLState) : GLState :=
  mkGL (textures g) (nextName g) (activeUnit g) v (program g) (uniforms g)
    (framebuffer g) (viewport g) (blend g) (canvas g) (drawLog g).

Definition set_program (v : option string) (g : GLState) : GLState :=
  mkGL (textures g) (nextName g) (activeUnit g) (units g) v (uniforms g)
    (framebuffer g) (viewport g) (blend g) (canvas g) (drawLog g).

Definition set_uniforms (v : gmap string (gmap string Arg)) (g : GLState) : GLState :=
  mkGL (textures g) (nextName g) (activeUnit g) (units g) (program g) v
    (framebuffer g) (viewport g) (blend g) (canvas g) (drawLog g).

Definition set_framebuffer (v : option nat) (g : GLState) : GLState :=
  mkGL (textures g) (nextName g) (activeUnit g) (units g) (program g)
    (uniforms g) v (viewport g) (blend g) (canvas g) (drawLog g).

Definition set_viewport (v : R * R * R * R) (g : GLState) : GLState :=
  mkGL (textures g) (nextName g) (activeUnit g) (units g) (program g)
    (uniforms g) (framebuffer g) v (blend g) (canvas g) (drawLog g).

Definition set_blend (v : bool) (g : GLState) : GLState :=
  mkGL (textures g) (nextName g) (activeUnit g) (units g) (program g)
    (uniforms g) (framebuffer g) (viewport g) v (canvas g) (drawLog g).

Definition set_canvas (v : Image) (g : GLState) : GLState :=
  mkGL (textures g) (nextName g) (activeUnit g) (units g) (program g)
    (uniforms g) (framebuffer g) (viewport g) (blend g) v (drawLog g).

Definition set_drawLog (v : list DrawCall) (g : GLState) : GLState :=
  mkGL (textures g) (nextName g) (activeUnit g) (units g) (program g)
    (uniforms g) (framebuffer g) (viewport g) (blend g) (canvas g) v.

(** *** Context operations *)

(** The sampler a texture unit presents to a shader, given the unit
    bindings and the live textures.  A unit with no live texture samples
    as opaque black. *)
Definition samplerOf (us : gmap nat nat) (ts : gmap nat Image) (u : nat)
  : sampler :=
  match us !! u with
  | Some t =>
      match ts !! t with
      | Some img => texture2D img
      | None => fun _ => (0, 0, 0, 1)
      end
  | None => fun _ => (0, 0, 0, 1)
  end.

Definition unitSampler (g : GLState) : nat -> sampler :=
  samplerOf (units g) (textures g).

(** The fragment function of a program under given uniform values. *)
Definition fragmentOf (prog : string) (u : gmap string Arg)
    (tex : nat -> sampler) : R * R -> R * R * R * R :=
  if String.eqb prog "transform" then
    transform_main (argNums (u !! "value"%string))
                   (tex (argUnit (u !! "uTexture"%string)))
  else if String.eqb prog "splat" then
    splat_main (tex (argUnit (u !! "uSource"%string)))
               (toVec2 (argNums (u !! "point"%string)))
               (argNums (u !! "transform"%string))
               (toVec3 (argNums (u !! "color"%string)))
  else if String.eqb prog "ellipsis" then
    ellipsis_main (tex (argUnit (u !! "uSource"%string)))
                  (toVec2 (argNums (u !! "point"%string)))
                  (argNums (u !! "transform"%string))
                  (toVec3 (argNums (u !! "color"%string)))
  else if String.eqb prog "advection" then
    advection_main (tex (argUnit (u !! "uVelocity"%string)))
                   (tex (argUnit (u !! "uSource"%string)))
                   (toVec2 (argNums (u !! "texelSize"%string)))
                   (at_ (argNums (u !! "dt"%string)) 0)
                   (at_ (argNums (u !! "scale"%string)) 0)
  else externalShader prog u tex.

(** The uniform values of a program (none set yet: empty). *)
Definition uniformsOf (g : GLState) (prog : string) : gmap string Arg :=
  match uniforms g !! prog with
  | Some u => u
  | None => ∅
  end.

(** [gl.drawElements(gl.TRIANGLES, 6, gl.UNSIGNED_SHORT, 0)] with the quad
    of [_init_vao] bound: the current program is run over the viewport of
    the bound frame buffer.  The call is recorded; a frame buffer whose
    texture is gone receives nothing.  With no program in use nothing
    happens. *)
Definition drawElements (g : GLState) : GLState :=
  match program g with
  | None => g
  | Some p =>
      let u := uniformsOf g p in
      let frag := fragmentOf p u (unitSampler g) in
      let call := mkDraw p u (units g) (framebuffer g) (viewport g) in
      set_drawLog (drawLog g ++ [call])
        match framebuffer g with
        | None =>
            set_canvas (rasterize (blend g) (viewport g) frag (canvas g)) g
        | Some t =>
            match textures g !! t with
            | Some img =>
                set_textures
                  (<[t := rasterize (blend g) (viewport g) frag img]>
                     (textures g)) g
            | None => g
            end
        end
  end.

(** [gl.uniform*(location, ...value)] on the program that owns the
    location. *)
Definition setUniform (prog uname : string) (v : Arg) (g : GLState)
  : GLState :=
  set_uniforms (<[prog := <[uname := v]> (uniformsOf g prog)]> (uniforms g)) g.

(** [gl.uniform1i(prog.uniforms[uname][0], unit)] called directly: the
    location belongs to [prog], and the call has an effect only while
    [prog] is the program in use. *)
Definition uniform1i (prog : Program) (uname : string) (unit : nat)
    (g : GLState) : GLState :=
  match program g with
  | Some cur =>
      if String.eqb cur (name prog)
      then setUniform (name prog) uname (AUnit unit) g
      else g
  | None => g
  end.

(** [createTextureFBO(gl, w, h, internalFormat, format, type, filter)] *)
Definition createTextureFBO (w h : R) (fmt : InternalFormat) (flt : Filter)
    (g : GLState) : TextureFBO.t * GLState :=
  let t := nextName g in
  let g := set_activeUnit 0 g in
  let g := set_nextName (S t) g in
  let g := set_units (<[O := t]> (units g)) g in
  let g := set_textures (<[t := blankImage w h fmt flt]> (textures g)) g in
  let g := set_viewport (0, 0, w, h) g in
  let g := set_framebuffer None g in
  (TextureFBO.mk t w h (1 / w, 1 / h), g).

(** [createDoubleTextureFBO(gl, w, h, internalFormat, format, type, filter)] *)
Definition createDoubleTextureFBO (w h : R) (fmt : InternalFormat)
    (flt : Filter) (g : GLState) : DoubleTextureFBO.t * GLState :=
  let '(f1, g) := createTextureFBO w h fmt flt g in
  let '(f2, g) := createTextureFBO w h fmt flt g in
  (DoubleTextureFBO.mk w h (TextureFBO.texelSize f1) f1 f2, g).

(** [fbo.attach(id)] *)
Definition attach (f : TextureFBO.t) (id : nat) (g : GLState) : GLState :=
  set_units (<[id := TextureFBO.texture f]> (units g)) (set_activeUnit id g).

(** [fbo.delete()]: the texture and its frame buffer are deleted; a deleted
    frame buffer that was bound leaves the canvas bound. *)
Definition deleteFBO (f : TextureFBO.t) (g : GLState) : GLState :=
  let g := set_textures (delete (TextureFBO.texture f) (textures g)) g in
  match framebuffer g with
  | Some t => if Nat.eqb t (TextureFBO.texture f)
              then set_framebuffer None g else g
  | None => g
  end.

(** [doubleFbo.delete()] *)
Definition deleteDouble (d : DoubleTextureFBO.t) (g : GLState) : GLState :=
  deleteFBO (DoubleTextureFBO.fbo2 d) (deleteFBO (DoubleTextureFBO.fbo1 d) g).

(** *** The instance *)

(** An instance of the class together with what it reaches: the options
    ([config], the public properties), the context, the private
    properties, the [solids] list as references into [heap], where the
    caller's solid objects live, and, as a record of what happened, the
    arguments [step] was called with. *)
Record World : Type := mkWorld {
  config : Config;
  _gl : GLState;
  _programs : gmap string Program;
  _width : option R;
  _height : option R;
  _aspectRatio : option R;
  _simScale : option R;
  _dyeScale : option R;
  _dye : option DoubleTextureFBO.t;
  _velocity : option DoubleTextureFBO.t;
  _pressure : option DoubleTextureFBO.t;
  _divergence : option TextureFBO.t;
  _curl : option TextureFBO.t;
  _now : option Z;
  solids : list nat;
  heap : gmap nat Solid;
  updateTime : R;
  stepCalls : list R
}.

Definition set_config (v : Config) (s : World) : World :=
  mkWorld v (_gl s) (_programs s) (_width s) (_height s) (_aspectRatio s)
    (_simScale s) (_dyeScale s) (_dye s) (_velocity s) (_pressure s)
    (_divergence s) (_curl s) (_now s) (solids s) (heap s) (updateTime s)
    (stepCalls s).

Definition set__gl (v : GLState) (s : World) : World :=
  mkWorld (config s) v (_programs s) (_width s) (_height s) (_aspectRatio s)
    (_simScale s) (_dyeScale s) (_dye s) (_velocity s) (_pressure s)
    (_divergence s) (_curl s) (_now s) (solids s) (heap s) (updateTime s)
    (stepCalls s).

Definition set__programs (v : gmap string Program) (s : World) : World :=
  mkWorld (config s) (_gl s) v (_width s) (_height s) (_aspectRatio s)
    (_simScale s) (_dyeScale s) (_dye s) (_velocity s) (_pressure s)
    (_divergence s) (_curl s) (_now s) (solids s) (heap s) (updateTime s)
    (stepCalls s).

Definition set__width (v : option R) (s : World) : World :=
  mkWorld (config s) (_gl s) (_programs s) v (_height s) (_aspectRatio s)
    (_simScale s) (_dyeScale s) (_dye s) (_velocity s) (_pressure s)
    (_divergence s) (_curl s) (_now s) (solids s) (heap s) (updateTime s)
    (stepCalls s).

Definition set__height (v : option R) (s : World) : World :=
  mkWorld (config s) (_gl s) (_programs s) (_width s) v (_aspectRatio s)
    (_simScale s) (_dyeScale s) (_dye s) (_velocity s) (_pressure s)
    (_divergence s) (_curl s) (_now s) (solids s) (heap s) (updateTime s)
    (stepCalls s).

Definition set__aspectRatio (v : option R) (s : World) : World :=
  mkWorld (config s) (_gl s) (_programs s) (_width s) (_height s) v
    (_simScale s) (_dyeScale s) (_dye s) (_velocity s) (_pressure s)
    (_divergence s) (_curl s) (_now s) (solids s) (heap s) (updateTime s)
    (stepCalls s).

Definition set__simScale (v : option R) (s : World) : World :=
  mkWorld (config s) (_gl s) (_programs s) (_width s) (_height s)
    (_aspectRatio s) v (_dyeScale s) (_dye s) (_velocity s) (_pressure s)
    (_divergence s) (_curl s) (_now s) (solids s) (heap s) (updateTime s)
    (stepCalls s).

Definition set__dyeScale (v : option R) (s : World) : World :=
  mkWorld (config s) (_gl s) (_programs s) (_width s) (_height s)
    (_aspectRatio s) (_simScale s) v (_dye s) (_velocity s) (_pressure s)
    (_divergence s) (_curl s) (_now s) (solids s) (heap s) (updateTime s)
    (stepCalls s).

Definition set__dye (v : option DoubleTextureFBO.t) (s : World) : World :=
  mkWorld (config s) (_gl s) (_programs s) (_width s) (_height s)
    (_aspectRatio s) (_simScale s) (_dyeScale s) v (_velocity s)
    (_pressure s) (_divergence s) (_curl s) (_now s) (solids s) (heap s)
    (updateTime s) (stepCalls s).

Definition set__velocity (v : option DoubleTextureFBO.t) (s : World) : World :=
  mkWorld (config s) (_gl s) (_programs s) (_width s) (_height s)
    (_aspectRatio s) (_simScale s) (_dyeScale s) (_dye s) v (_pressure s)
    (_divergence s) (_curl s) (_now s) (solids s) (heap s) (updateTime s)
    (stepCalls s).

Definition set__pressure (v : option DoubleTextureFBO.t) (s : World) : World :=
  mkWorld (config s) (_gl s) (_programs s) (_width s) (_height s)
    (_aspectRatio s) (_simScale s) (_dyeScale s) (_dye s) (_velocity s) v
    (_divergence s) (_curl s) (_now s) (solids s) (heap s) (updateTime s)
    (stepCalls s).

Definition set__divergence (v : option TextureFBO.t) (s : World) : World :=
  mkWorld (config s) (_gl s) (_programs s) (_width s) (_height s)
    (_aspectRatio s) (_simScale s) (_dyeScale s) (_dye s) (_velocity s)
    (_pressure s) v (_curl s) (_now s) (solids s) (heap s) (updateTime s)
    (stepCalls s).

Definition set__curl (v : option TextureFBO.t) (s : World) : World :=
  mkWorld (config s) (_gl s) (_programs s) (_width s) (_height s)
    (_aspectRatio s) (_simScale s) (_dyeScale s) (_dye s) (_velocity s)
    (_pressure s) (_divergence s) v (_now s) (solids s) (heap s)
    (updateTime s) (stepCalls s).

Definition set__now (v : option Z) (s : World) : World :=
  mkWorld (config s) (_gl s) (_programs s) (_width s) (_height s)
    (_aspectRatio s) (_simScale s) (_dyeScale s) (_dye s) (_velocity s)
    (_pressure s) (_divergence s) (_curl s) v (solids s) (heap s)
    (updateTime s) (stepCalls s).

Definition set_solids (v : list nat) (s : World) : World :=
  mkWorld (config s) (_gl s) (_programs s) (_width s) (_height s)
    (_aspectRatio s) (_simScale s) (_dyeScale s) (_dye s) (_velocity s)
    (_pressure s) (_divergence s) (_curl s) (_now s) v (heap s)
    (updateTime s) (stepCalls s).

Definition set_heap (v : gmap nat Solid) (s : World) : World :=
  mkWorld (config s) (_gl s) (_programs s) (_width s) (_height s)
    (_aspectRatio s) (_simScale s) (_dyeScale s) (_dye s) (_velocity s)
    (_pressure s) (_divergence s) (_curl s) (_now s) (solids s) v
    (updateTime s) (stepCalls s).

Definition set_updateTime (v : R) (s : World) : World :=
  mkWorld (config s) (_gl s) (_programs s) (_width s) (_height s)
    (_aspectRatio s) (_simScale s) (_dyeScale s) (_dye s) (_velocity s)
    (_pressure s) (_divergence s) (_curl s) (_now s) (solids s) (heap s) v
    (stepCalls s).

Definition set_stepCalls (v : list R) (s : World) : World :=
  mkWorld (config s) (_gl s) (_programs s) (_width s) (_height s)
    (_aspectRatio s) (_simScale s) (_dyeScale s) (_dye s) (_velocity s)
    (_pressure s) (_divergence s) (_curl s) (_now s) (solids s) (heap s)
    (updateTime s) v.


(** The hooks [this.preRender] and [this.postRender] of the caller. *)
Variable preRender : option (R -> M World unit).
Variable postRender : option (R -> M World unit).

(** *** Helpers of the embedding *)

(** A private numeric property read as a number.  Before the first
    resize these properties are [undefined].  Passed to [gl.viewport],
    [undefined] is converted to 0, which is what is read here.  Inside an
    arithmetic expression it makes the JavaScript value [NaN]; the reals
    have no such value, so what is stated about a value computed from such
    a property is stated for instances on which the property is
    recorded. *)
Definition numberOf (x : option R) : R :=
  match x with Some v => v | None => 0 end.

(** A context call made from a method. *)
Definition liftGL (f : GLState -> GLState) : M World unit :=
  modify (fun s => set__gl (f (_gl s)) s).

(** Dereferencing a property that may be [undefined]. *)
Definition the {A} (what : string) (prop : World -> option A) : M World A :=
  fun s => match prop s with
           | Some a => Ok a s
           | None => Err (TypeError (what ++ " is undefined")) s
           end.

(** [this._programs.<n>], about to be dereferenced. *)
Definition programNamed (n : string) : M World Program :=
  the ("this._programs." ++ n) (fun s => _programs s !! n).

(** [this[name]] for the three state buffers. *)
Definition bufferKey (b : StateBuffer) : string :=
  match b with
  | Dye => "_dye"
  | Velocity => "_velocity"
  | Pressure => "_pressure"
  end.

Definition getBuffer (b : StateBuffer) (s : World)
  : option DoubleTextureFBO.t :=
  match b with
  | Dye => _dye s
  | Velocity => _velocity s
  | Pressure => _pressure s
  end.

Definition setBuffer (b : StateBuffer) (v : option DoubleTextureFBO.t)
    (s : World) : World :=
  match b with
  | Dye => set__dye v s
  | Velocity => set__velocity v s
  | Pressure => set__pressure v s
  end.

(** [this[name].swap()] *)
Definition swapBuffer (b : StateBuffer) : M World unit :=
  d <- the (bufferKey b) (getBuffer b) ;;
  modify (setBuffer b (Some (DoubleTextureFBO.swap d))).

(** [texelSize] of a buffer as the array it is. *)
Definition texelArg (t : R * R) : Arg := AArr [fst t; snd t].

(** *** webgl-utils.js: [useProgram] *)

(** [prog.use(vals)], that is [useProgram(gl, prog, vals)]; [vals] lists
    the entries of the object literal in order. *)
Definition useProgram (prog : Program) (vals : list (string * Arg))
  : M World unit :=
  liftGL (set_program (Some (name prog))) ;;;
  forOf vals (fun nv =>
    match puniforms prog !! fst nv with
    | None =>
        throw (Thrown ("Program " ++ name prog ++ " does not have "
                       ++ fst nv ++ " uniform."))
    | Some (_, size) =>
        if Nat.eqb (argLength (snd nv)) size
        then liftGL (setUniform (name prog) (fst nv) (snd nv))
        else throw (Thrown ("Invalid number of arguments for "
                            ++ name prog ++ "." ++ fst nv ++ " uniform."))
    end).

(** *** The class *)

(** [_blit(target)]; [None] is the canvas. *)
Definition _blit (target : option TextureFBO.t) : M World unit :=
  s <- get ;;
  let vp :=
    match target with
    | Some t => (0, 0, TextureFBO.width t, TextureFBO.height t)
    | None => (left (config s), bottom (config s),
               numberOf (_width s), numberOf (_height s))
    end in
  liftGL (fun g =>
    drawElements
      (set_viewport vp
         (set_framebuffer (option_map TextureFBO.texture target) g))).

(** The five [create*TextureFBO] calls of [_resizeBuffers]. *)
Definition createBuffers (simWidth simHeight dyeWidth dyeHeight : R)
  : M World unit :=
  modify (fun s =>
    let '(d, g) :=
      createDoubleTextureFBO dyeWidth dyeHeight RGBA16F LINEAR (_gl s) in
    set__dye (Some d) (set__gl g s)) ;;;
  modify (fun s =>
    let '(d, g) :=
      createDoubleTextureFBO simWidth simHeight RG16F LINEAR (_gl s) in
    set__velocity (Some d) (set__gl g s)) ;;;
  modify (fun s =>
    let '(d, g) :=
      createDoubleTextureFBO simWidth simHeight R16F NEAREST (_gl s) in
    set__pressure (Some d) (set__gl g s)) ;;;
  modify (fun s =>
    let '(f, g) := createTextureFBO simWidth simHeight R16F NEAREST (_gl s) in
    set__divergence (Some f) (set__gl g s)) ;;;
  modify (fun s =>
    let '(f, g) := createTextureFBO simWidth simHeight R16F NEAREST (_gl s) in
    set__curl (Some f) (set__gl g s)).

(** The matrix an old buffer is copied through. *)
Definition copyTransform (b : StateBuffer) (simWidth simHeight : R)
    (oldBuffer : DoubleTextureFBO.t) : list R :=
  match b with
  | Velocity =>
      identityMatrix4 (Some (simWidth / DoubleTextureFBO.w oldBuffer))
                      (Some (simHeight / DoubleTextureFBO.h oldBuffer))
                      None None
  | _ => identityMatrix4 None None None None
  end.

(** The body of the copy loop of [_resizeBuffers]. *)
Definition copyOld (simWidth simHeight : R)
    (entry : StateBuffer * option DoubleTextureFBO.t) : M World unit :=
  let '(b, old) := entry in
  oldBuffer <- the "oldBuffer" (fun _ => old) ;;
  let transform := copyTransform b simWidth simHeight oldBuffer in
  p <- programNamed "transform" ;;
  liftGL (attach (DoubleTextureFBO.read oldBuffer) 0) ;;;
  useProgram p [("value"%string, AF32 transform);
                ("uTexture"%string, AUnit 0)] ;;;
  cur <- the (bufferKey b) (getBuffer b) ;;
  _blit (Some (DoubleTextureFBO.write cur)) ;;;
  swapBuffer b ;;;
  liftGL (deleteDouble oldBuffer).

(** [_resizeBuffers(copyData)] *)
Definition _resizeBuffers (copyData : bool) : M World unit :=
  s <- get ;;
  let simWidth := width (config s) * simScale (config s) in
  let simHeight := height (config s) * simScale (config s) in
  let dyeWidth := width (config s) * dyeScale (config s) in
  let dyeHeight := height (config s) * dyeScale (config s) in
  let oldBuffers :=
    match _dye s with
    | Some _ =>
        if copyData
        then [(Dye, _dye s); (Velocity, _velocity s); (Pressure, _pressure s)]
        else []
    | None => []
    end in
  createBuffers simWidth simHeight dyeWidth dyeHeight ;;;
  forOf oldBuffers (copyOld simWidth simHeight).

(** Updating the object a reference of [solids] points to. *)
Definition updateSolid (ref : nat) (f : Solid -> Solid) : M World unit :=
  o <- the "solid" (fun s => heap s !! ref) ;;
  modify (fun s => set_heap (<[ref := f o]> (heap s)) s).

(** The inner loop of [_resizeIfNeeded] on one solid. *)
Definition rescaleSolid (scale : R * R) (o : Solid) : Solid :=
  mkSolid (fst (position o) * fst scale, snd (position o) * snd scale)
          (fst (velocity o) * fst scale, snd (velocity o) * snd scale)
          (radius o) (density o) (mass o).

(** The test of [_resizeIfNeeded]. *)
Definition resizeNeeded (s : World) : bool :=
  differs (_width s) (width (config s)) ||
  differs (_height s) (height (config s)) ||
  differs (_simScale s) (simScale (config s)) ||
  differs (_dyeScale s) (dyeScale (config s)).

(** The loop over [this.solids] of [_resizeIfNeeded]. *)
Definition rescaleSolids (scale : R * R) : M World unit :=
  s <- get ;;
  forOf (solids s) (fun ref => updateSolid ref (rescaleSolid scale)).

(** [_resizeIfNeeded()] *)
Definition _resizeIfNeeded : M World unit :=
  s <- get ;;
  if resizeNeeded s then
    _resizeBuffers true ;;;
    (s <- get ;;
     match _width s with
     | Some w0 =>
         if truthy w0 then
           rescaleSolids (width (config s) / w0,
                          height (config s) / numberOf (_height s))
         else ret tt
     | None => ret tt
     end) ;;;
    modify (fun s =>
      set__dyeScale (Some (dyeScale (config s)))
        (set__simScale (Some (simScale (config s)))
           (set__aspectRatio (Some (width (config s) / height (config s)))
              (set__height (Some (height (config s)))
                 (set__width (Some (width (config s))) s)))))
  else ret tt.

(** [setVelocity(x, y, angle, majorSize, minorSize, dx, dy)] *)
Definition setVelocity (x y angle majorSize minorSize dx dy : R)
  : M World unit :=
  p <- programNamed "splat" ;;
  v <- the "_velocity" _velocity ;;
  liftGL (attach (DoubleTextureFBO.read v) 0) ;;;
  s <- get ;;
  useProgram p
    [("uSource"%string, AUnit 0);
     ("point"%string,
      AArr [x / numberOf (_width s); y / numberOf (_height s)]);
     ("color"%string,
      AArr [dx * numberOf (_simScale s); dy * numberOf (_simScale s); 0]);
     ("transform"%string,
      AF32 (splatTransform (- angle) majorSize minorSize
              (numberOf (_width s)) (numberOf (_height s))))] ;;;
  v <- the "_velocity" _velocity ;;
  _blit (Some (DoubleTextureFBO.write v)) ;;;
  swapBuffer Velocity.

(** The colour [setDye] hands to the splat program. *)
Definition dyeColor (color : list R) : list R :=
  map (fun v => v * 2.72) color.

(** [setDye(x, y, angle, majorSize, minorSize, color)].  [random] is what
    [Math.random()] returns when no colour is given; it lies in [0, 1), for
    which [HSVtoRGB] always produces three components. *)
Definition setDye (random : R) (x y angle majorSize minorSize : R)
    (color : option (list R)) : M World unit :=
  let color :=
    match color with
    | Some c => c
    | None => match HSVtoRGB random 1 1 with Some c => c | None => [] end
    end in
  p <- programNamed "splat" ;;
  d <- the "_dye" _dye ;;
  liftGL (attach (DoubleTextureFBO.read d) 0) ;;;
  s <- get ;;
  useProgram p
    [("uSource"%string, AUnit 0);
     ("point"%string,
      AArr [x / numberOf (_width s); y / numberOf (_height s)]);
     ("color"%string, AArr (dyeColor color));
     ("transform"%string,
      AF32 (splatTransform (- angle) majorSize minorSize
              (numberOf (_width s)) (numberOf (_height s))))] ;;;
  d <- the "_dye" _dye ;;
  _blit (Some (DoubleTextureFBO.write d)) ;;;
  swapBuffer Dye.

(** [reset()] *)
Definition reset : M World unit := _resizeBuffers false.


(** [_drawSolid(solid, target, color)] *)
Definition _drawSolid (solid : Solid) (target : StateBuffer) (color : list R)
  : M World unit :=
  p <- programNamed "ellipsis" ;;
  s <- get ;;
  let point := [fst (position solid) / numberOf (_width s);
                snd (position solid) / numberOf (_height s)] in
  t <- the (bufferKey target) (getBuffer target) ;;
  liftGL (attach (DoubleTextureFBO.read t) 0) ;;;
  useProgram p
    [("point"%string, AArr point);
     ("color"%string, AArr color);
     ("uSource"%string, AUnit 0);
     ("transform"%string,
      AF32 (splatTransform 0 (radius solid) (radius solid)
              (numberOf (_width s)) (numberOf (_height s))))] ;;;
  t <- the (bufferKey target) (getBuffer target) ;;
  _blit (Some (DoubleTextureFBO.write t)) ;;;
  swapBuffer target.

(** The number a decoded half-float stands for.  Infinities and NaN have
    no real counterpart and read as 0 here, where the code goes on with
    [Infinity] and [NaN]: what is stated about decoded values is stated
    for read-backs that hold numbers only ([isNumber16]). *)
Definition ofFloat (f : spec_float) : R :=
  match f with
  | S754_finite sgn m e =>
      (if sgn then -1 else 1) * IZR (Z.pos m) * powerRZ 2 e
  | _ => 0
  end.

(** A half-float pattern that stands for a number: its exponent field is
    not all ones, so it is neither an infinity nor a NaN. *)
Definition isNumber16 (hf : Z) : bool :=
  negb (Z.land hf 0x7C00 =? 0x7C00)%Z.

(** [pressure[k]] decoded; an index outside the array reads [undefined],
    which the decoder's bitwise operators turn into 0. *)
Definition pressureAt (pressure : list Z) (k : Z) : R :=
  ofFloat (HalfFloat.uInt16ToFloat32
             (if (k <? 0)%Z then 0%Z else nth (Z.to_nat k) pressure 0%Z)).

(** The loop [for (let a = 0; a < Math.PI * 2; a += step)] of
    [_updateSolids], returning [dx] and [dy].  The cosine and the sine are
    the engine's ([MathObject]); sums, products and the comparison are
    those of the reals. *)
Fixpoint pressureSum (fuel : nat) (a step c r : R) (sampleSize : Z)
    (pressure : list Z) (dx dy : R) : option (R * R) :=
  match fuel with
  | O => None
  | S fuel' =>
      if Rlt_dec a (PI * 2) then
        let cos := Math_cos a in
        let sin := Math_sin a in
        let px := Int_part (c + r * cos) in
        let py := Int_part (c + r * sin) in
        let p := pressureAt pressure (px + py * sampleSize)%Z in
        pressureSum fuel' (a + step) step c r sampleSize pressure
                    (dx + p * cos) (dy + p * sin)
      else Some (dx, dy)
  end.

(** [sampleSize] of [_updateSolids]. *)
Definition sampleSizeOf (solid : Solid) (scale : R) : Z :=
  (Int_part (radius solid * scale) * 2 + 2)%Z.

(** [r] of [_updateSolids]: the radius of the sampling circle. *)
Definition sampleRadius (solid : Solid) (scale : R) : R :=
  (IZR (sampleSizeOf solid scale) - 1) / 2.

(** [mass] of [_updateSolids]:
    [solid.mass || ((solid.density || 1) * Math.PI * r * r)]. *)
Definition massOf (solid : Solid) (scale : R) : R :=
  let r := sampleRadius solid scale in
  orElse (mass solid) (orElse (density solid) 1 * PI * r * r).

(** The two assignments per axis that integrate the force. *)
Definition integrate (pForce : R * R) (m dt : R) (solid : Solid) : Solid :=
  let vx := fst (velocity solid) + fst pForce / m in
  let x := fst (position solid) + vx * dt in
  let vy := snd (velocity solid) + snd pForce / m in
  let y := snd (position solid) + vy * dt in
  mkSolid (x, y) (vx, vy) (radius solid) (density solid) (mass solid).

(** The body of the loop of [_updateSolids] for one element of [solids]. *)
Definition updateOneSolid (fuel : nat) (dt : R) (ref : nat) : M World unit :=
  pr <- the "_pressure" _pressure ;;
  liftGL (set_framebuffer
            (Some (TextureFBO.texture (DoubleTextureFBO.read pr)))) ;;;
  solid <- the "solid" (fun s => heap s !! ref) ;;
  s <- get ;;
  let scale := simScale (config s) in
  let left := (Int_part ((fst (position solid) - radius solid) * scale) - 1)%Z in
  let bottom :=
    (Int_part ((snd (position solid) - radius solid) * scale) - 1)%Z in
  let sampleSize := sampleSizeOf solid scale in
  let pressure :=
    match framebuffer (_gl s) with
    | Some t =>
        match textures (_gl s) !! t with
        | Some img => readPixels img left bottom sampleSize sampleSize
        | None => []
        end
    | None => []
    end in
  let steps := 20 in
  let step := PI * 2 / steps in
  let c := IZR sampleSize / 2 in
  let r := sampleRadius solid scale in
  match pressureSum fuel 0 step c r sampleSize pressure 0 0 with
  | None => timeout
  | Some (dx, dy) =>
      let pForce := (- dx * r * step, - dy * r * step) in
      let m := massOf solid scale in
      updateSolid ref (integrate pForce m dt) ;;;
      solid <- the "solid" (fun s => heap s !! ref) ;;
      s <- get ;;
      _drawSolid solid Velocity
        [fst (velocity solid) * numberOf (_simScale s);
         snd (velocity solid) * numberOf (_simScale s); 0]
  end.

(** [_updateSolids(dt)] *)
Definition _updateSolids (fuel : nat) (dt : R) : M World unit :=
  s <- get ;;
  forOf (solids s) (updateOneSolid fuel dt).

(** The blocks of [step], one per comment of the source. *)

(** Calculate curl/rotor of velocity. *)
Definition curlPass : M World unit :=
  p <- programNamed "curl" ;;
  v <- the "_velocity" _velocity ;;
  liftGL (attach (DoubleTextureFBO.read v) 0) ;;;
  v <- the "_velocity" _velocity ;;
  useProgram p
    [("uVelocity"%string, AUnit 0);
     ("texelSize"%string, texelArg (DoubleTextureFBO.texelSize v))] ;;;
  c <- the "_curl" _curl ;;
  _blit (Some c).

(** Add vorticity force to velocity. *)
Definition vorticityPass (dt : R) : M World unit :=
  p <- programNamed "vorticity" ;;
  v <- the "_velocity" _velocity ;;
  liftGL (attach (DoubleTextureFBO.read v) 0) ;;;
  c <- the "_curl" _curl ;;
  liftGL (attach c 1) ;;;
  v <- the "_velocity" _velocity ;;
  s <- get ;;
  useProgram p
    [("uVelocity"%string, AUnit 0);
     ("uCurl"%string, AUnit 1);
     ("texelSize"%string, texelArg (DoubleTextureFBO.texelSize v));
     ("curl"%string, ANum (curl (config s)));
     ("dt"%string, ANum dt)] ;;;
  v <- the "_velocity" _velocity ;;
  _blit (Some (DoubleTextureFBO.write v)) ;;;
  swapBuffer Velocity.

(** Calculate velocity divergence. *)
Definition divergencePass : M World unit :=
  p <- programNamed "divergence" ;;
  v <- the "_velocity" _velocity ;;
  liftGL (attach (DoubleTextureFBO.read v) 0) ;;;
  v <- the "_velocity" _velocity ;;
  useProgram p
    [("uVelocity"%string, AUnit 0);
     ("texelSize"%string, texelArg (DoubleTextureFBO.texelSize v))] ;;;
  d <- the "_divergence" _divergence ;;
  _blit (Some d).

(** Dissipate pressure. *)
Definition dissipatePressure (dt : R) : M World unit :=
  s <- get ;;
  if truthy (pressureDissipation (config s)) then
    p <- programNamed "transform" ;;
    pr <- the "_pressure" _pressure ;;
    liftGL (attach (DoubleTextureFBO.read pr) 0) ;;;
    s <- get ;;
    useProgram p
      [("uTexture"%string, AUnit 0);
       ("value"%string,
        AF32 (identityMatrix4
                (Some (1 - pressureDissipation (config s) * dt))
                None None None))] ;;;
    pr <- the "_pressure" _pressure ;;
    _blit (Some (DoubleTextureFBO.write pr)) ;;;
    swapBuffer Pressure
  else ret tt.

(** The body of the pressure loop. *)
Definition pressureIteration (_ : nat) : M World unit :=
  p <- programNamed "pressure" ;;
  match puniforms p !! "uPressure"%string with
  | None => throw (TypeError "uniforms.uPressure is undefined")
  | Some _ =>
      pr <- the "_pressure" _pressure ;;
      liftGL (attach (DoubleTextureFBO.read pr) 1) ;;;
      liftGL (uniform1i p "uPressure" 1) ;;;
      pr <- the "_pressure" _pressure ;;
      _blit (Some (DoubleTextureFBO.write pr)) ;;;
      swapBuffer Pressure
  end.

(** Iteratively calculate pressure from divergence. *)
Definition pressureSolve (fuel : nat) : M World unit :=
  p <- programNamed "pressure" ;;
  d <- the "_divergence" _divergence ;;
  liftGL (attach d 0) ;;;
  v <- the "_velocity" _velocity ;;
  useProgram p
    [("uDivergence"%string, AUnit 0);
     ("texelSize"%string, texelArg (DoubleTextureFBO.texelSize v))] ;;;
  forLt fuel 0 (fun s => pressureIterations (config s)) pressureIteration.

(** Apply pressure gradient to velocity. *)
Definition gradientSubtractPass : M World unit :=
  p <- programNamed "gradientSubtract" ;;
  pr <- the "_pressure" _pressure ;;
  liftGL (attach (DoubleTextureFBO.read pr) 0) ;;;
  v <- the "_velocity" _velocity ;;
  liftGL (attach (DoubleTextureFBO.read v) 1) ;;;
  v <- the "_velocity" _velocity ;;
  useProgram p
    [("uPressure"%string, AUnit 0);
     ("uVelocity"%string, AUnit 1);
     ("texelSize"%string, texelArg (DoubleTextureFBO.texelSize v))] ;;;
  v <- the "_velocity" _velocity ;;
  _blit (Some (DoubleTextureFBO.write v)) ;;;
  swapBuffer Velocity.

(** Advect (move) velocity. *)
Definition advectVelocity (dt : R) : M World unit :=
  v <- the "_velocity" _velocity ;;
  liftGL (attach (DoubleTextureFBO.read v) 0) ;;;
  p <- programNamed "advection" ;;
  v <- the "_velocity" _velocity ;;
  s <- get ;;
  useProgram p
    [("uVelocity"%string, AUnit 0);
     ("uSource"%string, AUnit 0);
     ("texelSize"%string, texelArg (DoubleTextureFBO.texelSize v));
     ("dt"%string, ANum dt);
     ("scale"%string, ANum (1 - velocityDissipation (config s) * dt))] ;;;
  v <- the "_velocity" _velocity ;;
  _blit (Some (DoubleTextureFBO.write v)) ;;;
  swapBuffer Velocity.

(** Advect dye. *)
Definition advectDye (dt : R) : M World unit :=
  p <- programNamed "advection" ;;
  dye <- the "_dye" _dye ;;
  liftGL (attach (DoubleTextureFBO.read dye) 1) ;;;
  s <- get ;;
  useProgram p
    [("uSource"%string, AUnit 1);
     ("scale"%string, ANum (1 - dyeDissipation (config s) * dt))] ;;;
  dye <- the "_dye" _dye ;;
  _blit (Some (DoubleTextureFBO.write dye)) ;;;
  swapBuffer Dye.

(** [step(dt)] *)
Definition step (fuel : nat) (dt : R) : M World unit :=
  modify (fun s => set_stepCalls (stepCalls s ++ [dt]) s) ;;;
  liftGL (set_blend false) ;;;
  curlPass ;;;
  vorticityPass dt ;;;
  divergencePass ;;;
  dissipatePressure dt ;;;
  pressureSolve fuel ;;;
  gradientSubtractPass ;;;
  advectVelocity dt ;;;
  advectDye dt ;;;
  (* Update solid object positions *)
  _updateSolids fuel dt.

(** [this[key]] for the keys [render] can build, which all start with an
    underscore: the own properties of the instance, the methods of the
    class and the underscore properties of [Object.prototype].  A number
    that is [NaN] is given as [VUndefined]: both are falsy and have no
    properties. *)
Definition privateProperty (s : World) (key : string) : JSValue :=
  let num (x : option R) :=
    match x with Some v => VNumber v | None => VUndefined end in
  let dbl (x : option DoubleTextureFBO.t) :=
    match x with Some d => VDouble d | None => VUndefined end in
  let sgl (x : option TextureFBO.t) :=
    match x with Some f => VTexture f | None => VUndefined end in
  if String.eqb key "_dye" then dbl (_dye s)
  else if String.eqb key "_velocity" then dbl (_velocity s)
  else if String.eqb key "_pressure" then dbl (_pressure s)
  else if String.eqb key "_divergence" then sgl (_divergence s)
  else if String.eqb key "_curl" then sgl (_curl s)
  else if String.eqb key "_width" then num (_width s)
  else if String.eqb key "_height" then num (_height s)
  else if String.eqb key "_aspectRatio" then num (_aspectRatio s)
  else if String.eqb key "_simScale" then num (_simScale s)
  else if String.eqb key "_dyeScale" then num (_dyeScale s)
  else if String.eqb key "_now" then num (option_map IZR (_now s))
  else if existsb (String.eqb key)
            ["_gl"; "_programs"; "_vao"; "_defaultRenderTransforms";
             "_resizeIfNeeded"; "_resizeBuffers"; "_init_vao"; "_blit";
             "_update"; "_drawSolid"; "_updateSolids";
             "__proto__"; "__defineGetter__"; "__defineSetter__";
             "__lookupGetter__"; "__lookupSetter__"]%string
  then VObject
  else VUndefined.

(** [!value] *)
Definition falsy (v : JSValue) : bool :=
  match v with
  | VUndefined => true
  | VNumber x => negb (truthy x)
  | _ => false
  end.

(** [_defaultRenderTransforms[name]] *)
Definition _defaultRenderTransforms (n : string) : option (R -> list R) :=
  if existsb (String.eqb n) ["dye"; "velocity"; "solid"]%string
  then Some identityTransform
  else if existsb (String.eqb n) ["pressure"; "divergence"; "curl"]%string
  then Some rToRG
  else None.

(** [this.renderTransforms[this.renderSource] || 1] *)
Definition renderTransformOf (c : Config) : RenderTransform :=
  match renderTransforms c !! renderSource c with
  | Some (Matrix m) => Matrix m
  | Some (Scalar x) => if truthy x then Scalar x else Scalar 1
  | None => Scalar 1
  end.

(** [render()] *)
Definition render : M World unit :=
  s <- get ;;
  let source := privateProperty s ("_" ++ renderSource (config s)) in
  if falsy source then
    throw (Thrown ("Can't find " ++ renderSource (config s)
                   ++ " render source."))
  else
    let source :=
      match source with
      | VDouble d => VTexture (DoubleTextureFBO.read d)
      | v => v
      end in
    transform <-
      match renderTransformOf (config s) with
      | Matrix m => ret m
      | Scalar x =>
          match _defaultRenderTransforms (renderSource (config s)) with
          | Some f => ret (f x)
          | None => throw (TypeError "default render transform is undefined")
          end
      end ;;
    p <- programNamed "transform" ;;
    match source with
    | VTexture f => liftGL (attach f 0)
    | _ => throw (TypeError "source.attach is not a function")
    end ;;;
    useProgram p [("uTexture"%string, AUnit 0);
                  ("value"%string, AF32 transform)] ;;;
    _blit None.

(** [dt] of [_update]: [now] is what [Date.now()] returns. *)
Definition updateDt (s : World) (now : Z) : R :=
  Num.min
    (match _now s with
     | Some t => if (t =? 0)%Z then 1 else IZR (now - t) / 1000
     | None => 1
     end)
    (maxSimulationStep (config s)).

(** A hook call [if (this.hook) this.hook(dt)]. *)
Definition callHook (hook : option (R -> M World unit)) (dt : R)
  : M World unit :=
  match hook with
  | Some f => f dt
  | None => ret tt
  end.

(** [_update()]: [now] and [now'] are the two readings of [Date.now()];
    the result tells whether another update was scheduled. *)
Definition _update (fuel : nat) (now now' : Z) : M World bool :=
  s <- get ;;
  let dt := updateDt s now in
  modify (set__now (Some now)) ;;;
  _resizeIfNeeded ;;;
  (s <- get ;; if paused (config s) then ret tt else step fuel dt) ;;;
  callHook preRender dt ;;;
  render ;;;
  callHook postRender dt ;;;
  s <- get ;;
  modify (set_updateTime
            (IZR (now' - now) / 1000 * updateTimeAlpha (config s)
             + updateTime s * (1 - updateTimeAlpha (config s)))) ;;;
  ret (autoUpdate (config s)).


(** *** Predicates used in the statements *)

(** What [useProgram] does to the context when it does not throw. *)
Definition useGL (prog : Program) (vals : list (string * Arg)) (g : GLState)
  : GLState :=
  fold_left (fun g nv => setUniform (name prog) (fst nv) (snd nv) g) vals
            (set_program (Some (name prog)) g).

(** What [_blit] does to the context. *)
Definition blitGL (vp : R * R * R * R) (target : option nat) (g : GLState)
  : GLState :=
  drawElements (set_viewport vp (set_framebuffer target g)).

(** The viewport [_blit] sets for a texture target. *)
Definition viewportOf (f : TextureFBO.t) : R * R * R * R :=
  (0, 0, TextureFBO.width f, TextureFBO.height f).

(** The instance is set up: all nine programs linked, the five buffers
    created, every element of [solids] a live object. *)
Definition Ready (s : World) : Prop :=
  _programs s = Programs.compiled /\
  is_Some (_dye s) /\ is_Some (_velocity s) /\ is_Some (_pressure s) /\
  is_Some (_divergence s) /\ is_Some (_curl s) /\
  (forall ref, In ref (solids s) -> is_Some (heap s !! ref)).

(** The draw calls issued between [s] and [s']. *)
Definition drawsBetween (s s' : World) (new : list DrawCall) : Prop :=
  drawLog (_gl s') = drawLog (_gl s) ++ new.

(** Between [s] and [s'] only draw calls satisfying [P] were issued. *)
Definition logAdds (P : DrawCall -> Prop) (s s' : World) : Prop :=
  exists new, drawsBetween s s' new /\ Forall P new.

(** A draw call that does not run the pressure program. *)
Definition notPressure (c : DrawCall) : Prop :=
  dcProgram c <> "pressure"%string.

(** Between [s] and [s'] no draw call ran the pressure program, and the
    options, the [solids] list and the pressure and divergence buffers are
    the same. *)
Definition quietRel (s s' : World) : Prop :=
  logAdds notPressure s s' /\ config s' = config s /\
  solids s' = solids s /\ _divergence s' = _divergence s /\
  _pressure s' = _pressure s.

(** A block of [step] that is not the pressure solve: from a set-up
    instance it returns, the instance stays set up, and [quietRel] holds. *)
Definition quiet (c : M World unit) : Prop :=
  forall s, Ready s ->
    exists s', c s = Ok tt s' /\ Ready s' /\ quietRel s s'.

(** The [i]-th draw call of a pressure solve that starts with the double
    buffer [pr]: the pressure program reads the divergence texture through
    unit 0 and the readable pressure texture through unit 1, and renders to
    the writable pressure texture. *)
Definition isJacobi (d : TextureFBO.t) (pr : DoubleTextureFBO.t)
    (c : DrawCall) : Prop :=
  dcProgram c = "pressure"%string /\
  dcUniforms c !! "uDivergence"%string = Some (AUnit 0) /\
  dcUnits c !! O = Some (TextureFBO.texture d) /\
  dcUniforms c !! "uPressure"%string = Some (AUnit 1) /\
  dcUnits c !! 1%nat
    = Some (TextureFBO.texture (DoubleTextureFBO.read pr)) /\
  dcTarget c = Some (TextureFBO.texture (DoubleTextureFBO.write pr)).

(** What one pass of the pressure loop does to the context. *)
Definition jacobiGL (pr : DoubleTextureFBO.t) (g : GLState) : GLState :=
  blitGL (viewportOf (DoubleTextureFBO.write pr))
         (Some (TextureFBO.texture (DoubleTextureFBO.write pr)))
         (uniform1i (Programs.linked "pressure" Programs.pressureUniforms)
                    "uPressure" 1
                    (attach (DoubleTextureFBO.read pr) 1 g)).

(** The context inside the pressure loop: the pressure program is in use,
    its [uDivergence] sampler is unit 0, and unit 0 holds the divergence
    texture. *)
Definition solving (d : TextureFBO.t) (g : GLState) : Prop :=
  program g = Some "pressure"%string /\
  uniformsOf g "pressure" !! "uDivergence"%string = Some (AUnit 0) /\
  units g !! O = Some (TextureFBO.texture d).

(** The five names [render] can show. *)
Definition renderSources : list string :=
  ["dye"; "velocity"; "pressure"; "divergence"; "curl"]%string.

(** What [render] does to the context when it shows the texture [f]
    through the matrix [m]. *)
Definition renderGL (f : TextureFBO.t) (m : list R) (vp : R * R * R * R)
    (g : GLState) : GLState :=
  blitGL vp None
    (useGL (Programs.linked "transform" Programs.transformUniforms)
       [("uTexture"%string, AUnit 0); ("value"%string, AF32 m)]
       (attach f 0 g)).

(** The uniform values of the transform program after [render]. *)
Definition renderUniforms (m : list R) (g : GLState) : gmap string Arg :=
  <["value"%string := AF32 m]>
    (<["uTexture"%string := AUnit 0]> (uniformsOf g "transform")).

(** The draw call [render] issues. *)
Definition renderCall (f : TextureFBO.t) (m : list R) (vp : R * R * R * R)
    (g : GLState) : DrawCall :=
  mkDraw "transform" (renderUniforms m g)
         (<[O := TextureFBO.texture f]> (units g)) None vp.

(** The matrix [render] passes as [value]. *)
Definition renderMatrix (c : Config) : list R :=
  match renderTransformOf c with
  | Matrix m => m
  | Scalar x =>
      match _defaultRenderTransforms (renderSource c) with
      | Some f => f x
      | None => []
      end
  end.

(** The texture [render] shows: the buffer named by [renderSource], or its
    readable side when it is a double buffer. *)
Definition shownTexture (s : World) : option TextureFBO.t :=
  match privateProperty s ("_" ++ renderSource (config s)) with
  | VDouble d => Some (DoubleTextureFBO.read d)
  | VTexture f => Some f
  | _ => None
  end.

(** [f] is the texture [render] is asked to show: the buffer that
    [renderSource] names, and for the three double buffers the side that
    is readable, which is [fbo1]. *)
Definition selectedTexture (s : World) (f : TextureFBO.t) : Prop :=
  (renderSource (config s) = "dye"%string /\
   exists d, _dye s = Some d /\ f = DoubleTextureFBO.fbo1 d) \/
  (renderSource (config s) = "velocity"%string /\
   exists d, _velocity s = Some d /\ f = DoubleTextureFBO.fbo1 d) \/
  (renderSource (config s) = "pressure"%string /\
   exists d, _pressure s = Some d /\ f = DoubleTextureFBO.fbo1 d) \/
  (renderSource (config s) = "divergence"%string /\
   _divergence s = Some f) \/
  (renderSource (config s) = "curl"%string /\ _curl s = Some f).

(** The viewport [_blit] sets for the canvas. *)
Definition canvasViewport (s : World) : R * R * R * R :=
  (left (config s), bottom (config s),
   numberOf (_width s), numberOf (_height s)).


(** The calls of a list that run the pressure program. *)
Definition pressureCalls (l : list DrawCall) : list DrawCall :=
  List.filter (fun c => String.eqb (dcProgram c) "pressure") l.

(** A run that returns satisfies [Q]; a run that throws or exhausts its
    fuel does not. *)
Definition wp {A} (c : M World A) (Q : A -> World -> Prop) (s : World)
  : Prop :=
  match c s with
  | Ok a s' => Q a s'
  | _ => False
  end.

(** Whatever state a run stops in, returning or throwing, is related to
    the state it started in. *)
Definition preserves {A} (R : World -> World -> Prop) (c : M World A)
  : Prop :=
  forall s, match c s with
            | Ok _ s' => R s s'
            | Err _ s' => R s s'
            | Timeout => True
            end.

(** Two versions of a solid object that differ at most in the contents of
    the [position] and [velocity] arrays. *)
Definition sameShape (a b : Solid) : Prop :=
  radius a = radius b /\ density a = density b /\ mass a = mass b.

(** Between [s] and [s'] the [solids] list is the same, no solid object
    appeared or disappeared, every object kept its shape, and the objects
    outside the list [l] are untouched. *)
Definition solidsFrame (l : list nat) (s s' : World) : Prop :=
  solids s' = solids s /\
  (forall ref o, heap s !! ref = Some o ->
     exists o', heap s' !! ref = Some o' /\ sameShape o o') /\
  (forall ref, heap s !! ref = None -> heap s' !! ref = None) /\
  (forall ref, ~ In ref l -> heap s' !! ref = heap s !! ref).

(** [step] was not called between [s] and [s']. *)
Definition keepsSteps (s s' : World) : Prop := stepCalls s' = stepCalls s.

(** Every call of [step] between [s] and [s'] had the argument [d]. *)
Definition stepsWith (d : R) (s s' : World) : Prop :=
  exists l, stepCalls s' = stepCalls s ++ l /\ Forall (fun x => x = d) l.

(** The recorded size of a texture and of a double buffer. *)
Definition fboSize (f : TextureFBO.t) (w h : R) : Prop :=
  TextureFBO.width f = w /\ TextureFBO.height f = h.

Definition doubleSize (d : DoubleTextureFBO.t) (w h : R) : Prop :=
  DoubleTextureFBO.w d = w /\ DoubleTextureFBO.h d = h /\
  fboSize (DoubleTextureFBO.fbo1 d) w h /\
  fboSize (DoubleTextureFBO.fbo2 d) w h.

(** The five buffers exist; the simulation buffers have the recorded size
    [sw] x [sh] and the dye buffer [dw] x [dh]. *)
Definition sizedAs (sw sh dw dh : R) (s : World) : Prop :=
  exists d v p dv c,
    _dye s = Some d /\ _velocity s = Some v /\ _pressure s = Some p /\
    _divergence s = Some dv /\ _curl s = Some c /\
    doubleSize d dw dh /\ doubleSize v sw sh /\ doubleSize p sw sh /\
    fboSize dv sw sh /\ fboSize c sw sh.

(** The options, the programs, the [solids] list, the clock and the record
    of [step] calls are the same. *)
Definition sameSetup (s s' : World) : Prop :=
  config s' = config s /\ _programs s' = _programs s /\
  solids s' = solids s /\ _now s' = _now s /\ stepCalls s' = stepCalls s.

(** The private copies of the dimensions are the same. *)
Definition sameDims (s s' : World) : Prop :=
  _width s' = _width s /\ _height s' = _height s /\
  _simScale s' = _simScale s /\ _dyeScale s' = _dyeScale s.

(** The draw call [c] runs the transform program with the matrix [m] on
    the readable texture of [old], bound to unit 0, and renders to the
    texture [target]. *)
Definition copyCall (old : DoubleTextureFBO.t) (target : nat) (m : list R)
    (c : DrawCall) : Prop :=
  dcProgram c = "transform"%string /\
  dcUniforms c !! "value"%string = Some (AF32 m) /\
  dcUniforms c !! "uTexture"%string = Some (AUnit 0) /\
  dcUnits c !! 0%nat
  = Some (TextureFBO.texture (DoubleTextureFBO.read old)) /\
  dcTarget c = Some target.

(** Both textures of [old] are deleted in [s]. *)
Definition released (old : DoubleTextureFBO.t) (s : World) : Prop :=
  textures (_gl s) !! TextureFBO.texture (DoubleTextureFBO.fbo1 old) = None /\
  textures (_gl s) !! TextureFBO.texture (DoubleTextureFBO.fbo2 old) = None.

(** The instance as the constructor leaves it: the programs linked, no
    buffer created and no dimension copied yet, every element of [solids]
    a live object. *)
Definition Fresh (s : World) : Prop :=
  _programs s = Programs.compiled /\ _width s = None /\ _dye s = None /\
  (forall ref, In ref (solids s) -> is_Some (heap s !! ref)).

(** A hook that returns on a set-up instance, leaves it set up and touches
    neither the options nor the record of [step] calls.  No hook at all is
    such a hook. *)
Definition hookFine (hook : option (R -> M World unit)) : Prop :=
  forall dt s, Ready s ->
    exists s', callHook hook dt s = Ok tt s' /\ Ready s' /\ sameSetup s s'.

(** The solids and the list that holds them are the same. *)
Definition sameHeap (s s' : World) : Prop :=
  solids s' = solids s /\ heap s' = heap s.

(** [solidsFrame l] for runs that start with all of [solids] in [l]. *)
Definition frameFrom (l : list nat) (s s' : World) : Prop :=
  incl (solids s) l -> solidsFrame l s s'.

(** The time of the last tick is the same. *)
Definition sameClock (s s' : World) : Prop := _now s' = _now s.

(** The context holds textures under the same names, and the next name it
    would give out is the same: no texture was created or deleted. *)
Definition sameTextureNames (s s' : World) : Prop :=
  (forall n, is_Some (textures (_gl s') !! n)
             <-> is_Some (textures (_gl s) !! n)) /\
  nextName (_gl s') = nextName (_gl s).

(** Between [s] and [s'] draw calls were issued that ran the programs
    [names], in this order, and nothing else was drawn; the options and the
    [solids] list are the same. *)
Definition passed (names : list string) (s s' : World) : Prop :=
  (exists new, drawsBetween s s' new /\ map dcProgram new = names) /\
  config s' = config s /\ solids s' = solids s.

(** On a set-up instance [c] returns after running the programs [names]
    and leaves the instance set up. *)
Definition pass (names : list string) (c : M World unit) : Prop :=
  forall s, Ready s ->
    exists s', c s = Ok tt s' /\ Ready s' /\ passed names s s'.

(** What the two advection passes of [step] do to the context: [v] and
    [dye] are the buffers as they are before the velocity pass. *)
Definition velocityAdvectionGL (dt : R) (c : Config)
    (v : DoubleTextureFBO.t) (g : GLState) : GLState :=
  blitGL (viewportOf (DoubleTextureFBO.write v))
    (Some (TextureFBO.texture (DoubleTextureFBO.write v)))
    (useGL (Programs.linked "advection" Programs.advectionUniforms)
       [("uVelocity"%string, AUnit 0); ("uSource"%string, AUnit 0);
        ("texelSize"%string, texelArg (DoubleTextureFBO.texelSize v));
        ("dt"%string, ANum dt);
        ("scale"%string, ANum (1 - velocityDissipation c * dt))]
       (attach (DoubleTextureFBO.read v) 0 g)).

Definition dyeAdvectionGL (dt : R) (c : Config)
    (dye : DoubleTextureFBO.t) (g : GLState) : GLState :=
  blitGL (viewportOf (DoubleTextureFBO.write dye))
    (Some (TextureFBO.texture (DoubleTextureFBO.write dye)))
    (useGL (Programs.linked "advection" Programs.advectionUniforms)
       [("uSource"%string, AUnit 1);
        ("scale"%string, ANum (1 - dyeDissipation c * dt))]
       (attach (DoubleTextureFBO.read dye) 1 g)).

(** The smoothed run time is the same. *)
Definition sameUpdateTime (s s' : World) : Prop :=
  updateTime s' = updateTime s.

End Engine.

(** ** An instance with one solid *)

(** A context whose images are functions from coordinates to colours:
    sampling is application, a draw replaces what it covers or, with
    blending, adds to it; nothing is read back and the shaders outside the
    sources paint black. *)
Definition Pixels : Type := R * R -> R * R * R * R.

Definition blankPixels (w h : R) (fmt : InternalFormat) (flt : Filter)
  : Pixels :=
  fun _ => (0, 0, 0, 0).

Definition samplePixels (img : Pixels) : sampler := img.

Definition paint (blend : bool) (vp : R * R * R * R)
    (frag : R * R -> R * R * R * R) (img : Pixels) : Pixels :=
  if blend
  then fun uv =>
         let '(r, g, b, a) := frag uv in
         let '(r0, g0, b0, a0) := img uv in
         (r + r0, g + g0, b + b0, a + a0)
  else frag.

Definition noReadBack (img : Pixels) (x y w h : Z) : list Z := [].

Definition blackShader (prog : string) (u : gmap string Arg)
    (tex : nat -> sampler) (uv : R * R) : R * R * R * R :=
  (0, 0, 0, 0).

Definition pixels : WebGL2RenderingContext :=
  {| Image := Pixels;
     blankImage := blankPixels;
     texture2D := samplePixels;
     rasterize := paint;
     readPixels := noReadBack;
     externalShader := blackShader |}.

(** An engine whose [Math.cos] and [Math.sin] are exact. *)
Definition exactMath : MathObject :=
  {| Math_cos := cos; Math_sin := sin |}.

(** Options: a canvas of 101 by 100 pixels simulated at half resolution,
    two pressure iterations. *)
Definition exampleConfig : Config :=
  mkConfig 0 0 101 100 (1 / 2) 1 false (1 / 10) (1 / 10) 0 (1 / 20) 2 3
           "dye" defaultRenderTransforms true (1 / 120).

Definition ball : Solid := mkSolid (50, 50) (0, 0) 10 (Some 2) None.

Definition exampleFBO (n : nat) (w h : R) : TextureFBO.t :=
  TextureFBO.mk n w h (1 / w, 1 / h).

Definition exampleDouble (n : nat) (w h : R) : DoubleTextureFBO.t :=
  DoubleTextureFBO.mk w h (1 / w, 1 / h)
    (exampleFBO n w h) (exampleFBO (S n) w h).

Definition freshGL : @GLState pixels :=
  @mkGL pixels ∅ 0 0 ∅ None ∅ None (0, 0, 0, 0) false
       (blankPixels 0 0 RGBA16F LINEAR) [].

(** The instance right after the constructor. *)
Definition freshWorld : @World pixels :=
  @mkWorld pixels exampleConfig freshGL Programs.compiled
          None None None None None None None None None None None
          [0%nat] (<[0%nat := ball]> ∅) 0 [].

Definition runningGL : @GLState pixels :=
  @mkGL pixels
       (<[0%nat := blankPixels 100 100 RGBA16F LINEAR]>
        (<[1%nat := blankPixels 100 100 RGBA16F LINEAR]>
        (<[2%nat := blankPixels 100 100 RG16F LINEAR]>
        (<[3%nat := blankPixels 100 100 RG16F LINEAR]>
        (<[4%nat := blankPixels 100 100 R16F NEAREST]>
        (<[5%nat := blankPixels 100 100 R16F NEAREST]>
        (<[6%nat := blankPixels 100 100 R16F NEAREST]>
        (<[7%nat := blankPixels 100 100 R16F NEAREST]> ∅))))))))
       8 0 ∅ None ∅ None (0, 0, 0, 0) false
       (blankPixels 0 0 RGBA16F LINEAR) [].

(** The instance some ticks later, when the canvas was 100 by 100 pixels
    and simulated at full resolution; the last tick was at 2000 ms. *)
Definition runningWorld : @World pixels :=
  @mkWorld pixels exampleConfig runningGL Programs.compiled
          (Some 100) (Some 100) (Some 1) (Some 1) (Some 1)
          (Some (exampleDouble 0 100 100)) (Some (exampleDouble 2 100 100))
          (Some (exampleDouble 4 100 100)) (Some (exampleFBO 6 100 100))
          (Some (exampleFBO 7 100 100)) (Some 2000%Z)
          [0%nat] (<[0%nat := ball]> ∅) 0 [].

(** The same instance asked to render a buffer that does not exist. *)
Definition strayWorld : @World pixels :=
  @mkWorld pixels
          (mkConfig 0 0 101 100 (1 / 2) 1 false (1 / 10) (1 / 10) 0 (1 / 20)
                    2 3 "ink" defaultRenderTransforms true (1 / 120))
          runningGL Programs.compiled
          (Some 100) (Some 100) (Some 1) (Some 1) (Some 1)
          (Some (exampleDouble 0 100 100)) (Some (exampleDouble 2 100 100))
          (Some (exampleDouble 4 100 100)) (Some (exampleFBO 6 100 100))
          (Some (exampleFBO 7 100 100)) (Some 2000%Z)
          [0%nat] (<[0%nat := ball]> ∅) 0 [].

(** The same instance while [config.paused] is set. *)
Definition pausedWorld : @World pixels :=
  @mkWorld pixels
          (mkConfig 0 0 101 100 (1 / 2) 1 true (1 / 10) (1 / 10) 0 (1 / 20)
                    2 3 "dye" defaultRenderTransforms true (1 / 120))
          runningGL Programs.compiled
          (Some 100) (Some 100) (Some 1) (Some 1) (Some 1)
          (Some (exampleDouble 0 100 100)) (Some (exampleDouble 2 100 100))
          (Some (exampleDouble 4 100 100)) (Some (exampleFBO 6 100 100))
          (Some (exampleFBO 7 100 100)) (Some 2000%Z)
          [0%nat] (<[0%nat := ball]> ∅) 0 [].

(** A context that reads back a pressure of 1 in the upper half of the
    square it is asked for and 0 in the lower half, as half-floats;
    otherwise it is [pixels]. *)
Definition halfPlaneReadBack (img : Pixels) (x y w h : Z) : list Z :=
  map (fun k => if (w * h <=? 2 * k)%Z then 0x3C00%Z else 0%Z)
      (HalfFloat.zrange (Z.to_nat (w * h)) 0).

Definition gauge : WebGL2RenderingContext :=
  {| Image := Pixels;
     blankImage := blankPixels;
     texture2D := samplePixels;
     rasterize := paint;
     readPixels := halfPlaneReadBack;
     externalShader := blackShader |}.

Definition gaugeGL : @GLState gauge :=
  @mkGL gauge
       (<[0%nat := blankPixels 100 100 RGBA16F LINEAR]>
        (<[1%nat := blankPixels 100 100 RGBA16F LINEAR]>
        (<[2%nat := blankPixels 100 100 RG16F LINEAR]>
        (<[3%nat := blankPixels 100 100 RG16F LINEAR]>
        (<[4%nat := blankPixels 100 100 R16F NEAREST]>
        (<[5%nat := blankPixels 100 100 R16F NEAREST]>
        (<[6%nat := blankPixels 100 100 R16F NEAREST]>
        (<[7%nat := blankPixels 100 100 R16F NEAREST]> ∅))))))))
       8 0 ∅ None ∅ None (0, 0, 0, 0) false
       (blankPixels 0 0 RGBA16F LINEAR) [].

(** The running instance on that context. *)
Definition gaugeWorld : @World gauge :=
  @mkWorld gauge exampleConfig gaugeGL Programs.compiled
          (Some 100) (Some 100) (Some 1) (Some 1) (Some 1)
          (Some (exampleDouble 0 100 100)) (Some (exampleDouble 2 100 100))
          (Some (exampleDouble 4 100 100)) (Some (exampleFBO 6 100 100))
          (Some (exampleFBO 7 100 100)) (Some 2000%Z)
          [0%nat] (<[0%nat := ball]> ∅) 0 [].




(** ** Properties *)

Section EngineFacts.
Context `{ctx : WebGL2RenderingContext} `{math : MathObject}.

(** The hooks of the instance a tick is run on. *)
Variable preRender : option (R -> M World unit).
Variable postRender : option (R -> M World unit).


(** *** Rules for runs *)

Lemma wp_ret {A} (a : A) Q s : Q a s -> wp (ret a) Q s.
Proof. exact (fun H => H). Qed.

Lemma wp_bind {A B} (c : M World A) (k : A -> M World B) Q s :
  wp c (fun a s' => wp (k a) Q s') s -> wp (bind c k) Q s.
Proof. unfold wp, bind. destruct (c s); auto. Qed.

Lemma wp_get Q s : Q s s -> wp get Q s.
Proof. exact (fun H => H). Qed.

Lemma wp_modify f Q s : Q tt (f s) -> wp (modify f) Q s.
Proof. exact (fun H => H). Qed.

Lemma wp_liftGL f Q s : Q tt (set__gl (f (_gl s)) s) -> wp (liftGL f) Q s.
Proof. exact (fun H => H). Qed.

Lemma wp_the {A} what (prop : World -> option A) a Q s :
  prop s = Some a -> Q a s -> wp (the what prop) Q s.
Proof. unfold wp, the. intros ->. auto. Qed.

Lemma wp_conseq {A} (c : M World A) (Q Q' : A -> World -> Prop) s :
  wp c Q s -> (forall a s', Q a s' -> Q' a s') -> wp c Q' s.
Proof. unfold wp. destruct (c s); auto. Qed.

Lemma wp_run {A} (c : M World A) Q s :
  wp c Q s -> exists a s', c s = Ok a s' /\ Q a s'.
Proof. unfold wp. destruct (c s); try tauto. eauto. Qed.

Section Preserves.
Context (R : World -> World -> Prop) `{!PreOrder R}.

Lemma preserves_ret {A} (a : A) : preserves R (ret a).
Proof. intros s. simpl. reflexivity. Qed.

Lemma preserves_throw {A} e : preserves R (@throw World A e).
Proof. intros s. simpl. reflexivity. Qed.

Lemma preserves_timeout {A} : preserves R (@timeout World A).
Proof. intros s. exact I. Qed.

Lemma preserves_get : preserves R get.
Proof. intros s. simpl. reflexivity. Qed.

Lemma preserves_the {A} what (prop : World -> option A) :
  preserves R (the what prop).
Proof. intros s. unfold the. destruct (prop s); reflexivity. Qed.

Lemma preserves_bind {A B} (c : M World A) (k : A -> M World B) :
  preserves R c -> (forall a, preserves R (k a)) -> preserves R (bind c k).
Proof.
  intros Hc Hk s. unfold bind. specialize (Hc s).
  destruct (c s) as [a s'|e s'|]; auto.
  specialize (Hk a s'). destruct (k a s'); auto; etransitivity; eauto.
Qed.

Lemma preserves_modify f : (forall s, R s (f s)) -> preserves R (modify f).
Proof. intros H s. apply H. Qed.

Lemma preserves_liftGL f :
  (forall s g, R s (set__gl g s)) -> preserves R (liftGL f).
Proof. intros H s. apply H. Qed.

Lemma preserves_forOf {A} (l : list A) (body : A -> M World unit) :
  (forall x, In x l -> preserves R (body x)) -> preserves R (forOf l body).
Proof.
  induction l as [|x l IH]; intros H; simpl.
  - apply preserves_ret.
  - apply preserves_bind.
    + apply H. now left.
    + intros _. apply IH. intros y Hy. apply H. now right.
Qed.

Lemma preserves_forLt fuel i bound (body : nat -> M World unit) :
  (forall j, preserves R (body j)) -> preserves R (forLt fuel i bound body).
Proof.
  intros H. revert i. induction fuel as [|fuel IH]; intros i s; simpl.
  - exact I.
  - destruct (Rlt_dec (INR i) (bound s)).
    + apply (preserves_bind (body i) (fun _ => forLt fuel (S i) bound body));
        auto.
    + reflexivity.
Qed.

End Preserves.

Lemma preserves_weaken {A} (R R' : World -> World -> Prop) (c : M World A) :
  (forall s s', R s s' -> R' s s') -> preserves R c -> preserves R' c.
Proof.
  intros H Hc s. specialize (Hc s). destruct (c s); auto.
Qed.

(** Breaking a method into its statements. *)
Ltac pres_step leaf :=
  lazymatch goal with
  | |- preserves ?R (bind _ _) => apply (preserves_bind R); [ | intros ? ]
  | |- preserves ?R (ret _) => apply (preserves_ret R)
  | |- preserves ?R (throw _) => apply (preserves_throw R)
  | |- preserves ?R timeout => apply (preserves_timeout R)
  | |- preserves ?R get => apply (preserves_get R)
  | |- preserves ?R (the _ _) => apply (preserves_the R)
  | |- preserves ?R (programNamed _) => apply (preserves_the R)
  | |- preserves ?R (forLt _ _ _ _) => apply (preserves_forLt R); intros ?
  | |- preserves ?R (forOf _ _) => apply (preserves_forOf R); intros ? ?
  | |- preserves _ (match ?x with _ => _ end) => destruct x
  | |- preserves _ ((fun _ => _) _) => lazy beta
  | |- _ => leaf
  end.

Ltac pres leaf := repeat (pres_step leaf).

(** *** What the methods leave alone *)

#[local] Instance sameHeap_preorder : PreOrder sameHeap.
Proof.
  split.
  - intros s. split; reflexivity.
  - intros s1 s2 s3 [H1 H2] [H3 H4]. split; congruence.
Qed.

Ltac sameHeap_leaf :=
  first
    [ apply (preserves_liftGL sameHeap); intros; split; reflexivity
    | apply (preserves_modify sameHeap); intros s;
      cbv beta delta [setBuffer];
      repeat match goal with
             | |- context [let '(_, _) := ?x in _] => destruct x
             | |- context [match ?x with _ => _ end] => destruct x
             end;
      split; reflexivity ].

Lemma useProgram_sameHeap p vals : preserves sameHeap (useProgram p vals).
Proof. unfold useProgram. pres sameHeap_leaf. Qed.

Lemma _blit_sameHeap target : preserves sameHeap (_blit target).
Proof. unfold _blit. pres sameHeap_leaf. Qed.

Lemma swapBuffer_sameHeap b : preserves sameHeap (swapBuffer b).
Proof. unfold swapBuffer. pres sameHeap_leaf. Qed.


Ltac sameHeap_any :=
  first
    [ exact (useProgram_sameHeap _ _)
    | exact (_blit_sameHeap _)
    | exact (swapBuffer_sameHeap _)
    | sameHeap_leaf ].

Lemma _drawSolid_sameHeap solid target color :
  preserves sameHeap (_drawSolid solid target color).
Proof. unfold _drawSolid. pres sameHeap_any. Qed.

Lemma pressureIteration_sameHeap i : preserves sameHeap (pressureIteration i).
Proof. unfold pressureIteration. pres sameHeap_any. Qed.

Lemma createBuffers_sameHeap sw sh dw dh :
  preserves sameHeap (createBuffers sw sh dw dh).
Proof. unfold createBuffers. pres sameHeap_any. Qed.

Lemma copyOld_sameHeap sw sh entry : preserves sameHeap (copyOld sw sh entry).
Proof. unfold copyOld. pres sameHeap_any. Qed.

Lemma _resizeBuffers_sameHeap copyData :
  preserves sameHeap (_resizeBuffers copyData).
Proof.
  unfold _resizeBuffers. pres sameHeap_any;
    first [ exact (createBuffers_sameHeap _ _ _ _)
          | exact (copyOld_sameHeap _ _ _) ].
Qed.

Lemma setVelocity_sameHeap x y angle majorSize minorSize dx dy :
  preserves sameHeap (setVelocity x y angle majorSize minorSize dx dy).
Proof. unfold setVelocity. pres sameHeap_any. Qed.

Lemma setDye_sameHeap random x y angle majorSize minorSize color :
  preserves sameHeap (setDye random x y angle majorSize minorSize color).
Proof. unfold setDye. pres sameHeap_any. Qed.

Lemma render_sameHeap : preserves sameHeap render.
Proof. unfold render. pres sameHeap_any. Qed.

(** *** Solids keep their shape *)

Lemma sameShape_refl o : sameShape o o.
Proof. repeat split. Qed.

Lemma sameShape_trans a b c : sameShape a b -> sameShape b c -> sameShape a c.
Proof. unfold sameShape. intuition congruence. Qed.

#[local] Instance solidsFrame_preorder l : PreOrder (solidsFrame l).
Proof.
  split.
  - intros s. repeat split; auto. intros ref o H. exists o. split; auto.
    apply sameShape_refl.
  - intros s1 s2 s3 (Ha & Hb & Hc & Hd) (Ha' & Hb' & Hc' & Hd').
    split; [congruence|]. split; [|split].
    + intros ref o H. destruct (Hb _ _ H) as (o' & H' & Hs).
      destruct (Hb' _ _ H') as (o'' & H'' & Hs').
      exists o''. split; auto. eapply sameShape_trans; eauto.
    + intros ref H. auto.
    + intros ref H. rewrite Hd', Hd; auto.
Qed.

Lemma sameHeap_solidsFrame l s s' : sameHeap s s' -> solidsFrame l s s'.
Proof.
  intros [H1 H2]. unfold solidsFrame. rewrite H1, H2.
  repeat split; auto. intros ref o H. exists o. split; auto.
  apply sameShape_refl.
Qed.

Lemma updateSolid_solidsFrame l ref f :
  In ref l -> (forall o, sameShape o (f o)) ->
  preserves (solidsFrame l) (updateSolid ref f).
Proof.
  intros Hin Hf s. unfold updateSolid, bind, the, modify.
  destruct (heap s !! ref) as [o|] eqn:E; [|reflexivity].
  repeat split; simpl.
  - intros r o0 H. destruct (decide (ref = r)) as [->|Hne].
    + rewrite lookup_insert_eq. exists (f o). split; auto.
      assert (o0 = o) as -> by congruence. apply Hf.
    + rewrite lookup_insert_ne by auto. exists o0. split; auto.
      apply sameShape_refl.
  - intros r H. rewrite lookup_insert_ne; auto. congruence.
  - intros r H. rewrite lookup_insert_ne; auto. congruence.
Qed.

Lemma integrate_sameShape pForce m dt o : sameShape o (integrate pForce m dt o).
Proof. repeat split. Qed.

Lemma rescaleSolid_sameShape scale o : sameShape o (rescaleSolid scale o).
Proof. repeat split. Qed.

Ltac solidsFrame_leaf l :=
  apply (preserves_weaken sameHeap (solidsFrame l));
  [ exact (sameHeap_solidsFrame l)
  | first [ exact (_drawSolid_sameHeap _ _ _)
          | exact (pressureIteration_sameHeap _)
          | exact (_resizeBuffers_sameHeap _)
          | sameHeap_any ] ].

Lemma updateOneSolid_solidsFrame l fuel dt ref :
  In ref l -> preserves (solidsFrame l) (updateOneSolid fuel dt ref).
Proof.
  intros Hin. unfold updateOneSolid.
  pres ltac:(first
    [ apply (updateSolid_solidsFrame l); [exact Hin | apply integrate_sameShape]
    | solidsFrame_leaf l ]).
Qed.

#[local] Instance frameFrom_preorder l : PreOrder (frameFrom l).
Proof.
  split.
  - intros s _. reflexivity.
  - intros s1 s2 s3 H12 H23 Hl. specialize (H12 Hl).
    transitivity s2; auto. apply H23.
    destruct H12 as [-> _]. exact Hl.
Qed.

Lemma sameHeap_frameFrom l s s' : sameHeap s s' -> frameFrom l s s'.
Proof. intros H _. apply sameHeap_solidsFrame, H. Qed.

Lemma _updateSolids_frameFrom l fuel dt :
  preserves (frameFrom l) (_updateSolids fuel dt).
Proof.
  intros s. unfold _updateSolids. unfold bind at 1, get.
  assert (Hk : incl (solids s) l ->
               match forOf (solids s) (updateOneSolid fuel dt) s with
               | Ok _ s' => solidsFrame l s s'
               | Err _ s' => solidsFrame l s s'
               | Timeout => True
               end).
  { intros Hl. apply (preserves_forOf (solidsFrame l)).
    intros ref Hin. apply updateOneSolid_solidsFrame. auto. }
  destruct (forOf (solids s) (updateOneSolid fuel dt) s); auto.
Qed.

Ltac frameFrom_leaf l :=
  first
    [ exact (_updateSolids_frameFrom l _ _)
    | apply (preserves_weaken sameHeap (frameFrom l));
      [ exact (sameHeap_frameFrom l)
      | first [ exact (_drawSolid_sameHeap _ _ _)
              | exact (pressureIteration_sameHeap _)
              | exact (_resizeBuffers_sameHeap _)
              | sameHeap_any ] ] ].

Lemma step_frameFrom l fuel dt : preserves (frameFrom l) (step fuel dt).
Proof.
  unfold step, curlPass, vorticityPass, divergencePass, dissipatePressure,
    pressureSolve, gradientSubtractPass, advectVelocity, advectDye.
  pres ltac:(frameFrom_leaf l).
Qed.

Lemma rescaleSolids_frameFrom l scale :
  preserves (frameFrom l) (rescaleSolids scale).
Proof.
  intros s. unfold rescaleSolids. unfold bind at 1, get.
  assert (Hk : incl (solids s) l ->
               match forOf (solids s)
                       (fun ref => updateSolid ref (rescaleSolid scale)) s with
               | Ok _ s' => solidsFrame l s s'
               | Err _ s' => solidsFrame l s s'
               | Timeout => True
               end).
  { intros Hl. apply (preserves_forOf (solidsFrame l)).
    intros ref Hin. apply updateSolid_solidsFrame; auto.
    apply rescaleSolid_sameShape. }
  destruct (forOf (solids s) _ s); auto.
Qed.

Lemma _resizeIfNeeded_frameFrom l : preserves (frameFrom l) _resizeIfNeeded.
Proof.
  unfold _resizeIfNeeded.
  pres ltac:(first [ exact (rescaleSolids_frameFrom l _)
                   | frameFrom_leaf l ]).
Qed.


(** *** Runs that return: the statements one by one *)

Lemma wp_run_eq {A} (c : M World A) (a : A) (s' s : World) :
  wp c (fun a0 s0 => a0 = a /\ s0 = s') s -> c s = Ok a s'.
Proof. unfold wp. destruct (c s); try tauto. intros [-> ->]. reflexivity. Qed.

Lemma wp_of_eq {A} (c : M World A) (a : A) (s' s : World) Q :
  c s = Ok a s' -> Q a s' -> wp c Q s.
Proof. unfold wp. intros ->. auto. Qed.

Lemma wp_programNamed n p Q s :
  _programs s !! n = Some p -> Q p s -> wp (programNamed n) Q s.
Proof. intros H HQ. unfold programNamed. eapply wp_the; eauto. Qed.

Lemma useProgram_loop p vals s :
  Programs.argsOk p vals = true ->
  forOf vals
    (fun nv =>
       match puniforms p !! fst nv with
       | None =>
           throw (Thrown ("Program " ++ name p ++ " does not have "
                          ++ fst nv ++ " uniform."))
       | Some (_, size) =>
           if Nat.eqb (argLength (snd nv)) size
           then liftGL (setUniform (name p) (fst nv) (snd nv))
           else throw (Thrown ("Invalid number of arguments for "
                               ++ name p ++ "." ++ fst nv ++ " uniform."))
       end) s
  = Ok tt (set__gl
             (fold_left (fun g nv => setUniform (name p) (fst nv) (snd nv) g)
                        vals (_gl s)) s).
Proof.
  revert s. induction vals as [|nv vals IH]; intros s H; simpl in *.
  - destruct s; reflexivity.
  - apply andb_prop in H. destruct H as [H1 H2].
    unfold bind at 1.
    destruct (puniforms p !! fst nv) as [[m size]|]; [|discriminate].
    rewrite H1. unfold liftGL at 1, modify at 1.
    rewrite IH by exact H2. reflexivity.
Qed.

Lemma useProgram_run p vals s :
  Programs.argsOk p vals = true ->
  useProgram p vals s = Ok tt (set__gl (useGL p vals (_gl s)) s).
Proof.
  intros H. unfold useProgram. unfold bind at 1, liftGL at 1, modify at 1.
  rewrite useProgram_loop by exact H. reflexivity.
Qed.

Lemma wp_useProgram p vals Q s :
  Programs.argsOk p vals = true ->
  Q tt (set__gl (useGL p vals (_gl s)) s) -> wp (useProgram p vals) Q s.
Proof. intros H HQ. eapply wp_of_eq; [apply useProgram_run, H | exact HQ]. Qed.

Lemma wp__blit_texture f Q s :
  Q tt (set__gl (blitGL (viewportOf f) (Some (TextureFBO.texture f)) (_gl s)) s)
  -> wp (_blit (Some f)) Q s.
Proof. exact (fun H => H). Qed.

Lemma wp__blit_canvas Q s :
  Q tt (set__gl
          (blitGL (left (config s), bottom (config s),
                   numberOf (_width s), numberOf (_height s))
                  None (_gl s)) s)
  -> wp (_blit None) Q s.
Proof. exact (fun H => H). Qed.

Lemma wp_swapBuffer b d Q s :
  getBuffer b s = Some d ->
  Q tt (setBuffer b (Some (DoubleTextureFBO.swap d)) s) ->
  wp (swapBuffer b) Q s.
Proof.
  intros H HQ. unfold swapBuffer. apply wp_bind.
  eapply wp_the; [exact H|]. apply wp_modify. exact HQ.
Qed.

Lemma wp_updateSolid ref f o Q s :
  heap s !! ref = Some o ->
  Q tt (set_heap (<[ref := f o]> (heap s)) s) ->
  wp (updateSolid ref f) Q s.
Proof.
  intros H HQ. unfold updateSolid. apply wp_bind.
  eapply wp_the; [exact H|]. apply wp_modify. exact HQ.
Qed.

Lemma wp_throw_never {A} e (Q : A -> World -> Prop) s :
  False -> wp (throw e) Q s.
Proof. tauto. Qed.

Lemma compiled_lookup :
  Programs.compiled !! "advection"%string
    = Some (Programs.linked "advection" Programs.advectionUniforms) /\
  Programs.compiled !! "curl"%string
    = Some (Programs.linked "curl" Programs.curlUniforms) /\
  Programs.compiled !! "divergence"%string
    = Some (Programs.linked "divergence" Programs.divergenceUniforms) /\
  Programs.compiled !! "ellipsis"%string
    = Some (Programs.linked "ellipsis" Programs.ellipsisUniforms) /\
  Programs.compiled !! "gradientSubtract"%string
    = Some (Programs.linked "gradientSubtract"
              Programs.gradientSubtractUniforms) /\
  Programs.compiled !! "pressure"%string
    = Some (Programs.linked "pressure" Programs.pressureUniforms) /\
  Programs.compiled !! "transform"%string
    = Some (Programs.linked "transform" Programs.transformUniforms) /\
  Programs.compiled !! "splat"%string
    = Some (Programs.linked "splat" Programs.splatUniforms) /\
  Programs.compiled !! "vorticity"%string
    = Some (Programs.linked "vorticity" Programs.vorticityUniforms).
Proof. repeat split; vm_compute; reflexivity. Qed.

Lemma programs_lookup s n p :
  _programs s = Programs.compiled -> Programs.compiled !! n = Some p ->
  _programs s !! n = Some p.
Proof. intros ->. auto. Qed.

Ltac solve_program :=
  eapply programs_lookup; [ eassumption | apply compiled_lookup ].

Ltac solve_prop :=
  cbn [getBuffer];
  first [ reflexivity | eassumption | apply lookup_insert_eq ].

Ltac wp_step :=
  lazymatch goal with
  | |- wp (bind _ _) _ _ => apply wp_bind
  | |- wp (programNamed _) _ _ => eapply wp_programNamed; [ solve_program | ]
  | |- wp (the _ _) _ _ => eapply wp_the; [ solve_prop | ]
  | |- wp (liftGL _) _ _ => apply wp_liftGL
  | |- wp get _ _ => apply wp_get
  | |- wp (ret _) _ _ => apply wp_ret
  | |- wp (modify _) _ _ => apply wp_modify
  | |- wp (useProgram _ _) _ _ => apply wp_useProgram; [ reflexivity | ]
  | |- wp (_blit (Some _)) _ _ => apply wp__blit_texture
  | |- wp (_blit None) _ _ => apply wp__blit_canvas
  | |- wp (swapBuffer _) _ _ => eapply wp_swapBuffer; [ solve_prop | ]
  | |- wp (updateSolid _ _) _ _ => eapply wp_updateSolid; [ solve_prop | ]
  end.

(** Bringing the state reached back to one constructor application. *)
Ltac norm_state :=
  cbn [config _gl _programs _width _height _aspectRatio _simScale _dyeScale
       _dye _velocity _pressure _divergence _curl _now solids heap
       updateTime stepCalls
       set_config set__gl set__programs set__width set__height
       set__aspectRatio set__simScale set__dyeScale set__dye set__velocity
       set__pressure set__divergence set__curl set__now set_solids set_heap
       set_updateTime set_stepCalls setBuffer getBuffer].

Ltac wp_go := repeat (wp_step; norm_state).

(** *** The context under [useProgram] and [_blit] *)

Lemma useGL_fields p vals g :
  program (useGL p vals g) = Some (name p) /\
  units (useGL p vals g) = units g /\
  drawLog (useGL p vals g) = drawLog g /\
  textures (useGL p vals g) = textures g /\
  blend (useGL p vals g) = blend g /\
  canvas (useGL p vals g) = canvas g /\
  nextName (useGL p vals g) = nextName g.
Proof.
  unfold useGL.
  assert (H : forall g0,
             program (fold_left
                        (fun g nv => setUniform (name p) (fst nv) (snd nv) g)
                        vals g0) = program g0 /\
             units (fold_left
                      (fun g nv => setUniform (name p) (fst nv) (snd nv) g)
                      vals g0) = units g0 /\
             drawLog (fold_left
                        (fun g nv => setUniform (name p) (fst nv) (snd nv) g)
                        vals g0) = drawLog g0 /\
             textures (fold_left
                         (fun g nv => setUniform (name p) (fst nv) (snd nv) g)
                         vals g0) = textures g0 /\
             blend (fold_left
                      (fun g nv => setUniform (name p) (fst nv) (snd nv) g)
                      vals g0) = blend g0 /\
             canvas (fold_left
                       (fun g nv => setUniform (name p) (fst nv) (snd nv) g)
                       vals g0) = canvas g0 /\
             nextName (fold_left
                         (fun g nv => setUniform (name p) (fst nv) (snd nv) g)
                         vals g0) = nextName g0).
  { induction vals as [|nv vals IH]; intros g0; simpl.
    - repeat split.
    - destruct (IH (setUniform (name p) (fst nv) (snd nv) g0))
        as (H1 & H2 & H3 & H4 & H5 & H6 & H7).
      rewrite H1, H2, H3, H4, H5, H6, H7. repeat split. }
  apply (H (set_program (Some (name p)) g)).
Qed.

Lemma drawLog_drawElements g p :
  program g = Some p ->
  drawLog (drawElements g)
  = drawLog g
    ++ [mkDraw p (uniformsOf g p) (units g) (framebuffer g) (viewport g)].
Proof.
  intros H. unfold drawElements. rewrite H.
  destruct (framebuffer g) as [t|]; [destruct (textures g !! t)|];
    reflexivity.
Qed.

Lemma drawLog_blitGL vp t g p :
  program g = Some p ->
  drawLog (blitGL vp t g)
  = drawLog g ++ [mkDraw p (uniformsOf g p) (units g) t vp].
Proof.
  intros H. unfold blitGL. rewrite (drawLog_drawElements _ p) by exact H.
  reflexivity.
Qed.

Lemma drawLog_blit_use vp t p vals g :
  drawLog (blitGL vp t (useGL p vals g))
  = drawLog g
    ++ [mkDraw (name p) (uniformsOf (useGL p vals g) (name p)) (units g) t vp].
Proof.
  destruct (useGL_fields p vals g) as (H1 & H2 & H3 & _).
  rewrite (drawLog_blitGL _ _ _ (name p)) by exact H1.
  rewrite H2, H3. reflexivity.
Qed.

Lemma textures_blitGL vp t g p img :
  program g = Some p -> textures g !! t = Some img ->
  textures (blitGL vp (Some t) g)
  = <[t := rasterize (blend g) vp
             (fragmentOf p (uniformsOf g p) (unitSampler g)) img]>
      (textures g).
Proof.
  intros Hp Ht. unfold blitGL, drawElements.
  cbn [program set_viewport set_framebuffer framebuffer textures].
  rewrite Hp. cbn [framebuffer textures set_viewport set_framebuffer].
  rewrite Ht. reflexivity.
Qed.

Lemma canvas_blitGL vp g p :
  program g = Some p ->
  canvas (blitGL vp None g)
  = rasterize (blend g) vp (fragmentOf p (uniformsOf g p) (unitSampler g))
              (canvas g) /\
  textures (blitGL vp None g) = textures g.
Proof.
  intros Hp. unfold blitGL, drawElements.
  cbn [program set_viewport set_framebuffer framebuffer textures].
  rewrite Hp. split; reflexivity.
Qed.

Lemma samplerOf_bound us ts u t img :
  us !! u = Some t -> ts !! t = Some img ->
  samplerOf us ts u = texture2D img.
Proof. intros Hu Ht. unfold samplerOf. rewrite Hu, Ht. reflexivity. Qed.

Lemma loopCount_spec x i : INR i < x <-> (i < loopCount x)%nat.
Proof.
  unfold loopCount. destruct (base_Int_part (- x)) as [B1 B2].
  rewrite INR_IZR_INZ. split; intros H.
  - assert (K : IZR (Z.of_nat i) < IZR (- Int_part (- x)))
      by (rewrite opp_IZR; lra).
    apply lt_IZR in K. lia.
  - assert (K : (Z.of_nat i + 1 <= - Int_part (- x))%Z) by lia.
    apply IZR_le in K. rewrite plus_IZR, opp_IZR in K. lra.
Qed.

Lemma loopCount_INR k : loopCount (INR k) = k.
Proof.
  destruct (Nat.lt_trichotomy (loopCount (INR k)) k) as [H|[H|H]].
  - apply lt_INR, loopCount_spec in H. lia.
  - exact H.
  - apply loopCount_spec in H. lra.
Qed.

#[local] Instance logAdds_preorder P : PreOrder (logAdds P).
Proof.
  split.
  - intros s. exists []. split; [|constructor].
    unfold drawsBetween. now rewrite app_nil_r.
  - intros s1 s2 s3 (n1 & H1 & F1) (n2 & H2 & F2). exists (n1 ++ n2).
    split; [|apply Forall_app; auto].
    unfold drawsBetween in *. rewrite H2, H1. now rewrite app_assoc.
Qed.

#[local] Instance quietRel_preorder : PreOrder quietRel.
Proof.
  split.
  - intros s. repeat split. reflexivity.
  - intros s1 s2 s3 (L1 & A1 & B1 & C1 & D1) (L2 & A2 & B2 & C2 & D2).
    split; [etransitivity; eauto|]. repeat split; congruence.
Qed.

Lemma quiet_by_wp (c : M World unit) :
  (forall s, Ready s -> wp c (fun _ s' => Ready s' /\ quietRel s s') s) ->
  quiet c.
Proof.
  intros H s HR. destruct (wp_run _ _ _ (H s HR)) as ([] & s' & E & HQ).
  exists s'. split; auto.
Qed.

Lemma wp_quiet (c : M World unit) Q s :
  quiet c -> Ready s ->
  (forall s', Ready s' -> quietRel s s' -> Q tt s') -> wp c Q s.
Proof.
  intros Hc HR HQ. destruct (Hc s HR) as (s' & E & HR' & Hq).
  eapply wp_of_eq; eauto.
Qed.

Lemma quiet_seq (c1 c2 : M World unit) :
  quiet c1 -> quiet c2 -> quiet (c1 ;;; c2).
Proof.
  intros H1 H2 s HR. destruct (H1 s HR) as (s1 & E1 & HR1 & Q1).
  destruct (H2 s1 HR1) as (s2 & E2 & HR2 & Q2).
  exists s2. unfold bind. rewrite E1. split; [exact E2|].
  split; [exact HR2|]. etransitivity; eauto.
Qed.

Lemma one_draw_adds s s' g p vals vp t :
  _gl s' = blitGL vp t (useGL p vals g) ->
  name p <> "pressure"%string ->
  drawLog g = drawLog (_gl s) ->
  logAdds notPressure s s'.
Proof.
  intros Hs Hn Hg. eexists. split.
  - unfold drawsBetween. rewrite Hs, drawLog_blit_use, Hg. reflexivity.
  - constructor; [exact Hn | constructor].
Qed.

Ltac ready_intro HR :=
  let Hp := fresh "Hprog" in
  let H := fresh "HR" in
  pose proof HR as H; unfold Ready, is_Some in H;
  destruct H as (Hp & [? ?] & [? ?] & [? ?] & [? ?] & [? ?] & ?).

Ltac ready_solve := unfold Ready; repeat split; cbn; eauto.

Ltac quiet_finish :=
  split;
  [ ready_solve
  | split;
    [ eapply one_draw_adds;
      [ reflexivity | cbn; discriminate | reflexivity ]
    | repeat split; reflexivity ] ].

Ltac quiet_pass :=
  apply quiet_by_wp; intros ? ?;
  match goal with H : Ready _ |- _ => ready_intro H end;
  wp_go; quiet_finish.

Lemma curlPass_quiet : quiet curlPass.
Proof. unfold curlPass. quiet_pass. Qed.

Lemma vorticityPass_quiet dt : quiet (vorticityPass dt).
Proof. unfold vorticityPass. quiet_pass. Qed.

Lemma divergencePass_quiet : quiet divergencePass.
Proof. unfold divergencePass. quiet_pass. Qed.

Lemma gradientSubtractPass_quiet : quiet gradientSubtractPass.
Proof. unfold gradientSubtractPass. quiet_pass. Qed.

Lemma advectVelocity_quiet dt : quiet (advectVelocity dt).
Proof. unfold advectVelocity. quiet_pass. Qed.

Lemma advectDye_quiet dt : quiet (advectDye dt).
Proof. unfold advectDye. quiet_pass. Qed.

Lemma _drawSolid_quiet solid r g b :
  quiet (_drawSolid solid Velocity [r; g; b]).
Proof. unfold _drawSolid. quiet_pass. Qed.


Lemma dissipatePressure_spec dt s pr :
  Ready s -> _pressure s = Some pr ->
  exists s',
    dissipatePressure dt s = Ok tt s' /\ Ready s' /\
    logAdds notPressure s s' /\ config s' = config s /\
    solids s' = solids s /\ _divergence s' = _divergence s /\
    _pressure s'
    = Some (if truthy (pressureDissipation (config s))
            then DoubleTextureFBO.swap pr else pr).
Proof.
  intros HR Hpr.
  assert (W : wp (dissipatePressure dt)
                (fun _ s' =>
                   Ready s' /\ logAdds notPressure s s' /\
                   config s' = config s /\ solids s' = solids s /\
                   _divergence s' = _divergence s /\
                   _pressure s'
                   = Some (if truthy (pressureDissipation (config s))
                           then DoubleTextureFBO.swap pr else pr)) s).
  { ready_intro HR. unfold dissipatePressure. apply wp_bind, wp_get.
    destruct (truthy (pressureDissipation (config s))).
    - wp_go. split; [ready_solve|]. split.
      + eapply one_draw_adds; [reflexivity | cbn; discriminate | reflexivity].
      + repeat split. cbn. congruence.
    - apply wp_ret. split; [exact HR|]. split; [reflexivity|].
      repeat split. exact Hpr. }
  destruct (wp_run _ _ _ W) as ([] & s' & E & HQ). exists s'. split; auto.
Qed.

(** *** The sampling loop of the solid coupling ends *)

Lemma pressureSum_returns fuel n c r size p dx dy :
  (n <= 20)%nat -> (20 - n < fuel)%nat ->
  exists res,
    pressureSum fuel (INR n * (PI * 2 / 20)) (PI * 2 / 20) c r size p dx dy
    = Some res.
Proof.
  revert n dx dy. induction fuel as [|fuel IH]; intros n dx dy Hn Hf.
  - lia.
  - simpl. destruct (Rlt_dec (INR n * (PI * 2 / 20)) (PI * 2)) as [Hlt|Hge].
    + assert (Hn' : n <> 20%nat).
      { intros ->. replace (INR 20) with 20 in Hlt by (simpl; lra).
        pose proof PI_RGT_0. lra. }
      replace (INR n * (PI * 2 / 20) + PI * 2 / 20)
        with (INR (S n) * (PI * 2 / 20)) by (rewrite S_INR; field).
      apply IH; lia.
    + eexists. reflexivity.
Qed.

Lemma pressureSum_from_zero fuel c r size p :
  (20 < fuel)%nat ->
  exists res, pressureSum fuel 0 (PI * 2 / 20) c r size p 0 0 = Some res.
Proof.
  intros H.
  destruct (pressureSum_returns fuel 0 c r size p 0 0) as [res E]; try lia.
  exists res. rewrite <- E. f_equal. simpl. ring.
Qed.

Lemma updateOneSolid_quiet fuel dt ref s :
  (20 < fuel)%nat -> Ready s -> In ref (solids s) ->
  exists s', updateOneSolid fuel dt ref s = Ok tt s' /\ Ready s' /\
             quietRel s s'.
Proof.
  intros Hfuel HR Hin.
  assert (W : wp (updateOneSolid fuel dt ref)
                (fun _ s' => Ready s' /\ quietRel s s') s).
  { ready_intro HR.
    match goal with
    | H : forall ref, In ref (solids s) -> _ |- _ =>
        destruct (H ref Hin) as [o Ho]
    end.
    unfold updateOneSolid. wp_go. cbv zeta.
    match goal with
    | |- context [pressureSum fuel 0 (PI * 2 / 20) ?c ?r ?n ?p 0 0] =>
        destruct (pressureSum_from_zero fuel c r n p Hfuel) as [[dx dy] E];
        rewrite E
    end.
    wp_go.
    eapply wp_quiet; [apply _drawSolid_quiet | | ].
    - unfold Ready. norm_state. repeat split; eauto.
      intros r Hr. rewrite lookup_insert.
      destruct (decide (ref = r)); unfold is_Some; eauto.
    - intros s' HR' Hq. split; [exact HR'|].
      etransitivity; [|exact Hq].
      split; [|repeat split]. exists []. split; [|constructor].
      unfold drawsBetween. norm_state. cbn. now rewrite app_nil_r. }
  destruct (wp_run _ _ _ W) as ([] & s' & E & HQ). exists s'. split; auto.
Qed.

Lemma solids_loop_quiet fuel dt l s :
  (20 < fuel)%nat -> Ready s -> incl l (solids s) ->
  exists s', forOf l (updateOneSolid fuel dt) s = Ok tt s' /\ Ready s' /\
             quietRel s s'.
Proof.
  intros Hfuel. revert s. induction l as [|ref l IH]; intros s HR Hl.
  - exists s. split; [reflexivity|]. split; [exact HR | reflexivity].
  - destruct (updateOneSolid_quiet fuel dt ref s Hfuel HR)
      as (s1 & E1 & HR1 & Q1).
    { apply Hl. now left. }
    destruct (IH s1 HR1) as (s2 & E2 & HR2 & Q2).
    { destruct Q1 as (_ & _ & -> & _). intros x Hx. apply Hl. now right. }
    exists s2. simpl. unfold bind. rewrite E1. split; [exact E2|].
    split; [exact HR2|]. etransitivity; eauto.
Qed.

Lemma _updateSolids_quiet fuel dt :
  (20 < fuel)%nat -> quiet (_updateSolids fuel dt).
Proof.
  intros Hfuel s HR. unfold _updateSolids. unfold bind at 1, get.
  apply solids_loop_quiet; auto. apply incl_refl.
Qed.


(** *** The pressure loop *)

Lemma drawElements_fields g :
  program (drawElements g) = program g /\
  uniforms (drawElements g) = uniforms g /\
  units (drawElements g) = units g /\
  blend (drawElements g) = blend g.
Proof.
  unfold drawElements. destruct (program g) as [p|] eqn:E.
  - destruct (framebuffer g) as [t|]; [destruct (textures g !! t)|];
      cbn; rewrite ?E; repeat split.
  - rewrite E. repeat split.
Qed.

Lemma pressure_uPressure :
  puniforms (Programs.linked "pressure" Programs.pressureUniforms)
    !! "uPressure"%string = Some ("uniform1i"%string, 1%nat).
Proof. vm_compute. reflexivity. Qed.

Lemma jacobiGL_spec d pr g :
  solving d g ->
  exists c,
    drawLog (jacobiGL pr g) = drawLog g ++ [c] /\ isJacobi d pr c /\
    solving d (jacobiGL pr g).
Proof.
  intros (Hp & Hu & Hd).
  set (g1 := uniform1i (Programs.linked "pressure" Programs.pressureUniforms)
               "uPressure" 1 (attach (DoubleTextureFBO.read pr) 1 g)).
  assert (E1 : g1 = setUniform "pressure" "uPressure" (AUnit 1)
                      (attach (DoubleTextureFBO.read pr) 1 g)).
  { unfold g1, uniform1i. cbn [program attach set_units set_activeUnit].
    rewrite Hp. reflexivity. }
  assert (P1 : program g1 = Some "pressure"%string).
  { rewrite E1. exact Hp. }
  assert (U1 : uniformsOf g1 "pressure"
               = <["uPressure"%string := AUnit 1]> (uniformsOf g "pressure")).
  { rewrite E1. unfold uniformsOf at 1, setUniform.
    cbn [uniforms set_uniforms]. rewrite lookup_insert_eq. reflexivity. }
  assert (N1 : units g1
               = <[1%nat := TextureFBO.texture (DoubleTextureFBO.read pr)]>
                   (units g)).
  { rewrite E1. reflexivity. }
  assert (L1 : drawLog g1 = drawLog g).
  { rewrite E1. reflexivity. }
  unfold jacobiGL. fold g1.
  eexists. split; [|split].
  - rewrite (drawLog_blitGL _ _ _ "pressure") by exact P1.
    rewrite L1. reflexivity.
  - unfold isJacobi. cbn [dcProgram dcUniforms dcUnits dcTarget].
    rewrite U1, N1. repeat split.
    + rewrite lookup_insert_ne by discriminate. exact Hu.
    + rewrite lookup_insert_ne by discriminate. exact Hd.
    + apply lookup_insert_eq.
    + apply lookup_insert_eq.
  - unfold solving, blitGL.
    destruct (drawElements_fields
                (set_viewport (viewportOf (DoubleTextureFBO.write pr))
                   (set_framebuffer
                      (Some (TextureFBO.texture (DoubleTextureFBO.write pr)))
                      g1))) as (A & B & C & _).
    unfold uniformsOf. rewrite A, B, C.
    cbn [program uniforms units set_viewport set_framebuffer].
    split; [exact P1|]. fold (uniformsOf g1 "pressure"). rewrite U1, N1.
    split.
    + rewrite lookup_insert_ne by discriminate. exact Hu.
    + rewrite lookup_insert_ne by discriminate. exact Hd.
Qed.

Lemma pressureIteration_run i s pr :
  _programs s = Programs.compiled -> _pressure s = Some pr ->
  pressureIteration i s
  = Ok tt (set__pressure (Some (DoubleTextureFBO.swap pr))
             (set__gl (jacobiGL pr (_gl s)) s)).
Proof.
  intros Hp Hpr. apply wp_run_eq. unfold pressureIteration.
  apply wp_bind. eapply wp_programNamed; [solve_program|].
  rewrite pressure_uPressure. wp_go. split; reflexivity.
Qed.

Lemma pressure_loop d k fuel :
  forall i s pr,
    Ready s -> _pressure s = Some pr -> solving d (_gl s) ->
    loopCount (pressureIterations (config s)) = k ->
    (i <= k)%nat -> (k - i < fuel)%nat ->
    exists s' calls,
      forLt fuel i (fun s => pressureIterations (config s))
            pressureIteration s = Ok tt s' /\
      Ready s' /\ config s' = config s /\ solids s' = solids s /\
      _divergence s' = _divergence s /\
      _pressure s' = Some (Nat.iter (k - i) DoubleTextureFBO.swap pr) /\
      drawsBetween s s' calls /\ length calls = (k - i)%nat /\
      (forall j c, nth_error calls j = Some c ->
                   isJacobi d (Nat.iter j DoubleTextureFBO.swap pr) c) /\
      solving d (_gl s').
Proof.
  induction fuel as [|fuel IH]; intros i s pr HR Hpr Hs Hk Hi Hf; [lia|].
  simpl.
  destruct (Rlt_dec (INR i) (pressureIterations (config s))) as [Hlt|Hge].
  - apply loopCount_spec in Hlt. rewrite Hk in Hlt.
    destruct (jacobiGL_spec d pr (_gl s) Hs) as (c & Lc & Jc & Sc).
    assert (Hp : _programs s = Programs.compiled) by apply HR.
    unfold bind. rewrite (pressureIteration_run i s pr Hp Hpr).
    set (s1 := set__pressure (Some (DoubleTextureFBO.swap pr))
                 (set__gl (jacobiGL pr (_gl s)) s)).
    destruct (IH (S i) s1 (DoubleTextureFBO.swap pr))
      as (s' & calls & E & HR' & C1 & C2 & C3 & C4 & C5 & C6 & C7 & C8);
      try (reflexivity || assumption || lia).
    { ready_intro HR. unfold s1. ready_solve. }
    exists s', (c :: calls). split; [exact E|]. split; [exact HR'|].
    split; [exact C1|]. split; [exact C2|]. split; [exact C3|].
    split; [|split; [|split; [|split]]].
    + rewrite C4. replace (k - i)%nat with (S (k - S i)) by lia.
      now rewrite Nat.iter_succ_r.
    + unfold drawsBetween in *. rewrite C5. unfold s1. norm_state.
      rewrite Lc, <- app_assoc. reflexivity.
    + simpl. lia.
    + intros jj cc Hjj. destruct jj as [|jj]; simpl in Hjj.
      * injection Hjj as <-. exact Jc.
      * rewrite Nat.iter_succ_r. apply C7. exact Hjj.
    + exact C8.
  - assert (i = k) as ->.
    { destruct (Nat.eq_dec i k) as [e|n]; [exact e|]. exfalso. apply Hge.
      apply loopCount_spec. rewrite Hk. lia. }
    exists s, []. replace (k - k)%nat with O by lia.
    split; [reflexivity|]. split; [exact HR|].
    split; [reflexivity|]. split; [reflexivity|]. split; [reflexivity|].
    split; [exact Hpr|]. split; [|split; [reflexivity|split; [|exact Hs]]].
    + unfold drawsBetween. now rewrite app_nil_r.
    + intros jj cc Hjj. destruct jj; discriminate.
Qed.


Lemma uniformsOf_setUniform prog u v g :
  uniformsOf (setUniform prog u v g) prog = <[u := v]> (uniformsOf g prog).
Proof.
  unfold uniformsOf at 1, setUniform. cbn [uniforms set_uniforms].
  rewrite lookup_insert_eq. reflexivity.
Qed.

Lemma pressureSolve_count fuel k s pr d :
  Ready s -> _pressure s = Some pr -> _divergence s = Some d ->
  loopCount (pressureIterations (config s)) = k -> (k < fuel)%nat ->
  exists s' calls,
    pressureSolve fuel s = Ok tt s' /\
    Ready s' /\ config s' = config s /\ solids s' = solids s /\
    _divergence s' = _divergence s /\
    _pressure s' = Some (Nat.iter k DoubleTextureFBO.swap pr) /\
    drawsBetween s s' calls /\ length calls = k /\
    (forall j c, nth_error calls j = Some c ->
                 isJacobi d (Nat.iter j DoubleTextureFBO.swap pr) c).
Proof.
  intros HR Hpr Hd Hk Hf.
  assert (W : wp (pressureSolve fuel)
                (fun _ s' =>
                   Ready s' /\ config s' = config s /\
                   solids s' = solids s /\
                   _divergence s' = _divergence s /\
                   _pressure s'
                   = Some (Nat.iter k DoubleTextureFBO.swap pr) /\
                   exists calls,
                     drawsBetween s s' calls /\ length calls = k /\
                     (forall j c, nth_error calls j = Some c ->
                        isJacobi d (Nat.iter j DoubleTextureFBO.swap pr) c))
                s).
  { ready_intro HR.
    repeat match goal with
           | H : _divergence s = Some ?x |- _ =>
               lazymatch x with d => fail | _ => idtac end;
               assert (x = d) by congruence; subst x
           end.
    unfold pressureSolve. wp_go.
    match goal with
    | |- wp _ _ ?s1 =>
        destruct (pressure_loop d k fuel 0 s1 pr)
          as (s' & calls & E & HR' & C1 & C2 & C3 & C4 & C5 & C6 & C7 & _);
          try (assumption || lia)
    end.
    - unfold solving. norm_state.
      destruct (useGL_fields
                  (Programs.linked "pressure" Programs.pressureUniforms)
                  [("uDivergence"%string, AUnit 0);
                   ("texelSize"%string,
                    texelArg (DoubleTextureFBO.texelSize x0))]
                  (attach d 0 (_gl s))) as (A & B & _).
      split; [exact A|]. split.
      + unfold useGL. cbn [fold_left fst snd].
        change (name (Programs.linked "pressure" Programs.pressureUniforms))
          with "pressure"%string.
        rewrite !uniformsOf_setUniform.
        rewrite lookup_insert_ne by discriminate. apply lookup_insert_eq.
      + rewrite B. apply lookup_insert_eq.
    - eapply wp_of_eq; [exact E|]. rewrite Nat.sub_0_r in *.
      split; [exact HR'|]. split; [exact C1|]. split; [exact C2|].
      split; [exact C3|]. split; [exact C4|].
      exists calls. split; [exact C5|]. split; [exact C6 | exact C7]. }
  destruct (wp_run _ _ _ W)
    as ([] & s' & E & HR' & C1 & C2 & C3 & C4 & calls & C5 & C6 & C7).
  exists s', calls. split; [exact E|]. split; [exact HR'|].
  split; [exact C1|]. split; [exact C2|]. split; [exact C3|].
  split; [exact C4|]. split; [exact C5|]. split; [exact C6 | exact C7].
Qed.

Lemma pressureSolve_spec fuel k s pr d :
  Ready s -> _pressure s = Some pr -> _divergence s = Some d ->
  pressureIterations (config s) = INR k -> (k < fuel)%nat ->
  exists s' calls,
    pressureSolve fuel s = Ok tt s' /\
    Ready s' /\ config s' = config s /\ solids s' = solids s /\
    _divergence s' = _divergence s /\
    _pressure s' = Some (Nat.iter k DoubleTextureFBO.swap pr) /\
    drawsBetween s s' calls /\ length calls = k /\
    (forall j c, nth_error calls j = Some c ->
                 isJacobi d (Nat.iter j DoubleTextureFBO.swap pr) c).
Proof.
  intros HR Hpr Hd Hk Hf.
  apply (pressureSolve_count fuel k s pr d HR Hpr Hd); [|exact Hf].
  rewrite Hk. apply loopCount_INR.
Qed.

Lemma pressureCalls_app l1 l2 :
  pressureCalls (l1 ++ l2) = pressureCalls l1 ++ pressureCalls l2.
Proof. unfold pressureCalls. apply List.filter_app. Qed.

Lemma pressureCalls_none l : Forall notPressure l -> pressureCalls l = [].
Proof.
  unfold pressureCalls. induction 1 as [|c l Hc _ IH]; simpl; auto.
  destruct (String.eqb_spec (dcProgram c) "pressure"); [contradiction|auto].
Qed.

Lemma pressureCalls_all l :
  Forall (fun c => dcProgram c = "pressure"%string) l -> pressureCalls l = l.
Proof.
  unfold pressureCalls. induction 1 as [|c l Hc _ IH]; simpl; auto.
  rewrite Hc. simpl. congruence.
Qed.


Lemma isJacobi_calls d pr calls :
  (forall j c, nth_error calls j = Some c ->
               isJacobi d (Nat.iter j DoubleTextureFBO.swap pr) c) ->
  Forall (fun c => dcProgram c = "pressure"%string) calls.
Proof.
  intros H. apply List.Forall_forall. intros c Hc.
  destruct (List.In_nth_error _ _ Hc) as [j Hj]. apply (H j c Hj).
Qed.

Ltac wp_open :=
  try lazymatch goal with |- wp (bind _ _) _ _ => apply wp_bind end.

Ltac wp_quiet_step lem s HR Q :=
  wp_open; eapply wp_quiet; [ apply lem | eassumption | intros s HR Q ].

Lemma step_pressure_calls fuel dt k s pr d :
  Ready s -> _pressure s = Some pr -> _divergence s = Some d ->
  loopCount (pressureIterations (config s)) = k ->
  (k < fuel)%nat -> (20 < fuel)%nat ->
  let pr0 := if truthy (pressureDissipation (config s))
             then DoubleTextureFBO.swap pr else pr in
  exists s' new,
    step fuel dt s = Ok tt s' /\ drawsBetween s s' new /\
    length (pressureCalls new) = k /\
    (forall j c, nth_error (pressureCalls new) j = Some c ->
                 isJacobi d (Nat.iter j DoubleTextureFBO.swap pr0) c) /\
    _pressure s' = Some (Nat.iter k DoubleTextureFBO.swap pr0).
Proof.
  intros HR Hpr Hd Hk Hf Hf20 pr0.
  assert (W : wp (step fuel dt)
                (fun _ s' =>
                   exists new,
                     drawsBetween s s' new /\
                     length (pressureCalls new) = k /\
                     (forall j c, nth_error (pressureCalls new) j = Some c ->
                        isJacobi d (Nat.iter j DoubleTextureFBO.swap pr0) c) /\
                     _pressure s'
                     = Some (Nat.iter k DoubleTextureFBO.swap pr0)) s).
  { unfold step. wp_go.
    match goal with
    | |- wp _ _ ?st =>
        assert (HR0 : Ready st) by exact HR;
        assert (L0 : drawLog (_gl st) = drawLog (_gl s)) by reflexivity;
        assert (C0 : config st = config s) by reflexivity;
        assert (P0 : _pressure st = Some pr) by exact Hpr;
        assert (D0 : _divergence st = Some d) by exact Hd;
        set (s0 := st) in *; clearbody s0
    end.
    wp_quiet_step curlPass_quiet s1 HR1 Q1.
    wp_quiet_step vorticityPass_quiet s2 HR2 Q2.
    wp_quiet_step divergencePass_quiet s3 HR3 Q3.
    assert (Q03 : quietRel s0 s3)
      by (etransitivity; [etransitivity|]; eassumption).
    destruct Q03 as ((n3 & L3 & F3) & C3 & _ & D3 & P3).
    rewrite P0 in P3. rewrite D0 in D3.
    destruct (dissipatePressure_spec dt s3 pr HR3 P3)
      as (s4 & E4 & HR4 & (n4 & L4 & F4) & C4 & _ & D4 & P4).
    wp_open. eapply wp_of_eq; [exact E4|].
    rewrite C3, C0 in P4. fold pr0 in P4.
    destruct (pressureSolve_count fuel k s4 pr0 d HR4 P4)
      as (s5 & calls & E5 & HR5 & C5 & _ & D5 & P5 & L5 & N5 & J5);
      try (congruence || lia).
    wp_open. eapply wp_of_eq; [exact E5|].
    wp_quiet_step gradientSubtractPass_quiet s6 HR6 Q6.
    wp_quiet_step advectVelocity_quiet s7 HR7 Q7.
    wp_quiet_step advectDye_quiet s8 HR8 Q8.
    eapply wp_quiet; [apply _updateSolids_quiet; exact Hf20 | eassumption |].
    intros s9 HR9 Q9.
    assert (Q59 : quietRel s5 s9)
      by (etransitivity; [etransitivity; [etransitivity|]|]; eassumption).
    destruct Q59 as ((n9 & L9 & F9) & _ & _ & _ & P9).
    exists ((n3 ++ n4) ++ calls ++ n9).
    split; [|split; [|split]].
    - unfold drawsBetween in *. rewrite L9, L5, L4, L3, L0.
      rewrite <- !app_assoc. reflexivity.
    - rewrite !pressureCalls_app.
      rewrite (pressureCalls_none n3) by exact F3.
      rewrite (pressureCalls_none n4) by exact F4.
      rewrite (pressureCalls_none n9) by exact F9.
      rewrite (pressureCalls_all calls)
        by exact (isJacobi_calls d pr0 calls J5).
      simpl. rewrite app_nil_r. exact N5.
    - rewrite !pressureCalls_app.
      rewrite (pressureCalls_none n3) by exact F3.
      rewrite (pressureCalls_none n4) by exact F4.
      rewrite (pressureCalls_none n9) by exact F9.
      rewrite (pressureCalls_all calls)
        by exact (isJacobi_calls d pr0 calls J5).
      simpl. rewrite app_nil_r. exact J5.
    - rewrite P9. exact P5. }
  destruct (wp_run _ _ _ W) as ([] & s' & E & new & A & B & C & D).
  exists s', new. split; [exact E|]. split; [exact A|].
  split; [exact B|]. split; [exact C | exact D].
Qed.

Lemma swap_swap p : DoubleTextureFBO.swap (DoubleTextureFBO.swap p) = p.
Proof. destruct p. reflexivity. Qed.

Lemma iter_swap j p :
  Nat.iter j DoubleTextureFBO.swap p
  = if Nat.odd j then DoubleTextureFBO.swap p else p.
Proof.
  induction j as [|j IH]; [reflexivity|].
  rewrite Nat.iter_succ, IH, Nat.odd_succ, <- Nat.negb_odd.
  destruct (Nat.odd j); cbn [negb]; [apply swap_swap | reflexivity].
Qed.

(** What one pass of the pressure loop leaves in the textures. *)
Lemma pressureIteration_textures i s p0 dst :
  _programs s = Programs.compiled -> _pressure s = Some p0 ->
  program (_gl s) = Some "pressure"%string ->
  textures (_gl s) !! TextureFBO.texture (DoubleTextureFBO.fbo2 p0)
  = Some dst ->
  exists s1,
    pressureIteration i s = Ok tt s1 /\
    _pressure s1
    = Some (DoubleTextureFBO.mk (DoubleTextureFBO.w p0)
              (DoubleTextureFBO.h p0) (DoubleTextureFBO.texelSize p0)
              (DoubleTextureFBO.fbo2 p0) (DoubleTextureFBO.fbo1 p0)) /\
    textures (_gl s1)
    = <[TextureFBO.texture (DoubleTextureFBO.fbo2 p0) :=
          rasterize (blend (_gl s))
            (0, 0, TextureFBO.width (DoubleTextureFBO.fbo2 p0),
             TextureFBO.height (DoubleTextureFBO.fbo2 p0))
            (externalShader "pressure"
               (<["uPressure"%string := AUnit 1]>
                  (uniformsOf (_gl s) "pressure"))
               (samplerOf
                  (<[1%nat := TextureFBO.texture
                                (DoubleTextureFBO.fbo1 p0)]>
                     (units (_gl s)))
                  (textures (_gl s))))
            dst]>
        (textures (_gl s)).
Proof.
  intros Hp Hpr Hprog Hdst.
  rewrite (pressureIteration_run i s p0 Hp Hpr).
  eexists. split; [reflexivity|]. split; [reflexivity|].
  cbn [_gl set__gl set__pressure]. unfold jacobiGL.
  set (g1 := uniform1i (Programs.linked "pressure" Programs.pressureUniforms)
               "uPressure" 1
               (attach (DoubleTextureFBO.read p0) 1 (_gl s))).
  assert (E1 : g1 = setUniform "pressure" "uPressure" (AUnit 1)
                      (attach (DoubleTextureFBO.read p0) 1 (_gl s))).
  { unfold g1, uniform1i. cbn [program attach set_units set_activeUnit].
    rewrite Hprog. reflexivity. }
  rewrite (textures_blitGL _ _ g1 "pressure" dst).
  - rewrite E1. rewrite uniformsOf_setUniform. reflexivity.
  - rewrite E1. exact Hprog.
  - rewrite E1. exact Hdst.
Qed.

(** C4.  [step(dt)] on a set-up instance returns, and among the draw calls
    it issued exactly as many run the pressure program as the loop
    [for (i = 0; i < pressureIterations; i++)] has passes: the count
    itself when [pressureIterations] is a whole number.  Pass [j] reads the
    divergence texture through unit 0 and, through unit 1, one texture of
    the pressure buffer, and renders to the other one; the two exchange
    their parts from pass to pass, so each pass reads what the pass before
    it wrote, and after the step the readable texture of [_pressure] is the
    one the last pass wrote.  The first pass reads the readable texture
    [_pressure] had, or the writable one when the dissipation pass ran
    before.  One pass of the loop replaces the content of the writable
    texture by what the pressure shader computes from the bound textures,
    where unit 1 samples the content of the readable texture, and then
    exchanges the two.  The number of passes does not depend on what the
    textures hold. *)
Theorem step_pressure_iterations fuel dt s pr d :
  Ready s -> _pressure s = Some pr -> _divergence s = Some d ->
  (loopCount (pressureIterations (config s)) < fuel)%nat ->
  (20 < fuel)%nat ->
  let k := loopCount (pressureIterations (config s)) in
  let side (j : nat) :=
    if xorb (truthy (pressureDissipation (config s))) (Nat.odd j)
    then DoubleTextureFBO.fbo2 pr else DoubleTextureFBO.fbo1 pr in
  (exists s' new,
     step fuel dt s = Ok tt s' /\ drawsBetween s s' new /\
     length (pressureCalls new) = k /\
     (forall n, pressureIterations (config s) = INR n -> k = n) /\
     (forall j c, nth_error (pressureCalls new) j = Some c ->
        dcProgram c = "pressure"%string /\
        dcUniforms c !! "uDivergence"%string = Some (AUnit 0) /\
        dcUnits c !! 0%nat = Some (TextureFBO.texture d) /\
        dcUniforms c !! "uPressure"%string = Some (AUnit 1) /\
        dcUnits c !! 1%nat = Some (TextureFBO.texture (side j)) /\
        dcTarget c = Some (TextureFBO.texture (side (S j)))) /\
     _pressure s'
     = Some (DoubleTextureFBO.mk (DoubleTextureFBO.w pr)
               (DoubleTextureFBO.h pr) (DoubleTextureFBO.texelSize pr)
               (side k) (side (S k)))) /\
  (forall i s0 p0 src dst,
     _programs s0 = Programs.compiled -> _pressure s0 = Some p0 ->
     program (_gl s0) = Some "pressure"%string ->
     textures (_gl s0) !! TextureFBO.texture (DoubleTextureFBO.fbo1 p0)
     = Some src ->
     textures (_gl s0) !! TextureFBO.texture (DoubleTextureFBO.fbo2 p0)
     = Some dst ->
     let tex :=
       samplerOf
         (<[1%nat := TextureFBO.texture (DoubleTextureFBO.fbo1 p0)]>
            (units (_gl s0)))
         (textures (_gl s0)) in
     exists s1,
       pressureIteration i s0 = Ok tt s1 /\
       _pressure s1
       = Some (DoubleTextureFBO.mk (DoubleTextureFBO.w p0)
                 (DoubleTextureFBO.h p0) (DoubleTextureFBO.texelSize p0)
                 (DoubleTextureFBO.fbo2 p0) (DoubleTextureFBO.fbo1 p0)) /\
       tex 1%nat = texture2D src /\
       textures (_gl s1)
       = <[TextureFBO.texture (DoubleTextureFBO.fbo2 p0) :=
             rasterize (blend (_gl s0))
               (0, 0, TextureFBO.width (DoubleTextureFBO.fbo2 p0),
                TextureFBO.height (DoubleTextureFBO.fbo2 p0))
               (externalShader "pressure"
                  (<["uPressure"%string := AUnit 1]>
                     (uniformsOf (_gl s0) "pressure"))
                  tex)
               dst]>
           (textures (_gl s0))).
Proof.
  intros HR Hpr Hd Hf Hf20 k side. split.
  - destruct (step_pressure_calls fuel dt k s pr d HR Hpr Hd eq_refl Hf Hf20)
      as (s' & new & E & L & N & J & P).
    exists s', new. split; [exact E|]. split; [exact L|].
    split; [exact N|]. split.
    { intros n Hn. unfold k. rewrite Hn. apply loopCount_INR. }
    split.
    + intros j c Hj. destruct (J j c Hj) as (A & B & C & D & F & G).
      split; [exact A|]. split; [exact B|]. split; [exact C|].
      split; [exact D|].
      rewrite iter_swap in F, G. unfold side.
      rewrite Nat.odd_succ, <- Nat.negb_odd.
      destruct (truthy (pressureDissipation (config s)));
        destruct (Nat.odd j); destruct pr; split; assumption.
    + rewrite P, iter_swap. unfold side.
      rewrite Nat.odd_succ, <- Nat.negb_odd.
      destruct (truthy (pressureDissipation (config s)));
        destruct (Nat.odd k); destruct pr; reflexivity.
  - intros i s0 p0 src dst Hp0 Hpr0 Hprog Hsrc Hdst tex.
    destruct (pressureIteration_textures i s0 p0 dst Hp0 Hpr0 Hprog Hdst)
      as (s1 & E & P & T).
    exists s1. split; [exact E|]. split; [exact P|]. split; [|exact T].
    unfold tex. eapply samplerOf_bound; [apply lookup_insert_eq|].
    exact Hsrc.
Qed.


(** *** The solid coupling *)

Lemma sampleRadius_floor solid scale :
  sampleRadius solid scale = floor (radius solid * scale) + 1 / 2.
Proof.
  unfold sampleRadius, sampleSizeOf, floor.
  rewrite plus_IZR, mult_IZR. lra.
Qed.

Lemma massOf_derived solid scale :
  mass solid = None ->
  massOf solid scale
  = orElse (density solid) 1 * PI
    * (floor (radius solid * scale) + 1 / 2)
    * (floor (radius solid * scale) + 1 / 2).
Proof.
  intros H. unfold massOf. rewrite H. simpl.
  rewrite sampleRadius_floor. reflexivity.
Qed.

Lemma wp_quiet_sameHeap (c : M World unit) Q s :
  quiet c -> preserves sameHeap c -> Ready s ->
  (forall s', Ready s' -> quietRel s s' -> sameHeap s s' -> Q tt s') ->
  wp c Q s.
Proof.
  intros Hc Hp HR HQ. destruct (Hc s HR) as (s' & E & HR' & Hq).
  specialize (Hp s). rewrite E in Hp. eapply wp_of_eq; eauto.
Qed.

Lemma updateOneSolid_run fuel dt ref s o pr img :
  Ready s -> In ref (solids s) -> heap s !! ref = Some o ->
  (20 < fuel)%nat -> _pressure s = Some pr ->
  textures (_gl s) !! TextureFBO.texture (DoubleTextureFBO.read pr)
  = Some img ->
  let scale := simScale (config s) in
  let size := sampleSizeOf o scale in
  let r := sampleRadius o scale in
  exists s' dx dy,
    pressureSum fuel 0 (PI * 2 / 20) (IZR size / 2) r size
      (readPixels img
         (Int_part ((fst (position o) - radius o) * scale) - 1)
         (Int_part ((snd (position o) - radius o) * scale) - 1)
         size size) 0 0
    = Some (dx, dy) /\
    updateOneSolid fuel dt ref s = Ok tt s' /\
    heap s' !! ref
    = Some (integrate (- dx * r * (PI * 2 / 20), - dy * r * (PI * 2 / 20))
              (massOf o scale) dt o).
Proof.
  intros HR Hin Ho Hfuel Hpr Htex scale size r.
  destruct (pressureSum_from_zero fuel (IZR size / 2) r size
              (readPixels img
                 (Int_part ((fst (position o) - radius o) * scale) - 1)
                 (Int_part ((snd (position o) - radius o) * scale) - 1)
                 size size) Hfuel) as [[dx dy] E].
  assert (W : wp (updateOneSolid fuel dt ref)
                (fun _ s' =>
                   heap s' !! ref
                   = Some (integrate
                             (- dx * r * (PI * 2 / 20),
                              - dy * r * (PI * 2 / 20))
                             (massOf o scale) dt o)) s).
  { destruct HR as (Hprog & Hd & Hv & _ & Hdv & Hc & Hs).
    assert (HR : Ready s) by (unfold Ready; eauto 10).
    destruct Hd as [d Hd]. destruct Hv as [v Hv].
    unfold updateOneSolid. wp_go. cbv zeta.
    cbn [framebuffer set_framebuffer textures]. rewrite Htex.
    fold scale. fold size. fold r. rewrite E.
    wp_go.
    eapply wp_quiet_sameHeap;
      [ apply _drawSolid_quiet | apply _drawSolid_sameHeap | | ].
    - unfold Ready, is_Some in *. norm_state. repeat split; eauto.
      intros r0 Hr. rewrite lookup_insert.
      destruct (decide (ref = r0)); eauto.
    - intros s' HR' Hq [_ Hh]. rewrite Hh. norm_state.
      apply lookup_insert_eq. }
  destruct (wp_run _ _ _ W) as ([] & s' & E' & Hs').
  exists s', dx, dy. split; [exact E|]. split; [exact E' | exact Hs'].
Qed.

(** C1, as amended.  For a solid of the list with no [mass] property, on
    a set-up instance whose pressure read-back holds numbers only, the
    coupling step returns.  With [dx] and [dy] the sums of the sampling
    loop over the read-back, each component of the velocity has grown by
    the force [- dx * r * step] (or [dy]) divided by the mass
    density * PI * r * r, and the position by the new velocity times
    [dt], where density is the [density] property, or 1 when it is absent
    or 0, and r = floor(radius * simScale) + 1/2 is the radius of the
    circle on which the pressure is sampled.  Radius, density and mass are
    as they were. *)
Theorem solid_mass_derived fuel dt ref s o pr img :
  Ready s -> In ref (solids s) -> heap s !! ref = Some o ->
  mass o = None -> (20 < fuel)%nat ->
  _pressure s = Some pr ->
  textures (_gl s) !! TextureFBO.texture (DoubleTextureFBO.read pr)
  = Some img ->
  let scale := simScale (config s) in
  let size := sampleSizeOf o scale in
  let pressure :=
    readPixels img
      (Int_part ((fst (position o) - radius o) * scale) - 1)
      (Int_part ((snd (position o) - radius o) * scale) - 1)
      size size in
  let step := PI * 2 / 20 in
  let r := floor (radius o * scale) + 1 / 2 in
  let m := orElse (density o) 1 * PI * r * r in
  forallb isNumber16 pressure = true ->
  exists s' dx dy,
    pressureSum fuel 0 step (IZR size / 2) r size pressure 0 0
    = Some (dx, dy) /\
    updateOneSolid fuel dt ref s = Ok tt s' /\
    let vx := fst (velocity o) + - dx * r * step / m in
    let vy := snd (velocity o) + - dy * r * step / m in
    heap s' !! ref
    = Some (mkSolid (fst (position o) + vx * dt, snd (position o) + vy * dt)
                    (vx, vy) (radius o) (density o) (mass o)).
Proof.
  intros HR Hin Ho Hm Hfuel Hpr Htex scale size pressure step r m _.
  destruct (updateOneSolid_run fuel dt ref s o pr img HR Hin Ho Hfuel Hpr
              Htex) as (s' & dx & dy & E & E' & Hs').
  cbv zeta in E, Hs'. fold scale in E, Hs'. fold size in E.
  rewrite sampleRadius_floor in E, Hs'. fold r in E, Hs'.
  rewrite (massOf_derived o scale Hm) in Hs'. fold r in Hs'. fold m in Hs'.
  exists s', dx, dy. split; [exact E|]. split; [exact E'|].
  cbv zeta. rewrite Hs'. reflexivity.
Qed.


(** *** [render] *)

Lemma underscore_eqb rs x :
  String.eqb ("_" ++ rs) ("_" ++ x) = String.eqb rs x.
Proof. reflexivity. Qed.

Lemma privateProperty_other s rs :
  ~ In rs renderSources ->
  match privateProperty s ("_" ++ rs) with
  | VDouble _ | VTexture _ => False
  | _ => True
  end.
Proof.
  intros H. unfold privateProperty.
  change "_dye"%string with ("_" ++ "dye")%string.
  change "_velocity"%string with ("_" ++ "velocity")%string.
  change "_pressure"%string with ("_" ++ "pressure")%string.
  change "_divergence"%string with ("_" ++ "divergence")%string.
  change "_curl"%string with ("_" ++ "curl")%string.
  rewrite !underscore_eqb.
  destruct (String.eqb_spec rs "dye") as [->|_];
    [exfalso; apply H; simpl; tauto|].
  destruct (String.eqb_spec rs "velocity") as [->|_];
    [exfalso; apply H; simpl; tauto|].
  destruct (String.eqb_spec rs "pressure") as [->|_];
    [exfalso; apply H; simpl; tauto|].
  destruct (String.eqb_spec rs "divergence") as [->|_];
    [exfalso; apply H; simpl; tauto|].
  destruct (String.eqb_spec rs "curl") as [->|_];
    [exfalso; apply H; simpl; tauto|].
  repeat match goal with
         | |- context [if ?b then _ else _] => destruct b
         | |- context [match ?x with Some _ => _ | None => _ end] =>
             destruct x
         end; exact I.
Qed.

Lemma render_unknown s :
  ~ In (renderSource (config s)) renderSources ->
  exists e, render s = Err e s.
Proof.
  intros H. pose proof (privateProperty_other s _ H) as Hv.
  unfold render, bind, get.
  destruct (privateProperty s ("_" ++ renderSource (config s)))
    as [|x|d|f|]; try contradiction; cbn [falsy].
  - eexists. reflexivity.
  - destruct (truthy x); cbn [negb]; [|eexists; reflexivity].
    destruct (renderTransformOf (config s)) as [x0|m];
      [destruct (_defaultRenderTransforms (renderSource (config s)))|];
      unfold ret, throw, programNamed, the;
      destruct (_programs s !! "transform"%string);
      eexists; reflexivity.
  - destruct (renderTransformOf (config s)) as [x0|m];
      [destruct (_defaultRenderTransforms (renderSource (config s)))|];
      unfold ret, throw, programNamed, the;
      destruct (_programs s !! "transform"%string);
      eexists; reflexivity.
Qed.


Lemma default_transform_known rs :
  In rs renderSources -> exists f, _defaultRenderTransforms rs = Some f.
Proof.
  intros H. simpl in H.
  repeat (destruct H as [<-|H]; [eexists; reflexivity|]). contradiction.
Qed.

Lemma privateProperty_buffers s :
  privateProperty s ("_" ++ "dye")
  = match _dye s with Some d => VDouble d | None => VUndefined end /\
  privateProperty s ("_" ++ "velocity")
  = match _velocity s with Some d => VDouble d | None => VUndefined end /\
  privateProperty s ("_" ++ "pressure")
  = match _pressure s with Some d => VDouble d | None => VUndefined end /\
  privateProperty s ("_" ++ "divergence")
  = match _divergence s with Some f => VTexture f | None => VUndefined end /\
  privateProperty s ("_" ++ "curl")
  = match _curl s with Some f => VTexture f | None => VUndefined end.
Proof. repeat split. Qed.

Lemma shownTexture_ready s :
  Ready s -> In (renderSource (config s)) renderSources ->
  exists f, shownTexture s = Some f.
Proof.
  intros HR H. ready_intro HR. unfold shownTexture.
  destruct (privateProperty_buffers s) as (A & B & C & D & E).
  simpl in H.
  destruct H as [H|[H|[H|[H|[H|[]]]]]]; rewrite <- H.
  - rewrite A. match goal with E : _dye s = _ |- _ => rewrite E end. eauto.
  - rewrite B. match goal with E : _velocity s = _ |- _ => rewrite E end.
    eauto.
  - rewrite C. match goal with E : _pressure s = _ |- _ => rewrite E end.
    eauto.
  - rewrite D. match goal with E : _divergence s = _ |- _ => rewrite E end.
    eauto.
  - rewrite E. match goal with E : _curl s = _ |- _ => rewrite E end. eauto.
Qed.

Lemma render_run s f :
  _programs s !! "transform"%string
  = Some (Programs.linked "transform" Programs.transformUniforms) ->
  shownTexture s = Some f ->
  In (renderSource (config s)) renderSources ->
  render s
  = Ok tt (set__gl (renderGL f (renderMatrix (config s)) (canvasViewport s)
                      (_gl s)) s).
Proof.
  intros Hp Hf Hin. destruct (default_transform_known _ Hin) as [dflt Hd].
  unfold shownTexture in Hf. unfold renderMatrix. rewrite Hd.
  apply wp_run_eq. unfold render. apply wp_bind, wp_get.
  destruct (privateProperty s ("_" ++ renderSource (config s)))
    as [|x|d|f0|]; try discriminate; cbn [falsy];
    injection Hf as <-; rewrite Hd;
    destruct (renderTransformOf (config s)) as [x|m];
    apply wp_bind, wp_ret; apply wp_bind;
    (eapply wp_programNamed; [exact Hp|]);
    wp_go; unfold renderGL, canvasViewport; split; reflexivity.
Qed.


Lemma GLState_eq g g' :
  textures g = textures g' -> nextName g = nextName g' ->
  activeUnit g = activeUnit g' -> units g = units g' ->
  program g = program g' -> uniforms g = uniforms g' ->
  framebuffer g = framebuffer g' -> viewport g = viewport g' ->
  blend g = blend g' -> canvas g = canvas g' -> drawLog g = drawLog g' ->
  g = g'.
Proof. destruct g, g'; simpl; intros; subst; reflexivity. Qed.

Lemma renderGL_fields f m vp g :
  let g' := renderGL f m vp g in
  textures g' = textures g /\ nextName g' = nextName g /\
  activeUnit g' = O /\
  units g' = <[O := TextureFBO.texture f]> (units g) /\
  program g' = Some "transform"%string /\
  uniforms g'
  = <["transform"%string := renderUniforms m g]> (uniforms g) /\
  framebuffer g' = None /\ viewport g' = vp /\ blend g' = blend g /\
  canvas g'
  = rasterize (blend g) vp
      (fragmentOf "transform" (renderUniforms m g)
         (samplerOf (<[O := TextureFBO.texture f]> (units g)) (textures g)))
      (canvas g) /\
  drawLog g' = drawLog g ++ [renderCall f m vp g].
Proof.
  unfold renderGL, blitGL, useGL, drawElements, renderCall, renderUniforms,
    unitSampler.
  cbn [fold_left fst snd name Programs.linked].
  repeat (progress (unfold uniformsOf;
                    cbn [program set_viewport set_framebuffer setUniform
                         set_uniforms set_program attach set_units
                         set_activeUnit framebuffer viewport blend canvas
                         textures units uniforms nextName activeUnit drawLog
                         set_drawLog set_canvas];
                    rewrite ?lookup_insert_eq, ?insert_insert_eq)).
  repeat split.
Qed.



Lemma GLState_eq_log g g' l :
  textures g = textures g' -> nextName g = nextName g' ->
  activeUnit g = activeUnit g' -> units g = units g' ->
  program g = program g' -> uniforms g = uniforms g' ->
  framebuffer g = framebuffer g' -> viewport g = viewport g' ->
  blend g = blend g' -> canvas g = canvas g' -> drawLog g = l ->
  g = set_drawLog l g'.
Proof. destruct g, g'; simpl; intros; subst; reflexivity. Qed.

Lemma transform_fragment m g tex :
  fragmentOf "transform" (renderUniforms m g) tex
  = transform_main m (tex 0%nat).
Proof.
  unfold renderUniforms, fragmentOf. cbn [String.eqb Ascii.eqb Bool.eqb].
  rewrite lookup_insert_eq.
  rewrite lookup_insert_ne by discriminate. rewrite lookup_insert_eq.
  reflexivity.
Qed.

Lemma renderCall_fields f m vp g :
  let c := renderCall f m vp g in
  dcProgram c = "transform"%string /\ dcTarget c = None /\
  dcViewport c = vp /\
  dcUniforms c !! "uTexture"%string = Some (AUnit 0) /\
  dcUniforms c !! "value"%string = Some (AF32 m) /\
  dcUnits c !! 0%nat = Some (TextureFBO.texture f).
Proof.
  unfold renderCall, renderUniforms. cbn [dcProgram dcTarget dcViewport
                                            dcUniforms dcUnits].
  repeat split.
  - rewrite lookup_insert_ne by discriminate. apply lookup_insert_eq.
  - apply lookup_insert_eq.
  - apply lookup_insert_eq.
Qed.

Lemma renderGL_canvas f m vp g img :
  textures g !! TextureFBO.texture f = Some img ->
  canvas (renderGL f m vp g)
  = rasterize (blend g) vp (transform_main m (texture2D img)) (canvas g).
Proof.
  intros Himg.
  destruct (renderGL_fields f m vp g)
    as (_ & _ & _ & _ & _ & _ & _ & _ & _ & C & _).
  rewrite C, transform_fragment.
  rewrite (samplerOf_bound _ _ 0%nat (TextureFBO.texture f) img);
    [reflexivity | apply lookup_insert_eq | exact Himg].
Qed.


Lemma shownTexture_selected s f :
  In (renderSource (config s)) renderSources ->
  shownTexture s = Some f -> selectedTexture s f.
Proof.
  intros H Hf. unfold shownTexture in Hf. unfold selectedTexture.
  destruct (privateProperty_buffers s) as (A & B & C & D & E).
  simpl in H.
  destruct H as [H|[H|[H|[H|[H|[]]]]]]; rewrite <- H in Hf |- *.
  - rewrite A in Hf. left. split; [reflexivity|].
    destruct (_dye s) as [d|]; [|discriminate].
    exists d. split; [reflexivity|]. injection Hf as <-. reflexivity.
  - rewrite B in Hf. right. left. split; [reflexivity|].
    destruct (_velocity s) as [d|]; [|discriminate].
    exists d. split; [reflexivity|]. injection Hf as <-. reflexivity.
  - rewrite C in Hf. right. right. left. split; [reflexivity|].
    destruct (_pressure s) as [d|]; [|discriminate].
    exists d. split; [reflexivity|]. injection Hf as <-. reflexivity.
  - rewrite D in Hf. right. right. right. left. split; [reflexivity|].
    destruct (_divergence s) as [d|]; [|discriminate]. exact Hf.
  - rewrite E in Hf. right. right. right. right. split; [reflexivity|].
    destruct (_curl s) as [d|]; [|discriminate]. exact Hf.
Qed.




Lemma set__gl_twice g g' s : set__gl g (set__gl g' s) = set__gl g s.
Proof. reflexivity. Qed.

(** C6.  When [renderSource] is none of dye, velocity, pressure,
    divergence and curl, [render()] throws, and it does so before anything
    changed: the state at the throw is the state at the call.  When it is
    one of the five and the instance is set up, [render()] returns. *)
Theorem render_checks_source s :
  (~ In (renderSource (config s)) renderSources ->
   exists e, render s = Err e s) /\
  (In (renderSource (config s)) renderSources -> Ready s ->
   exists s', render s = Ok tt s').
Proof.
  split.
  - apply render_unknown.
  - intros Hin HR. destruct (shownTexture_ready s HR Hin) as [f Hf].
    eexists. apply (render_run s f); auto.
    eapply programs_lookup; [apply HR | apply compiled_lookup].
Qed.



(** *** [setDye] *)

Lemma splat_centre uSource point transform color :
  splat_main uSource point transform color point
  = (fst (fst color), snd (fst color), snd color, 1).
Proof.
  unfold splat_main, mat2_mul, dot2.
  destruct color as [[cr cg] cb]. destruct (xyz (uSource point)) as [[br bg] bb].
  cbn [fst snd].
  replace (exp _) with 1.
  - repeat (apply pair_equal_spec; split); ring.
  - rewrite <- exp_0. f_equal. ring.
Qed.



(** *** The argument of [step] *)

#[local] Instance keepsSteps_preorder : PreOrder keepsSteps.
Proof.
  split.
  - intros s. reflexivity.
  - intros s1 s2 s3 H1 H2. unfold keepsSteps in *. congruence.
Qed.

#[local] Instance stepsWith_preorder d : PreOrder (stepsWith d).
Proof.
  split.
  - intros s. exists []. split; [now rewrite app_nil_r | constructor].
  - intros s1 s2 s3 (l1 & H1 & F1) (l2 & H2 & F2). exists (l1 ++ l2).
    split; [rewrite H2, H1; now rewrite app_assoc | now apply Forall_app].
Qed.

Lemma keepsSteps_stepsWith d s s' : keepsSteps s s' -> stepsWith d s s'.
Proof.
  intros H. exists []. split; [rewrite app_nil_r; exact H | constructor].
Qed.

Ltac keeps_leaf :=
  first
    [ apply (preserves_liftGL keepsSteps); intros; unfold keepsSteps;
      reflexivity
    | apply (preserves_modify keepsSteps); intros ?; unfold keepsSteps;
      cbv beta delta [setBuffer];
      repeat match goal with
             | |- context [let '(_, _) := ?x in _] => destruct x
             | |- context [match ?x with _ => _ end] => destruct x
             end;
      reflexivity ].

Lemma _resizeIfNeeded_keepsSteps : preserves keepsSteps _resizeIfNeeded.
Proof.
  unfold _resizeIfNeeded, _resizeBuffers, createBuffers, copyOld,
    rescaleSolids, updateSolid, useProgram, _blit, swapBuffer.
  pres keeps_leaf.
Qed.

Lemma render_keepsSteps : preserves keepsSteps render.
Proof. unfold render, useProgram, _blit. pres keeps_leaf. Qed.

Lemma step_body_keepsSteps fuel dt :
  preserves keepsSteps
    (liftGL (set_blend false) ;;;
     curlPass ;;; vorticityPass dt ;;; divergencePass ;;;
     dissipatePressure dt ;;; pressureSolve fuel ;;;
     gradientSubtractPass ;;; advectVelocity dt ;;; advectDye dt ;;;
     _updateSolids fuel dt).
Proof.
  unfold curlPass, vorticityPass, divergencePass, dissipatePressure,
    pressureSolve, pressureIteration, gradientSubtractPass, advectVelocity,
    advectDye, _updateSolids, updateOneSolid, updateSolid, _drawSolid,
    useProgram, _blit, swapBuffer.
  pres keeps_leaf.
Qed.

(** However [step(dt)] ends, it has recorded exactly one call, with [dt]. *)
Lemma step_steps fuel dt s :
  match step fuel dt s with
  | Ok _ s' => stepCalls s' = stepCalls s ++ [dt]
  | Err _ s' => stepCalls s' = stepCalls s ++ [dt]
  | Timeout => True
  end.
Proof.
  pose proof (step_body_keepsSteps fuel dt
                (set_stepCalls (stepCalls s ++ [dt]) s)) as H.
  unfold step. unfold bind at 1. unfold modify at 1.
  match goal with
  | |- match ?c with _ => _ end => destruct c; exact H
  end.
Qed.

Lemma step_stepsWith fuel dt : preserves (stepsWith dt) (step fuel dt).
Proof.
  intros s. pose proof (step_steps fuel dt s) as H.
  destruct (step fuel dt s); auto; exists [dt]; split; auto.
Qed.

Lemma updateDt_le s now : updateDt s now <= maxSimulationStep (config s).
Proof. unfold updateDt, Num.min. apply Rmin_r. Qed.

Lemma updateDt_nonneg s now :
  0 <= maxSimulationStep (config s) ->
  (forall t, _now s = Some t -> (t <= now)%Z) ->
  0 <= updateDt s now.
Proof.
  intros Hm Ht. unfold updateDt, Num.min. apply Rmin_glb; [|exact Hm].
  destruct (_now s) as [t|]; [|lra].
  destruct (t =? 0)%Z; [lra|].
  specialize (Ht t eq_refl).
  assert (0 <= IZR (now - t)) by (apply IZR_le; lia). lra.
Qed.

Lemma _update_stepsWith fuel now now' s :
  (forall dt, preserves keepsSteps (callHook preRender dt)) ->
  (forall dt, preserves keepsSteps (callHook postRender dt)) ->
  match _update preRender postRender fuel now now' s with
  | Ok _ s' => stepsWith (updateDt s now) s s'
  | Err _ s' => stepsWith (updateDt s now) s s'
  | Timeout => True
  end.
Proof.
  intros Hpre Hpost. unfold _update. unfold bind at 1. unfold get at 1.
  set (dt := updateDt s now).
  match goal with
  | |- match ?c s with _ => _ end =>
      assert (H : preserves (stepsWith dt) c)
  end.
  { pres ltac:(first
      [ exact (step_stepsWith _ _)
      | apply (preserves_weaken keepsSteps (stepsWith dt));
        [ exact (keepsSteps_stepsWith dt)
        | first [ exact _resizeIfNeeded_keepsSteps
                | exact render_keepsSteps
                | exact (Hpre _) | exact (Hpost _)
                | keeps_leaf ] ] ]). }
  exact (H s).
Qed.

(** [step] returns on a set-up instance and leaves it set up. *)
Lemma step_run fuel dt k s :
  Ready s -> pressureIterations (config s) = INR k ->
  (k < fuel)%nat -> (20 < fuel)%nat ->
  exists s', step fuel dt s = Ok tt s' /\ Ready s' /\
             config s' = config s /\
             stepCalls s' = stepCalls s ++ [dt].
Proof.
  intros HR Hk Hf Hf20.
  assert (W : wp (step fuel dt)
                (fun _ s' => Ready s' /\ config s' = config s) s).
  { unfold step. wp_go.
    match goal with
    | |- wp _ _ ?st =>
        assert (HR0 : Ready st) by exact HR;
        assert (C0 : config st = config s) by reflexivity;
        set (s0 := st) in *; clearbody s0
    end.
    wp_quiet_step curlPass_quiet s1 HR1 Q1.
    wp_quiet_step vorticityPass_quiet s2 HR2 Q2.
    wp_quiet_step divergencePass_quiet s3 HR3 Q3.
    assert (Q03 : quietRel s0 s3)
      by (etransitivity; [etransitivity|]; eassumption).
    destruct Q03 as (_ & C3 & _ & _ & _).
    destruct HR3 as (X1 & X2 & X3 & [pr P3] & [d D3] & X6).
    assert (HR3 : Ready s3) by (unfold Ready; eauto 10).
    destruct (dissipatePressure_spec dt s3 pr HR3 P3)
      as (s4 & E4 & HR4 & _ & C4 & _ & D4 & P4).
    wp_open. eapply wp_of_eq; [exact E4|].
    destruct (pressureSolve_spec fuel k s4 _ d HR4 P4)
      as (s5 & calls & E5 & HR5 & C5 & _);
      try (congruence || lia).
    wp_open. eapply wp_of_eq; [exact E5|].
    wp_quiet_step gradientSubtractPass_quiet s6 HR6 Q6.
    wp_quiet_step advectVelocity_quiet s7 HR7 Q7.
    wp_quiet_step advectDye_quiet s8 HR8 Q8.
    eapply wp_quiet; [apply _updateSolids_quiet; exact Hf20 | eassumption |].
    intros s9 HR9 Q9.
    assert (Q59 : quietRel s5 s9)
      by (etransitivity; [etransitivity; [etransitivity|]|]; eassumption).
    destruct Q59 as (_ & C9 & _).
    split; [exact HR9 | congruence]. }
  destruct (wp_run _ _ _ W) as ([] & s' & E & HR' & C').
  exists s'. split; [exact E|]. split; [exact HR'|]. split; [exact C'|].
  pose proof (step_steps fuel dt s) as H. rewrite E in H. exact H.
Qed.

(** C9.  Whatever way [step(dt)] or the resize check end, returning or
    throwing, the [solids] list holds the same references, no solid object
    was created or removed, every solid object has the [radius], [density]
    and [mass] it had, so that only the contents of [position] and
    [velocity] can differ, and objects that are not in the list are as
    they were.  On a set-up instance, with enough fuel for the loops,
    [step(dt)] does return. *)
Theorem step_keeps_solid_shape fuel dt k s :
  match step fuel dt s with
  | Ok _ s' => solidsFrame (solids s) s s'
  | Err _ s' => solidsFrame (solids s) s s'
  | Timeout => True
  end /\
  match _resizeIfNeeded s with
  | Ok _ s' => solidsFrame (solids s) s s'
  | Err _ s' => solidsFrame (solids s) s s'
  | Timeout => True
  end /\
  (Ready s -> pressureIterations (config s) = INR k ->
   (k < fuel)%nat -> (20 < fuel)%nat ->
   exists s', step fuel dt s = Ok tt s' /\ solidsFrame (solids s) s s').
Proof.
  assert (A : match step fuel dt s with
              | Ok _ s' => solidsFrame (solids s) s s'
              | Err _ s' => solidsFrame (solids s) s s'
              | Timeout => True
              end).
  { pose proof (step_frameFrom (solids s) fuel dt s) as H.
    destruct (step fuel dt s); auto; apply H, incl_refl. }
  split; [exact A|]. split.
  - pose proof (_resizeIfNeeded_frameFrom (solids s) s) as H.
    destruct (_resizeIfNeeded s); auto; apply H, incl_refl.
  - intros HR Hk Hf Hf20.
    destruct (step_run fuel dt k s HR Hk Hf Hf20) as (s' & E & _).
    exists s'. split; [exact E|]. rewrite E in A. exact A.
Qed.

(** *** Resizing *)

#[local] Instance sameSetup_preorder : PreOrder sameSetup.
Proof.
  split.
  - intros s. repeat split.
  - intros s1 s2 s3 (A1 & A2 & A3 & A4 & A5) (B1 & B2 & B3 & B4 & B5).
    unfold sameSetup. repeat split; congruence.
Qed.

#[local] Instance sameDims_preorder : PreOrder sameDims.
Proof.
  split.
  - intros s. repeat split.
  - intros s1 s2 s3 (A1 & A2 & A3 & A4) (B1 & B2 & B3 & B4).
    unfold sameDims. repeat split; congruence.
Qed.

Ltac fields_leaf R :=
  first
    [ apply (preserves_liftGL R); intros; repeat split
    | apply (preserves_modify R); intros ?;
      cbv beta delta [setBuffer];
      repeat match goal with
             | |- context [let '(_, _) := ?x in _] => destruct x
             | |- context [match ?x with _ => _ end] => destruct x
             end;
      repeat split ].

Lemma _resizeBuffers_sameSetup copyData :
  preserves sameSetup (_resizeBuffers copyData).
Proof.
  unfold _resizeBuffers, createBuffers, copyOld, useProgram, _blit,
    swapBuffer.
  pres ltac:(fields_leaf sameSetup).
Qed.

Lemma _resizeBuffers_sameDims copyData :
  preserves sameDims (_resizeBuffers copyData).
Proof.
  unfold _resizeBuffers, createBuffers, copyOld, useProgram, _blit,
    swapBuffer.
  pres ltac:(fields_leaf sameDims).
Qed.

Lemma _resizeIfNeeded_sameSetup : preserves sameSetup _resizeIfNeeded.
Proof.
  unfold _resizeIfNeeded, rescaleSolids, updateSolid.
  pres ltac:(first [ exact (_resizeBuffers_sameSetup _)
                   | fields_leaf sameSetup ]).
Qed.

Lemma render_sameSetup : preserves sameSetup render.
Proof. unfold render, useProgram, _blit. pres ltac:(fields_leaf sameSetup). Qed.

Lemma doubleSize_swap d w h :
  doubleSize d w h -> doubleSize (DoubleTextureFBO.swap d) w h.
Proof. intros (A & B & C & D). repeat split; first [apply A | apply B | apply C | apply D]. Qed.

Lemma createBuffers_run sw sh dw dh s :
  exists s1,
    createBuffers sw sh dw dh s = Ok tt s1 /\
    sizedAs sw sh dw dh s1 /\
    drawLog (_gl s1) = drawLog (_gl s) /\
    _programs s1 = _programs s.
Proof.
  eexists. split; [reflexivity|]. split; [|split; reflexivity].
  unfold sizedAs. do 5 eexists. repeat split.
Qed.

Lemma textures_blitGL_none vp t g n :
  textures g !! n = None -> textures (blitGL vp t g) !! n = None.
Proof.
  intros H. unfold blitGL, drawElements.
  cbn [program set_viewport set_framebuffer framebuffer textures].
  destruct (program g); [|exact H].
  destruct t as [t|]; cbn [textures set_drawLog set_canvas]; [|exact H].
  destruct (textures g !! t) eqn:E; cbn [textures set_textures]; [|exact H].
  rewrite lookup_insert_ne; [exact H | congruence].
Qed.

Lemma textures_deleteFBO f g :
  textures (deleteFBO f g) = delete (TextureFBO.texture f) (textures g).
Proof.
  unfold deleteFBO. cbn [framebuffer set_textures].
  destruct (framebuffer g) as [t|]; [|reflexivity].
  destruct (Nat.eqb t (TextureFBO.texture f)); reflexivity.
Qed.

Lemma drawLog_deleteFBO f g : drawLog (deleteFBO f g) = drawLog g.
Proof.
  unfold deleteFBO. cbn [framebuffer set_textures].
  destruct (framebuffer g) as [t|]; [|reflexivity].
  destruct (Nat.eqb t (TextureFBO.texture f)); reflexivity.
Qed.

Lemma textures_deleteDouble_none old g n :
  textures g !! n = None \/
  n = TextureFBO.texture (DoubleTextureFBO.fbo1 old) \/
  n = TextureFBO.texture (DoubleTextureFBO.fbo2 old) ->
  textures (deleteDouble old g) !! n = None.
Proof.
  intros H. unfold deleteDouble. rewrite !textures_deleteFBO.
  rewrite !lookup_delete_None. destruct H as [H|[H|H]]; auto.
Qed.


(** One round of the copy loop of [_resizeBuffers]. *)
Lemma copyOld_run sw sh b old cur s :
  _programs s = Programs.compiled -> getBuffer b s = Some cur ->
  exists s' c,
    copyOld sw sh (b, Some old) s = Ok tt s' /\
    drawsBetween s s' [c] /\
    copyCall old (TextureFBO.texture (DoubleTextureFBO.write cur))
             (copyTransform b sw sh old) c /\
    s' = set__gl (_gl s') (setBuffer b (Some (DoubleTextureFBO.swap cur)) s) /\
    (forall n, textures (_gl s) !! n = None \/
               n = TextureFBO.texture (DoubleTextureFBO.fbo1 old) \/
               n = TextureFBO.texture (DoubleTextureFBO.fbo2 old) ->
               textures (_gl s') !! n = None).
Proof.
  intros Hp Hb.
  set (m := copyTransform b sw sh old).
  set (vals := [("value"%string, AF32 m); ("uTexture"%string, AUnit 0)]).
  set (g1 := attach (DoubleTextureFBO.read old) 0 (_gl s)).
  set (P := Programs.linked "transform" Programs.transformUniforms).
  set (vp := viewportOf (DoubleTextureFBO.write cur)).
  set (t := Some (TextureFBO.texture (DoubleTextureFBO.write cur))).
  assert (E : copyOld sw sh (b, Some old) s
              = Ok tt (set__gl (deleteDouble old
                                  (blitGL vp t (useGL P vals g1)))
                         (setBuffer b (Some (DoubleTextureFBO.swap cur)) s))).
  { apply wp_run_eq. unfold copyOld. fold m.
    destruct b; cbn [getBuffer bufferKey setBuffer] in *;
      wp_go; split; reflexivity. }
  assert (U : uniformsOf (useGL P vals g1) "transform"
              = <["uTexture"%string := AUnit 0]>
                  (<["value"%string := AF32 m]>
                     (uniformsOf g1 "transform"))).
  { unfold useGL, vals. cbn [fold_left fst snd].
    change (name P) with "transform"%string.
    rewrite !uniformsOf_setUniform. reflexivity. }
  pose proof (drawLog_blit_use vp t P vals g1) as L.
  change (name P) with "transform"%string in L. rewrite U in L.
  assert (T : forall n, textures (_gl s) !! n = None \/
               n = TextureFBO.texture (DoubleTextureFBO.fbo1 old) \/
               n = TextureFBO.texture (DoubleTextureFBO.fbo2 old) ->
               textures (deleteDouble old (blitGL vp t (useGL P vals g1)))
                 !! n = None).
  { intros n Hn. apply textures_deleteDouble_none.
    destruct Hn as [Hn|Hn]; [left|right; exact Hn].
    apply textures_blitGL_none.
    destruct (useGL_fields P vals g1) as (_ & _ & _ & -> & _).
    exact Hn. }
  assert (L' : drawLog (deleteDouble old (blitGL vp t (useGL P vals g1)))
               = drawLog (blitGL vp t (useGL P vals g1))).
  { unfold deleteDouble. rewrite !drawLog_deleteFBO. reflexivity. }
  rewrite <- L' in L. clear L'.
  revert E L T.
  generalize (deleteDouble old (blitGL vp t (useGL P vals g1))) as G.
  intros G E L T.
  eexists. eexists. split; [exact E|].
  split; [exact L|]. split.
  - unfold copyCall. cbn [dcProgram dcUniforms dcUnits dcTarget].
    split; [reflexivity|]. split.
    { rewrite lookup_insert_ne by discriminate. apply lookup_insert_eq. }
    split; [apply lookup_insert_eq|]. split; [|reflexivity].
    unfold g1, attach. cbn [units set_units]. apply lookup_insert_eq.
  - split; [|exact T].
    destruct b; reflexivity.
Qed.

(** [_resizeBuffers(true)] when the three state buffers exist. *)
Lemma _resizeBuffers_copy s od ov op :
  _programs s = Programs.compiled ->
  _dye s = Some od -> _velocity s = Some ov -> _pressure s = Some op ->
  exists s' nd nv np cd cv cp,
    _resizeBuffers true s = Ok tt s' /\
    sizedAs (width (config s) * simScale (config s))
            (height (config s) * simScale (config s))
            (width (config s) * dyeScale (config s))
            (height (config s) * dyeScale (config s)) s' /\
    _dye s' = Some nd /\ _velocity s' = Some nv /\ _pressure s' = Some np /\
    drawsBetween s s' [cd; cv; cp] /\
    copyCall od (TextureFBO.texture (DoubleTextureFBO.read nd))
             (identityMatrix4 None None None None) cd /\
    copyCall ov (TextureFBO.texture (DoubleTextureFBO.read nv))
             (identityMatrix4
                (Some (width (config s) * simScale (config s)
                       / DoubleTextureFBO.w ov))
                (Some (height (config s) * simScale (config s)
                       / DoubleTextureFBO.h ov))
                None None) cv /\
    copyCall op (TextureFBO.texture (DoubleTextureFBO.read np))
             (identityMatrix4 None None None None) cp /\
    released od s' /\ released ov s' /\ released op s'.
Proof.
  intros Hp Hd Hv Hpr.
  set (sw := width (config s) * simScale (config s)).
  set (sh := height (config s) * simScale (config s)).
  set (dw := width (config s) * dyeScale (config s)).
  set (dh := height (config s) * dyeScale (config s)).
  destruct (createBuffers_run sw sh dw dh s)
    as (s1 & E1 & (d & v & p & dv & c & D1 & V1 & P1 & DV1 & C1
                   & Sd & Sv & Sp & Sdv & Sc) & L1 & Pr1).
  rewrite Hp in Pr1.
  destruct (copyOld_run sw sh Dye od d s1 Pr1 D1)
    as (s2 & cd & E2 & L2 & K2 & S2 & T2).
  assert (Pr2 : _programs s2 = Programs.compiled)
    by (rewrite S2; exact Pr1).
  assert (V2 : getBuffer Velocity s2 = Some v) by (rewrite S2; exact V1).
  destruct (copyOld_run sw sh Velocity ov v s2 Pr2 V2)
    as (s3 & cv & E3 & L3 & K3 & S3 & T3).
  assert (Pr3 : _programs s3 = Programs.compiled)
    by (rewrite S3; exact Pr2).
  assert (P3 : getBuffer Pressure s3 = Some p)
    by (rewrite S3, S2; exact P1).
  destruct (copyOld_run sw sh Pressure op p s3 Pr3 P3)
    as (s4 & cp & E4 & L4 & K4 & S4 & T4).
  exists s4, (DoubleTextureFBO.swap d), (DoubleTextureFBO.swap v),
    (DoubleTextureFBO.swap p), cd, cv, cp.
  assert (D4 : _dye s4 = Some (DoubleTextureFBO.swap d))
    by (rewrite S4, S3, S2; reflexivity).
  assert (V4 : _velocity s4 = Some (DoubleTextureFBO.swap v))
    by (rewrite S4, S3; reflexivity).
  assert (P4 : _pressure s4 = Some (DoubleTextureFBO.swap p))
    by (rewrite S4; reflexivity).
  split.
  { apply wp_run_eq. unfold _resizeBuffers. apply wp_bind, wp_get.
    rewrite Hd, Hv, Hpr. cbv zeta. fold sw sh dw dh.
    apply wp_bind. eapply wp_of_eq; [exact E1|].
    cbn [forOf].
    apply wp_bind. eapply wp_of_eq; [exact E2|].
    apply wp_bind. eapply wp_of_eq; [exact E3|].
    apply wp_bind. eapply wp_of_eq; [exact E4|].
    apply wp_ret. split; reflexivity. }
  split.
  { exists (DoubleTextureFBO.swap d), (DoubleTextureFBO.swap v),
      (DoubleTextureFBO.swap p), dv, c.
    split; [exact D4|]. split; [exact V4|]. split; [exact P4|].
    split; [rewrite S4, S3, S2; exact DV1|].
    split; [rewrite S4, S3, S2; exact C1|].
    split; [apply doubleSize_swap, Sd|].
    split; [apply doubleSize_swap, Sv|].
    split; [apply doubleSize_swap, Sp|].
    split; [exact Sdv | exact Sc]. }
  split; [exact D4|]. split; [exact V4|]. split; [exact P4|].
  split.
  { unfold drawsBetween in *. rewrite L4, L3, L2, L1.
    rewrite <- !app_assoc. reflexivity. }
  split; [exact K2|]. split; [exact K3|]. split; [exact K4|].
  unfold released.
  split; [split; apply T4; left; apply T3; left; apply T2; right; auto|].
  split; [split; apply T4; left; apply T3; right; auto|].
  split; apply T4; right; auto.
Qed.

Lemma set_heap_same s : set_heap (heap s) s = s.
Proof. destruct s; reflexivity. Qed.

Lemma rescale_loop scale l :
  forall s,
    (forall ref, In ref l -> is_Some (heap s !! ref)) ->
    exists h',
      forOf l (fun ref => updateSolid ref (rescaleSolid scale)) s
      = Ok tt (set_heap h' s) /\
      (forall ref, is_Some (heap s !! ref) -> is_Some (h' !! ref)).
Proof.
  induction l as [|ref l IH]; intros s Hl.
  - exists (heap s). rewrite set_heap_same. split; [reflexivity | auto].
  - destruct (Hl ref (or_introl eq_refl)) as [o Ho].
    set (s1 := set_heap (<[ref := rescaleSolid scale o]> (heap s)) s).
    assert (E : updateSolid ref (rescaleSolid scale) s = Ok tt s1).
    { unfold updateSolid, bind, the. rewrite Ho. reflexivity. }
    assert (K : forall r, is_Some (heap s !! r) -> is_Some (heap s1 !! r)).
    { intros r Hr. unfold s1. cbn [heap set_heap].
      destruct (decide (ref = r)) as [->|Hne].
      - rewrite lookup_insert_eq. eauto.
      - rewrite lookup_insert_ne by exact Hne. exact Hr. }
    destruct (IH s1) as (h' & E' & K').
    { intros r Hr. apply K, Hl. now right. }
    exists h'. split.
    + cbn [forOf]. unfold bind at 1. rewrite E. exact E'.
    + intros r Hr. apply K', K, Hr.
Qed.

Lemma rescaleSolids_run scale s :
  (forall ref, In ref (solids s) -> is_Some (heap s !! ref)) ->
  exists h',
    rescaleSolids scale s = Ok tt (set_heap h' s) /\
    (forall ref, is_Some (heap s !! ref) -> is_Some (h' !! ref)).
Proof. intros H. exact (rescale_loop scale (solids s) s H). Qed.

Lemma _resizeBuffers_fresh s :
  _dye s = None ->
  exists s',
    _resizeBuffers true s = Ok tt s' /\
    sizedAs (width (config s) * simScale (config s))
            (height (config s) * simScale (config s))
            (width (config s) * dyeScale (config s))
            (height (config s) * dyeScale (config s)) s' /\
    drawsBetween s s' [].
Proof.
  intros Hd.
  destruct (createBuffers_run (width (config s) * simScale (config s))
              (height (config s) * simScale (config s))
              (width (config s) * dyeScale (config s))
              (height (config s) * dyeScale (config s)) s)
    as (s1 & E1 & Z1 & L1 & _).
  exists s1. split; [|split; [exact Z1|]].
  - apply wp_run_eq. unfold _resizeBuffers. apply wp_bind, wp_get.
    rewrite Hd. cbv zeta.
    apply wp_bind. eapply wp_of_eq; [exact E1|].
    apply wp_ret. split; reflexivity.
  - unfold drawsBetween. rewrite app_nil_r. exact L1.
Qed.

Lemma resizeNeeded_fresh s : Fresh s -> resizeNeeded s = true.
Proof. intros (_ & Hw & _). unfold resizeNeeded. rewrite Hw. reflexivity. Qed.

Lemma _resizeIfNeeded_resized s :
  _programs s = Programs.compiled ->
  (forall ref, In ref (solids s) -> is_Some (heap s !! ref)) ->
  (exists s1,
     _resizeBuffers true s = Ok tt s1 /\
     sizedAs (width (config s) * simScale (config s))
             (height (config s) * simScale (config s))
             (width (config s) * dyeScale (config s))
             (height (config s) * dyeScale (config s)) s1) ->
  resizeNeeded s = true ->
  exists s',
    _resizeIfNeeded s = Ok tt s' /\ Ready s' /\
    sizedAs (width (config s) * simScale (config s))
            (height (config s) * simScale (config s))
            (width (config s) * dyeScale (config s))
            (height (config s) * dyeScale (config s)) s'.
Proof.
  intros Hp Hs (s1 & E1 & Z1) N.
  unfold _resizeIfNeeded. unfold bind at 1. unfold get at 1. rewrite N.
  pose proof (_resizeBuffers_sameSetup true s) as F1.
  pose proof (_resizeBuffers_sameHeap true s) as F2.
  rewrite E1 in F1, F2.
  destruct F1 as (C1 & P1 & _). destruct F2 as (So1 & H1).
  assert (Hs1 : forall ref, In ref (solids s1) -> is_Some (heap s1 !! ref)).
  { intros ref. rewrite So1, H1. apply Hs. }
  assert (Y : exists h',
             (s0 <- get ;;
              match _width s0 with
              | Some w0 =>
                  if truthy w0
                  then rescaleSolids
                         (width (config s0) / w0,
                          height (config s0) / numberOf (_height s0))
                  else ret tt
              | None => ret tt
              end) s1 = Ok tt (set_heap h' s1) /\
             (forall ref, is_Some (heap s1 !! ref) -> is_Some (h' !! ref))).
  { unfold bind, get.
    destruct (_width s1) as [w0|];
      [destruct (truthy w0)|];
      first [ apply rescaleSolids_run; exact Hs1
            | exists (heap s1); rewrite set_heap_same;
              split; [reflexivity | auto] ]. }
  destruct Y as (h' & E2 & K2).
  eexists. split.
  { apply wp_run_eq. apply wp_bind. eapply wp_of_eq; [exact E1|].
    apply wp_bind. eapply wp_of_eq; [exact E2|].
    apply wp_modify. split; reflexivity. }
  destruct Z1 as (d & v & p & dv & c & A1 & A2 & A3 & A4 & A5 & B).
  split.
  - unfold Ready.
    split; [change (_programs s1 = Programs.compiled); congruence|].
    split; [change (is_Some (_dye s1)); rewrite A1; eauto|].
    split; [change (is_Some (_velocity s1)); rewrite A2; eauto|].
    split; [change (is_Some (_pressure s1)); rewrite A3; eauto|].
    split; [change (is_Some (_divergence s1)); rewrite A4; eauto|].
    split; [change (is_Some (_curl s1)); rewrite A5; eauto|].
    intros ref Hin. change (is_Some (h' !! ref)). apply K2, Hs1, Hin.
  - exists d, v, p, dv, c.
    split; [exact A1|]. split; [exact A2|]. split; [exact A3|].
    split; [exact A4|]. split; [exact A5|]. exact B.
Qed.

(** [_resizeIfNeeded] returns on an instance that is set up or fresh from
    the constructor, and leaves it set up; when a dimension or a scale
    changed, the buffers are new and have the recorded sizes
    [width * scale] and [height * scale]. *)
Lemma _resizeIfNeeded_run s :
  Ready s \/ Fresh s ->
  exists s',
    _resizeIfNeeded s = Ok tt s' /\ Ready s' /\ sameSetup s s' /\
    if resizeNeeded s
    then sizedAs (width (config s) * simScale (config s))
                 (height (config s) * simScale (config s))
                 (width (config s) * dyeScale (config s))
                 (height (config s) * dyeScale (config s)) s'
    else s' = s.
Proof.
  intros H.
  assert (X : exists s',
             _resizeIfNeeded s = Ok tt s' /\ Ready s' /\
             if resizeNeeded s
             then sizedAs (width (config s) * simScale (config s))
                    (height (config s) * simScale (config s))
                    (width (config s) * dyeScale (config s))
                    (height (config s) * dyeScale (config s)) s'
             else s' = s).
  { destruct H as [HR|HF].
    - destruct (resizeNeeded s) eqn:N.
      + destruct HR as (Hp & [od Hd] & [ov Hv] & [op Hpr] & _ & _ & Hs).
        apply _resizeIfNeeded_resized; auto.
        destruct (_resizeBuffers_copy s od ov op Hp Hd Hv Hpr)
          as (s1 & nd & nv & np & cd & cv & cp & E1 & Z1 & _).
        exists s1. split; assumption.
      + exists s. split; [|split; [exact HR | reflexivity]].
        unfold _resizeIfNeeded. unfold bind at 1. unfold get at 1.
        rewrite N. reflexivity.
    - rewrite (resizeNeeded_fresh s HF).
      pose proof (resizeNeeded_fresh s HF) as N.
      destruct HF as (Hp & Hw & Hd & Hs).
      apply _resizeIfNeeded_resized; auto.
      destruct (_resizeBuffers_fresh s Hd) as (s1 & E1 & Z1 & _).
      exists s1. split; assumption. }
  destruct X as (s' & E & HR' & Z). exists s'.
  split; [exact E|]. split; [exact HR'|]. split; [|exact Z].
  pose proof (_resizeIfNeeded_sameSetup s) as F. rewrite E in F. exact F.
Qed.

(** *** The update loop *)

Lemma hookFine_None : hookFine None.
Proof. intros dt s HR. exists s. split; [reflexivity|]. split; [exact HR|]. reflexivity. Qed.

Lemma render_ready s :
  Ready s -> In (renderSource (config s)) renderSources ->
  exists s', render s = Ok tt s' /\ Ready s' /\ sameSetup s s'.
Proof.
  intros HR Hin. destruct (shownTexture_ready s HR Hin) as [f Hf].
  eexists. split.
  - apply (render_run s f); auto.
    eapply programs_lookup; [apply HR | apply compiled_lookup].
  - split; [exact HR | repeat split].
Qed.

(** One tick on a set-up instance returns; [step] was called once, with
    [updateDt], unless the simulation is paused. *)
Lemma _update_run fuel now now' k s :
  hookFine preRender -> hookFine postRender ->
  Ready s \/ Fresh s -> In (renderSource (config s)) renderSources ->
  pressureIterations (config s) = INR k ->
  (k < fuel)%nat -> (20 < fuel)%nat ->
  exists s',
    _update preRender postRender fuel now now' s = Ok (autoUpdate (config s)) s' /\
    stepCalls s'
    = stepCalls s ++ (if paused (config s) then [] else [updateDt s now]).
Proof.
  intros Hpre Hpost HR Hin Hk Hf Hf20.
  set (dt := updateDt s now).
  assert (HR0 : Ready (set__now (Some now) s)
               \/ Fresh (set__now (Some now) s)) by exact HR.
  destruct (_resizeIfNeeded_run _ HR0)
    as (s1 & E1 & HR1 & (C1 & _ & _ & _ & St1) & _).
  change (config s1 = config s) in C1.
  change (stepCalls s1 = stepCalls s) in St1.
  assert (X : exists s2,
             (s0 <- get ;; if paused (config s0) then ret tt
                           else step fuel dt) s1 = Ok tt s2 /\
             Ready s2 /\ config s2 = config s /\
             stepCalls s2
             = stepCalls s ++ (if paused (config s) then [] else [dt])).
  { unfold bind, get. rewrite C1.
    destruct (paused (config s)).
    - exists s1. split; [reflexivity|]. split; [exact HR1|].
      split; [exact C1|]. rewrite app_nil_r. exact St1.
    - destruct (step_run fuel dt k s1 HR1) as (s2 & E2 & HR2 & C2 & St2);
        try (congruence || lia).
      exists s2. split; [exact E2|]. split; [exact HR2|].
      split; congruence. }
  destruct X as (s2 & E2 & HR2 & C2 & St2).
  destruct (Hpre dt s2 HR2) as (s3 & E3 & HR3 & (C3 & _ & _ & _ & St3)).
  assert (Hin3 : In (renderSource (config s3)) renderSources)
    by (rewrite C3, C2; exact Hin).
  destruct (render_ready s3 HR3 Hin3)
    as (s4 & E4 & HR4 & (C4 & _ & _ & _ & St4)).
  destruct (Hpost dt s4 HR4) as (s5 & E5 & HR5 & (C5 & _ & _ & _ & St5)).
  eexists. split.
  - apply wp_run_eq. unfold _update. apply wp_bind, wp_get. fold dt.
    apply wp_bind, wp_modify.
    apply wp_bind. eapply wp_of_eq; [exact E1|].
    apply wp_bind. eapply wp_of_eq; [exact E2|].
    apply wp_bind. eapply wp_of_eq; [exact E3|].
    apply wp_bind. eapply wp_of_eq; [exact E4|].
    apply wp_bind. eapply wp_of_eq; [exact E5|].
    apply wp_bind, wp_get. apply wp_bind, wp_modify. apply wp_ret.
    split; [|reflexivity].
    rewrite C5, C4, C3, C2. reflexivity.
  - cbn [stepCalls set_updateTime]. congruence.
Qed.

(** *** Resizing and the update loop: the main statements *)

Lemma copyCall_fragment old t m c tex vUv :
  copyCall old t m c ->
  fragmentOf "transform" (dcUniforms c) tex vUv = mat4_mul m (tex 0%nat vUv).
Proof.
  intros (_ & Hv & Hu & _). unfold fragmentOf.
  cbn [String.eqb Ascii.eqb Bool.eqb]. rewrite Hv, Hu. reflexivity.
Qed.


(** C2 (amended).  On an instance that is set up, or fresh from the
    constructor, [_resizeIfNeeded] with a changed width, height or scale
    returns with five new buffers; the recorded size of the velocity,
    pressure, divergence and curl buffers is [width * simScale] by
    [height * simScale] and that of the dye buffer [width * dyeScale] by
    [height * dyeScale], the products as they are, with no rounding. *)
Theorem resize_records_scaled_sizes s :
  Ready s \/ Fresh s -> resizeNeeded s = true ->
  exists s',
    _resizeIfNeeded s = Ok tt s' /\ config s' = config s /\
    sizedAs (width (config s) * simScale (config s))
            (height (config s) * simScale (config s))
            (width (config s) * dyeScale (config s))
            (height (config s) * dyeScale (config s)) s'.
Proof.
  intros H N.
  destruct (_resizeIfNeeded_run s H) as (s' & E & _ & (C & _) & Z).
  rewrite N in Z. exists s'. split; [exact E|]. split; [exact C | exact Z].
Qed.

(** C3 (amended).  One tick of the update loop on an instance that is set
    up or fresh, not paused, with hooks that leave the record of calls
    alone, returns after exactly one call of [step].  Its argument is the
    smaller of [maxSimulationStep] and the elapsed time in seconds, or of
    [maxSimulationStep] and 1 when there is no previous tick.  So it never
    exceeds [maxSimulationStep]; it is at least 0 when [maxSimulationStep]
    is and the clock did not go back, and nothing else bounds it below. *)
Theorem update_step_argument fuel now now' k s :
  hookFine preRender -> hookFine postRender ->
  Ready s \/ Fresh s -> In (renderSource (config s)) renderSources ->
  paused (config s) = false ->
  pressureIterations (config s) = INR k ->
  (k < fuel)%nat -> (20 < fuel)%nat ->
  exists s' dt,
    _update preRender postRender fuel now now' s = Ok (autoUpdate (config s)) s' /\
    stepCalls s' = stepCalls s ++ [dt] /\
    dt = Rmin (match _now s with
               | Some t => if (t =? 0)%Z then 1 else IZR (now - t) / 1000
               | None => 1
               end) (maxSimulationStep (config s)) /\
    dt <= maxSimulationStep (config s) /\
    (0 <= maxSimulationStep (config s) ->
     (forall t, _now s = Some t -> (t <= now)%Z) -> 0 <= dt).
Proof.
  intros Hpre Hpost HR Hin Hpa Hk Hf Hf20.
  destruct (_update_run fuel now now' k s Hpre Hpost HR Hin Hk Hf Hf20)
    as (s' & E & St).
  rewrite Hpa in St.
  exists s', (updateDt s now). split; [exact E|]. split; [exact St|].
  split; [reflexivity|]. split; [apply updateDt_le|].
  apply updateDt_nonneg.
Qed.












(** *** The colour helper and the shaders *)

Lemma rem6_cases (i : Z) :
  (0 <= i)%Z ->
  Z.rem i 6 = 0%Z \/ Z.rem i 6 = 1%Z \/ Z.rem i 6 = 2%Z \/
  Z.rem i 6 = 3%Z \/ Z.rem i 6 = 4%Z \/ Z.rem i 6 = 5%Z.
Proof.
  intros H. pose proof (Z.rem_bound_pos i 6 H ltac:(lia)). lia.
Qed.

Lemma Int_part_nonneg x : 0 <= x -> (0 <= Int_part x)%Z.
Proof.
  intros H. destruct (base_Int_part x) as [_ H2].
  apply Z.lt_succ_r. apply lt_IZR. rewrite succ_IZR. lra.
Qed.

Lemma HSVtoRGB_components h s v :
  0 <= h ->
  exists r g b,
    HSVtoRGB h s v = Some [r; g; b] /\
    (0 <= s <= 1 -> 0 <= v ->
     v * (1 - s) <= r <= v /\ v * (1 - s) <= g <= v /\
     v * (1 - s) <= b <= v /\
     Rmax r (Rmax g b) = v /\ Rmin r (Rmin g b) = v * (1 - s)).
Proof.
  intros Hh. unfold HSVtoRGB. cbv zeta.
  set (i := Int_part (h * 6)).
  assert (Hi : (0 <= i)%Z) by (apply Int_part_nonneg; lra).
  destruct (base_Int_part (h * 6)) as [F1 F2]. fold i in F1, F2.
  set (f := h * 6 - IZR i).
  assert (Hf : 0 <= f < 1) by (unfold f; lra).
  assert (B : 0 <= s <= 1 -> 0 <= v ->
              v * (1 - s) <= v * (1 - f * s) <= v /\
              v * (1 - s) <= v * (1 - (1 - f) * s) <= v /\
              v * (1 - s) <= v).
  { intros Hs Hv.
    assert (0 <= v * s) by (apply Rmult_le_pos; lra).
    assert (0 <= v * s * f) by (apply Rmult_le_pos; lra).
    assert (0 <= v * s * (1 - f)) by (apply Rmult_le_pos; lra).
    repeat split; lra. }
  destruct (rem6_cases i Hi) as [E|[E|[E|[E|[E|E]]]]]; rewrite E;
    do 3 eexists; (split; [reflexivity|]); intros Hs Hv;
    destruct (B Hs Hv) as ((Q1 & Q2) & (T1 & T2) & P);
    clearbody f; clear B;
    generalize dependent (v * (1 - f * s)); intros q Q1 Q2;
    generalize dependent (v * (1 - (1 - f) * s)); intros t T1 T2;
    generalize dependent (v * (1 - s)); intros p P;
    unfold Rmax, Rmin;
    repeat match goal with
           | |- context [Rle_dec ?a ?b] => destruct (Rle_dec a b)
           | H : context [Rle_dec ?a ?b] |- _ => destruct (Rle_dec a b)
           end; repeat split; lra.
Qed.

(** For a hue that is not negative [HSVtoRGB] returns three numbers.  With
    a saturation in [0, 1] and a value that is not negative, each of them
    lies between [v * (1 - s)] and [v], and both bounds are attained: the
    largest component is the value. *)
Theorem HSVtoRGB_range h s v :
  0 <= h ->
  exists r g b,
    HSVtoRGB h s v = Some [r; g; b] /\
    (0 <= s <= 1 -> 0 <= v ->
     v * (1 - s) <= r <= v /\ v * (1 - s) <= g <= v /\
     v * (1 - s) <= b <= v /\
     Rmax r (Rmax g b) = v /\ Rmin r (Rmin g b) = v * (1 - s)).
Proof. exact (HSVtoRGB_components h s v). Qed.

(** [HSVtoRGB] leaves the three components undefined exactly when
    [floor(6 h)] is negative and no multiple of 6: the remainder is then
    negative and no case of the [switch] applies. *)
Theorem HSVtoRGB_undefined h s v :
  HSVtoRGB h s v = None <->
  (Int_part (h * 6) < 0)%Z /\ Z.rem (Int_part (h * 6)) 6 <> 0%Z.
Proof.
  unfold HSVtoRGB. set (i := Int_part (h * 6)). split.
  - intros H. destruct (Z_lt_le_dec i 0) as [Hneg|Hpos].
    + split; [exact Hneg|]. intros E. rewrite E in H. discriminate.
    + destruct (rem6_cases i Hpos) as [E|[E|[E|[E|[E|E]]]]];
        rewrite E in H; discriminate.
  - intros [Hneg Hne].
    pose proof (Z.rem_nonpos i 6 ltac:(lia) ltac:(lia)) as B.
    destruct (Z.rem i 6) as [|p|p]; [congruence|lia|reflexivity].
Qed.

(** The splat shader blends towards the colour and never past it: each
    channel it writes lies between the channel of the texel underneath and
    that of the colour, and alpha is 1. *)
Theorem splat_between uSource point transform cr cg cb vUv :
  let '(br, bg, bb) := xyz (uSource vUv) in
  let '(r, g, b, a) := splat_main uSource point transform (cr, cg, cb) vUv in
  Rmin br cr <= r <= Rmax br cr /\
  Rmin bg cg <= g <= Rmax bg cg /\
  Rmin bb cb <= b <= Rmax bb cb /\ a = 1.
Proof.
  unfold splat_main.
  destruct (xyz (uSource vUv)) as [[br bg] bb].
  set (p := mat2_mul transform _).
  assert (He : 0 < exp (- dot2 p p) <= 1).
  { split; [apply exp_pos|].
    assert (0 <= dot2 p p).
    { pose proof (Rle_0_sqr (fst p)) as S1.
      pose proof (Rle_0_sqr (snd p)) as S2.
      unfold Rsqr in S1, S2. unfold dot2. lra. }
    rewrite <- exp_0. destruct (Req_dec (dot2 p p) 0) as [->|Hne].
    - rewrite Ropp_0. lra.
    - left. apply exp_increasing. lra. }
  generalize dependent (exp (- dot2 p p)). intros e He.
  unfold Rmin, Rmax.
  repeat match goal with
         | |- context [Rle_dec ?a ?b] => destruct (Rle_dec a b)
         end; repeat split; nra.
Qed.

(** The ellipsis shader with the matrix [_drawSolid] builds,
    [splatTransform(0, r, r, W, H)], paints a disc: the fragment at (u, v)
    gets the colour when the pixel (u W, v H) is closer than [r] to the
    centre (x, y), and the texel underneath otherwise. *)
Theorem ellipsis_disc uSource x y r W H cr cg cb u v :
  0 < r -> W <> 0 -> H <> 0 ->
  ellipsis_main uSource (x / W, y / H) (splatTransform 0 r r W H)
                (cr, cg, cb) (u, v)
  = if Rlt_dec ((u * W - x) * (u * W - x) + (v * H - y) * (v * H - y))
               (r * r)
    then (cr, cg, cb, 1) else uSource (u, v).
Proof.
  intros Hr HW HH. unfold ellipsis_main, splatTransform, mat2_mul, dot2.
  cbn [fst snd at_ nth]. rewrite cos_0, sin_0.
  set (d := (u * W - x) * (u * W - x) + (v * H - y) * (v * H - y)).
  match goal with
  | |- context [sqrt ?e] =>
      replace e with (d / (r * r))
        by (unfold d; field; repeat split; first [assumption | lra])
  end.
  assert (Hd : 0 <= d).
  { pose proof (Rle_0_sqr (u * W - x)) as S1.
    pose proof (Rle_0_sqr (v * H - y)) as S2.
    unfold Rsqr in S1, S2. unfold d. lra. }
  assert (Hq : 0 <= d / (r * r)).
  { apply Rmult_le_pos; [exact Hd|]. left. apply Rinv_0_lt_compat. nra. }
  assert (K : sqrt (d / (r * r)) < 1 <-> d < r * r).
  { rewrite <- sqrt_1 at 1. split.
    - intros L. apply sqrt_lt_0_alt in L.
      apply (Rmult_lt_compat_r (r * r)) in L; [|nra].
      unfold Rdiv in L. rewrite Rmult_assoc, Rinv_l in L by nra. lra.
    - intros L. apply sqrt_lt_1_alt. split; [exact Hq|].
      apply (Rmult_lt_reg_r (r * r)); [nra|].
      unfold Rdiv. rewrite Rmult_assoc, Rinv_l by nra. lra. }
  destruct (Rlt_dec (sqrt (d / (r * r))) 1) as [L|L];
    destruct (Rlt_dec d (r * r)) as [L'|L']; try reflexivity;
    exfalso; tauto.
Qed.

(** *** [useProgram]: when it throws *)

Lemma bind_Ok {A B} (c : M World A) (k : A -> M World B) s a s1 :
  c s = Ok a s1 -> bind c k s = k a s1.
Proof. unfold bind. intros ->. reflexivity. Qed.

Lemma bind_Err {A B} (c : M World A) (k : A -> M World B) s e s1 :
  c s = Err e s1 -> bind c k s = Err e s1.
Proof. unfold bind. intros ->. reflexivity. Qed.

Lemma bind_Ok_inv {A B} (c : M World A) (k : A -> M World B) s b s' :
  bind c k s = Ok b s' -> exists a s1, c s = Ok a s1 /\ k a s1 = Ok b s'.
Proof.
  unfold bind. destruct (c s) as [a s1| |]; try discriminate. eauto.
Qed.

Lemma forOf_app {A} (l1 l2 : list A) (body : A -> M World unit) s :
  forOf (l1 ++ l2) body s
  = match forOf l1 body s with
    | Ok _ s1 => forOf l2 body s1
    | Err e s1 => Err e s1
    | Timeout => Timeout
    end.
Proof.
  revert s. induction l1 as [|x l1 IH]; intros s; [reflexivity|].
  cbn [app forOf]. unfold bind.
  destruct (body x s) as [[] s1|e s1|]; auto.
Qed.

Lemma argsOk_app prog l1 l2 :
  Programs.argsOk prog (l1 ++ l2)
  = Programs.argsOk prog l1 && Programs.argsOk prog l2.
Proof. unfold Programs.argsOk. apply forallb_app. Qed.

Lemma argsOk_false_split prog vals :
  Programs.argsOk prog vals = false ->
  exists done n v rest,
    vals = done ++ (n, v) :: rest /\
    Programs.argsOk prog done = true /\
    Programs.argsOk prog [(n, v)] = false.
Proof.
  induction vals as [|[n v] vals IH]; [discriminate|].
  intros H. destruct (Programs.argsOk prog [(n, v)]) eqn:E.
  - change ((n, v) :: vals) with ([(n, v)] ++ vals) in H.
    rewrite argsOk_app, E in H. cbn [andb] in H.
    destruct (IH H) as (done & n' & v' & rest & -> & Hd & Hb).
    exists ((n, v) :: done), n', v', rest. split; [reflexivity|].
    split; [|exact Hb].
    change ((n, v) :: done) with ([(n, v)] ++ done).
    rewrite argsOk_app, E, Hd. reflexivity.
  - exists [], n, v, vals. repeat split. exact E.
Qed.

Lemma useProgram_stops prog done n v rest s :
  Programs.argsOk prog done = true ->
  Programs.argsOk prog [(n, v)] = false ->
  exists msg,
    useProgram prog (done ++ (n, v) :: rest) s
    = Err (Thrown msg) (set__gl (useGL prog done (_gl s)) s).
Proof.
  intros Hd Hb. unfold useProgram.
  unfold bind at 1, liftGL at 1, modify at 1.
  rewrite forOf_app, useProgram_loop by exact Hd.
  cbn [forOf]. unfold bind at 1.
  unfold Programs.argsOk in Hb. cbn [forallb fst snd] in Hb.
  cbn [fst snd].
  destruct (puniforms prog !! n) as [[m size]|].
  - rewrite andb_true_r in Hb. rewrite Hb. eexists. reflexivity.
  - eexists. reflexivity.
Qed.

(** [useProgram] throws at the first entry the program has no uniform for,
    or whose number of components is not the declared one.  By then the
    program is the one in use and the entries before the offending one are
    set; no later entry is. *)
Theorem useProgram_first_bad_entry prog done n v rest s :
  Programs.argsOk prog done = true ->
  Programs.argsOk prog [(n, v)] = false ->
  exists msg,
    useProgram prog (done ++ (n, v) :: rest) s
    = Err (Thrown msg) (set__gl (useGL prog done (_gl s)) s).
Proof. exact (useProgram_stops prog done n v rest s). Qed.

(** [useProgram] returns exactly when every entry names a uniform of the
    program and has the declared number of components. *)
Theorem useProgram_returns_iff prog vals s :
  (exists s', useProgram prog vals s = Ok tt s') <->
  Programs.argsOk prog vals = true.
Proof.
  split.
  - intros [s' E]. destruct (Programs.argsOk prog vals) eqn:A; [reflexivity|].
    destruct (argsOk_false_split prog vals A)
      as (done & n & v & rest & -> & Hd & Hb).
    destruct (useProgram_stops prog done n v rest s Hd Hb)
      as [msg E'].
    rewrite E' in E. discriminate.
  - intros A. eexists. apply useProgram_run, A.
Qed.

(** *** Splats *)

Lemma splat_call vp t px py cr cg cb T g :
  exists c,
    drawLog
      (blitGL vp t
         (useGL (Programs.linked "splat" Programs.splatUniforms)
            [("uSource"%string, AUnit 0);
             ("point"%string, AArr [px; py]);
             ("color"%string, AArr [cr; cg; cb]);
             ("transform"%string, AF32 T)] g))
    = drawLog g ++ [c] /\
    dcProgram c = "splat"%string /\ dcTarget c = t /\ dcViewport c = vp /\
    dcUnits c = units g /\
    dcUniforms c !! "color"%string = Some (AArr [cr; cg; cb]) /\
    forall tex,
      fragmentOf "splat" (dcUniforms c) tex (px, py) = (cr, cg, cb, 1).
Proof.
  set (P := Programs.linked "splat" Programs.splatUniforms).
  set (vals := [("uSource"%string, AUnit 0);
                ("point"%string, AArr [px; py]);
                ("color"%string, AArr [cr; cg; cb]);
                ("transform"%string, AF32 T)]).
  assert (U : uniformsOf (useGL P vals g) "splat"
              = <["transform"%string := AF32 T]>
                  (<["color"%string := AArr [cr; cg; cb]]>
                     (<["point"%string := AArr [px; py]]>
                        (<["uSource"%string := AUnit 0]>
                           (uniformsOf g "splat"))))).
  { unfold useGL, vals. cbn [fold_left fst snd].
    change (name P) with "splat"%string.
    rewrite !uniformsOf_setUniform. reflexivity. }
  pose proof (drawLog_blit_use vp t P vals g) as L.
  change (name P) with "splat"%string in L. rewrite U in L.
  eexists. split; [exact L|]. cbn [dcProgram dcTarget dcViewport dcUnits
                                     dcUniforms].
  do 4 (split; [reflexivity|]). split.
  - rewrite lookup_insert_ne by discriminate. apply lookup_insert_eq.
  - intros tex. unfold fragmentOf. cbn [String.eqb Ascii.eqb Bool.eqb].
    rewrite (lookup_insert_ne _ "transform" "point") by discriminate.
    rewrite (lookup_insert_ne _ "color" "point") by discriminate.
    rewrite (lookup_insert_eq _ "point").
    rewrite (lookup_insert_ne _ "transform" "color") by discriminate.
    rewrite (lookup_insert_eq _ "color").
    cbn [argNums toVec2 toVec3 at_ nth].
    rewrite splat_centre. reflexivity.
Qed.


Lemma the_run {A} what (prop : World -> option A) a s :
  prop s = Some a -> the what prop s = Ok a s.
Proof. unfold the. intros ->. reflexivity. Qed.

(** [setDye] with a colour that has not exactly three components throws
    inside [use]: the splat program is in use and [uSource] and [point] are
    set, but nothing is drawn, no texture changes and the dye buffer is
    not swapped. *)
Theorem setDye_wrong_length random x y angle majorSize minorSize color s dye :
  _programs s = Programs.compiled -> _dye s = Some dye ->
  length color <> 3%nat ->
  exists msg s',
    setDye random x y angle majorSize minorSize (Some color) s
    = Err (Thrown msg) s' /\
    _dye s' = Some dye /\ drawsBetween s s' [] /\
    textures (_gl s') = textures (_gl s) /\
    program (_gl s') = Some "splat"%string.
Proof.
  intros Hp Hd Hlen.
  set (P := Programs.linked "splat" Programs.splatUniforms).
  set (s1 := set__gl (attach (DoubleTextureFBO.read dye) 0 (_gl s)) s).
  set (done := [("uSource"%string, AUnit 0);
                ("point"%string,
                 AArr [x / numberOf (_width s1); y / numberOf (_height s1)])]).
  destruct (useProgram_stops P done "color"
              (AArr (dyeColor color))
              [("transform"%string,
                AF32 (splatTransform (- angle) majorSize minorSize
                        (numberOf (_width s1)) (numberOf (_height s1))))]
              s1) as [msg E].
  { reflexivity. }
  { unfold Programs.argsOk. cbn [forallb fst snd].
    change (puniforms P !! "color"%string)
      with (Some ("uniform3f"%string, 3%nat)).
    cbn [argLength]. unfold dyeColor. rewrite length_map.
    rewrite andb_true_r. apply Nat.eqb_neq. exact Hlen. }
  exists msg. eexists. split.
  - unfold setDye.
    rewrite (bind_Ok _ _ s P s)
      by (apply the_run; rewrite Hp; apply compiled_lookup).
    rewrite (bind_Ok _ _ s dye s) by (apply the_run; exact Hd).
    rewrite (bind_Ok _ _ s tt s1) by reflexivity.
    rewrite (bind_Ok _ _ s1 s1 s1) by reflexivity.
    apply bind_Err. exact E.
  - destruct (useGL_fields P done (_gl s1)) as (F1 & _ & F3 & F4 & _).
    cbn [_dye _gl set__gl].
    split; [exact Hd|]. split.
    + unfold drawsBetween. cbn [_gl set__gl]. rewrite F3, app_nil_r.
      reflexivity.
    + split; [rewrite F4; reflexivity | exact F1].
Qed.

(** [setDye] without a colour takes [HSVtoRGB(Math.random(), 1, 1)]: for a
    random number that is not negative it returns after one splat whose
    colour is 2.72 times a fully saturated one, so its largest component
    is 2.72 and its smallest 0. *)
Theorem setDye_random_colour random x y angle majorSize minorSize s dye :
  _programs s = Programs.compiled -> _dye s = Some dye -> 0 <= random ->
  exists s' call r g b,
    setDye random x y angle majorSize minorSize None s = Ok tt s' /\
    drawsBetween s s' [call] /\
    _dye s' = Some (DoubleTextureFBO.swap dye) /\
    dcProgram call = "splat"%string /\
    dcUniforms call !! "color"%string
    = Some (AArr [r * 2.72; g * 2.72; b * 2.72]) /\
    Rmax r (Rmax g b) = 1 /\ Rmin r (Rmin g b) = 0.
Proof.
  intros Hp Hd Hr.
  destruct (HSVtoRGB_components random 1 1 Hr) as (r & g & b & Eh & Hb).
  destruct (Hb ltac:(lra) ltac:(lra)) as (_ & _ & _ & Hmax & Hmin).
  replace (1 * (1 - 1)) with 0 in Hmin by lra.
  set (g1 := attach (DoubleTextureFBO.read dye) 0 (_gl s)).
  set (vp := viewportOf (DoubleTextureFBO.write dye)).
  set (t := Some (TextureFBO.texture (DoubleTextureFBO.write dye))).
  destruct (splat_call vp t (x / numberOf (_width s))
              (y / numberOf (_height s)) (r * 2.72) (g * 2.72) (b * 2.72)
              (splatTransform (- angle) majorSize minorSize
                 (numberOf (_width s)) (numberOf (_height s))) g1)
    as (c & L & C1 & _ & _ & _ & C5 & _).
  revert L.
  match goal with
  | |- drawLog ?G0 = _ -> _ =>
      assert (E : setDye random x y angle majorSize minorSize None s
                  = Ok tt (set__dye (Some (DoubleTextureFBO.swap dye))
                             (set__gl G0 s)));
      [ | generalize dependent G0; intros G E L ]
  end.
  { apply wp_run_eq. unfold setDye. rewrite Eh. wp_go. split; reflexivity. }
  exists (set__dye (Some (DoubleTextureFBO.swap dye)) (set__gl G s)), c,
    r, g, b.
  split; [exact E|]. split; [exact L|]. split; [reflexivity|].
  split; [exact C1|]. split; [exact C5|]. split; [exact Hmax | exact Hmin].
Qed.

(** *** [reset] *)

Lemma createBuffers_textures sw sh dw dh s :
  exists s',
    createBuffers sw sh dw dh s = Ok tt s' /\
    textures (_gl s')
    = <[S (S (S (S (S (S (S (nextName (_gl s)))))))) :=
          blankImage sw sh R16F NEAREST]>
      (<[S (S (S (S (S (S (nextName (_gl s))))))) :=
           blankImage sw sh R16F NEAREST]>
      (<[S (S (S (S (S (nextName (_gl s)))))) :=
           blankImage sw sh R16F NEAREST]>
      (<[S (S (S (S (nextName (_gl s))))) :=
           blankImage sw sh R16F NEAREST]>
      (<[S (S (S (nextName (_gl s)))) := blankImage sw sh RG16F LINEAR]>
      (<[S (S (nextName (_gl s))) := blankImage sw sh RG16F LINEAR]>
      (<[S (nextName (_gl s)) := blankImage dw dh RGBA16F LINEAR]>
      (<[nextName (_gl s) := blankImage dw dh RGBA16F LINEAR]>
         (textures (_gl s))))))))) /\
    nextName (_gl s')
    = S (S (S (S (S (S (S (S (nextName (_gl s))))))))) /\
    drawLog (_gl s') = drawLog (_gl s) /\
    sizedAs sw sh dw dh s' /\
    heap s' = heap s /\ solids s' = solids s.
Proof.
  eexists. split; [reflexivity|].
  do 3 (split; [reflexivity|]). split; [|split; reflexivity].
  unfold sizedAs. do 5 eexists. repeat split.
Qed.

(** [reset()] creates the five buffers anew and blank, at the sizes
    [width * scale] by [height * scale], and draws nothing.  It deletes
    nothing either: every texture that existed is still there with its
    content, and the context holds eight textures more than before. *)
Theorem reset_keeps_old_textures s :
  (forall n, is_Some (textures (_gl s) !! n) -> (n < nextName (_gl s))%nat) ->
  exists s',
    reset s = Ok tt s' /\ drawsBetween s s' [] /\
    sizedAs (width (config s) * simScale (config s))
            (height (config s) * simScale (config s))
            (width (config s) * dyeScale (config s))
            (height (config s) * dyeScale (config s)) s' /\
    (forall n img, textures (_gl s) !! n = Some img ->
                   textures (_gl s') !! n = Some img) /\
    size (textures (_gl s')) = (size (textures (_gl s)) + 8)%nat /\
    heap s' = heap s /\ solids s' = solids s.
Proof.
  intros Hfresh.
  destruct (createBuffers_textures
              (width (config s) * simScale (config s))
              (height (config s) * simScale (config s))
              (width (config s) * dyeScale (config s))
              (height (config s) * dyeScale (config s)) s)
    as (s' & E & T & _ & L & Z & Hh & Hs).
  assert (Hnone : forall k, textures (_gl s) !! (k + nextName (_gl s))%nat
                            = None).
  { intros k. destruct (textures (_gl s) !! (k + nextName (_gl s))%nat)
      as [img|] eqn:Ek; [|reflexivity].
    assert (k + nextName (_gl s) < nextName (_gl s))%nat
      by (apply Hfresh; rewrite Ek; eauto). lia. }
  exists s'. split.
  { unfold reset, _resizeBuffers. apply wp_run_eq. apply wp_bind, wp_get.
    cbv zeta.
    destruct (_dye s);
      (apply wp_bind; eapply wp_of_eq; [exact E|]; cbn [forOf];
       apply wp_ret; split; reflexivity). }
  split; [unfold drawsBetween; rewrite app_nil_r; exact L|].
  split; [exact Z|]. split.
  { intros n img Hn. rewrite T.
    assert (n < nextName (_gl s))%nat by (apply Hfresh; rewrite Hn; eauto).
    rewrite !lookup_insert_ne by lia. exact Hn. }
  split; [|split; assumption].
  rewrite T.
  pose proof (Hnone 0%nat) as N0. pose proof (Hnone 1%nat) as N1.
  pose proof (Hnone 2%nat) as N2. pose proof (Hnone 3%nat) as N3.
  pose proof (Hnone 4%nat) as N4. pose proof (Hnone 5%nat) as N5.
  pose proof (Hnone 6%nat) as N6. pose proof (Hnone 7%nat) as N7.
  cbn [Nat.add] in *.
  repeat (rewrite map_size_insert_None;
          [|rewrite ?lookup_insert_ne by lia; assumption]).
  lia.
Qed.

(** *** [_resizeIfNeeded]: once is enough, and what it does to the solids *)

Lemma differs_same x : differs (Some x) x = false.
Proof. unfold differs. destruct (Req_dec_T x x); [reflexivity | contradiction]. Qed.

Lemma _resizeIfNeeded_synced s s' :
  _resizeIfNeeded s = Ok tt s' -> resizeNeeded s' = false.
Proof.
  unfold _resizeIfNeeded. unfold bind at 1, get at 1.
  destruct (resizeNeeded s) eqn:N.
  - intros H. apply bind_Ok_inv in H. destruct H as (a1 & s1 & _ & H).
    apply bind_Ok_inv in H. destruct H as (a2 & s2 & _ & H).
    unfold modify in H. injection H as <-.
    unfold resizeNeeded.
    cbn [_width _height _simScale _dyeScale config set__dyeScale
         set__simScale set__aspectRatio set__height set__width].
    rewrite !differs_same. reflexivity.
  - intros H. unfold ret in H. injection H as <-. exact N.
Qed.

(** After [_resizeIfNeeded] has returned, the private copies of width,
    height and the two scales agree with the options, and calling it again
    changes nothing. *)
Theorem _resizeIfNeeded_twice s :
  Ready s \/ Fresh s ->
  exists s',
    _resizeIfNeeded s = Ok tt s' /\
    resizeNeeded s' = false /\
    _resizeIfNeeded s' = Ok tt s'.
Proof.
  intros H. destruct (_resizeIfNeeded_run s H) as (s' & E & _).
  pose proof (_resizeIfNeeded_synced s s' E) as N.
  exists s'. split; [exact E|]. split; [exact N|].
  unfold _resizeIfNeeded. unfold bind at 1, get at 1. rewrite N. reflexivity.
Qed.

Lemma rescale_loop_exact scale l :
  forall s,
    List.NoDup l ->
    (forall ref, In ref l -> is_Some (heap s !! ref)) ->
    exists h',
      forOf l (fun ref => updateSolid ref (rescaleSolid scale)) s
      = Ok tt (set_heap h' s) /\
      (forall ref o, In ref l -> heap s !! ref = Some o ->
                     h' !! ref = Some (rescaleSolid scale o)) /\
      (forall ref, ~ In ref l -> h' !! ref = heap s !! ref).
Proof.
  induction l as [|ref l IH]; intros s Hnd Hl.
  - exists (heap s). rewrite set_heap_same. split; [reflexivity|].
    split; [intros ref o []|reflexivity].
  - inversion Hnd as [|? ? Hnin Hnd']; subst.
    destruct (Hl ref (or_introl eq_refl)) as [o Ho].
    set (s1 := set_heap (<[ref := rescaleSolid scale o]> (heap s)) s).
    assert (E : updateSolid ref (rescaleSolid scale) s = Ok tt s1).
    { unfold updateSolid, bind, the. rewrite Ho. reflexivity. }
    assert (K : forall r, r <> ref -> heap s1 !! r = heap s !! r).
    { intros r Hr. unfold s1. cbn [heap set_heap].
      apply lookup_insert_ne. congruence. }
    destruct (IH s1 Hnd') as (h' & E' & In' & Out').
    { intros r Hr. rewrite K; [apply Hl; now right|].
      intros ->. contradiction. }
    exists h'. split; [|split].
    + cbn [forOf]. unfold bind at 1. rewrite E. exact E'.
    + intros r o' [<-|Hr] Hro.
      * rewrite Out' by exact Hnin. unfold s1. cbn [heap set_heap].
        rewrite lookup_insert_eq. congruence.
      * apply In'; [exact Hr|]. rewrite K; [exact Hro|].
        intros ->. contradiction.
    + intros r Hr. rewrite Out'; [|intros Hin; apply Hr; now right].
      apply K. intros ->. apply Hr. now left.
Qed.

(** When the canvas or a scale changed after an earlier resize that
    recorded a width and a height other than 0, and no solid is listed
    twice, [_resizeIfNeeded] multiplies position and velocity of every
    solid of the list by new width over old width and new height over old
    height, and leaves its radius, density and mass as they are.  (A solid
    listed twice would be scaled twice.  Solids are taken to own their
    [position] and [velocity] arrays: an array shared by two solids is
    scaled once per solid that holds it.) *)
Theorem resize_rescales_solids s w0 h0 :
  Ready s -> resizeNeeded s = true ->
  _width s = Some w0 -> w0 <> 0 -> _height s = Some h0 -> h0 <> 0 ->
  List.NoDup (solids s) ->
  exists s',
    _resizeIfNeeded s = Ok tt s' /\
    (forall ref o, In ref (solids s) -> heap s !! ref = Some o ->
       heap s' !! ref
       = Some (mkSolid
                 (fst (position o) * (width (config s) / w0),
                  snd (position o) * (height (config s) / h0))
                 (fst (velocity o) * (width (config s) / w0),
                  snd (velocity o) * (height (config s) / h0))
                 (radius o) (density o) (mass o))).
Proof.
  intros HR N Hw Hw0 Hh _ Hnd.
  destruct HR as (Hp & [od Hd] & [ov Hv] & [op Hpr] & _ & _ & Hs).
  destruct (_resizeBuffers_copy s od ov op Hp Hd Hv Hpr)
    as (s1 & nd & nv & np & cd & cv & cp & E1 & _).
  pose proof (_resizeBuffers_sameSetup true s) as F1.
  pose proof (_resizeBuffers_sameHeap true s) as F2.
  pose proof (_resizeBuffers_sameDims true s) as F3.
  rewrite E1 in F1, F2, F3.
  destruct F1 as (C1 & _). destruct F2 as (So1 & H1).
  destruct F3 as (W1 & Hh1 & _).
  rewrite Hw in W1. rewrite Hh in Hh1.
  destruct (rescale_loop_exact
              (width (config s) / w0, height (config s) / h0)
              (solids s1) s1) as (h' & E2 & In2 & Out2).
  { rewrite So1. exact Hnd. }
  { intros ref. rewrite So1, H1. apply Hs. }
  eexists. split.
  { apply wp_run_eq. unfold _resizeIfNeeded. apply wp_bind, wp_get.
    rewrite N. apply wp_bind. eapply wp_of_eq; [exact E1|].
    apply wp_bind. apply wp_bind, wp_get. rewrite W1.
    replace (truthy w0) with true
      by (unfold truthy; destruct (Req_dec_T w0 0); [contradiction|reflexivity]).
    rewrite Hh1, C1. cbn [numberOf].
    eapply wp_of_eq; [exact E2|].
    apply wp_modify. split; reflexivity. }
  cbn [heap set_heap set__dyeScale set__simScale set__aspectRatio
       set__height set__width].
  rewrite So1, H1 in In2.
  intros ref o Hin Ho. rewrite (In2 ref o Hin Ho). reflexivity.
Qed.

(** *** Ticks one after the other *)

#[local] Instance sameClock_preorder : PreOrder sameClock.
Proof.
  split.
  - intros s. reflexivity.
  - intros s1 s2 s3 H1 H2. unfold sameClock in *. congruence.
Qed.

Lemma step_sameClock fuel dt : preserves sameClock (step fuel dt).
Proof.
  unfold step, curlPass, vorticityPass, divergencePass, dissipatePressure,
    pressureSolve, pressureIteration, gradientSubtractPass, advectVelocity,
    advectDye, _updateSolids, updateOneSolid, updateSolid, _drawSolid,
    useProgram, _blit, swapBuffer.
  pres ltac:(fields_leaf sameClock).
Qed.

(** One tick on an instance that is set up or fresh: it returns, leaves
    the instance set up with the same options, and has recorded the time
    it started at. *)
Lemma _update_tick fuel now now' k s :
  hookFine preRender -> hookFine postRender ->
  Ready s \/ Fresh s -> In (renderSource (config s)) renderSources ->
  pressureIterations (config s) = INR k ->
  (k < fuel)%nat -> (20 < fuel)%nat ->
  exists s',
    _update preRender postRender fuel now now' s
    = Ok (autoUpdate (config s)) s' /\
    Ready s' /\ config s' = config s /\ _now s' = Some now /\
    stepCalls s'
    = stepCalls s ++ (if paused (config s) then [] else [updateDt s now]).
Proof.
  intros Hpre Hpost HR Hin Hk Hf Hf20.
  set (dt := updateDt s now).
  assert (HR0 : Ready (set__now (Some now) s)
               \/ Fresh (set__now (Some now) s)) by exact HR.
  destruct (_resizeIfNeeded_run _ HR0)
    as (s1 & E1 & HR1 & (C1 & _ & _ & N1 & St1) & _).
  change (config s1 = config s) in C1.
  change (_now s1 = Some now) in N1.
  change (stepCalls s1 = stepCalls s) in St1.
  assert (X : exists s2,
             (s0 <- get ;; if paused (config s0) then ret tt
                           else step fuel dt) s1 = Ok tt s2 /\
             Ready s2 /\ config s2 = config s /\ _now s2 = Some now /\
             stepCalls s2
             = stepCalls s ++ (if paused (config s) then [] else [dt])).
  { unfold bind, get. rewrite C1.
    destruct (paused (config s)).
    - exists s1. split; [reflexivity|]. split; [exact HR1|].
      split; [exact C1|]. split; [exact N1|].
      rewrite app_nil_r. exact St1.
    - destruct (step_run fuel dt k s1 HR1) as (s2 & E2 & HR2 & C2 & St2);
        try (congruence || lia).
      pose proof (step_sameClock fuel dt s1) as K. rewrite E2 in K.
      exists s2. split; [exact E2|]. split; [exact HR2|].
      split; [congruence|]. split; [unfold sameClock in K|]; congruence. }
  destruct X as (s2 & E2 & HR2 & C2 & N2 & St2).
  destruct (Hpre dt s2 HR2) as (s3 & E3 & HR3 & (C3 & _ & _ & N3 & St3)).
  assert (Hin3 : In (renderSource (config s3)) renderSources)
    by (rewrite C3, C2; exact Hin).
  destruct (render_ready s3 HR3 Hin3)
    as (s4 & E4 & HR4 & (C4 & _ & _ & N4 & St4)).
  destruct (Hpost dt s4 HR4) as (s5 & E5 & HR5 & (C5 & _ & _ & N5 & St5)).
  eexists. split.
  - apply wp_run_eq. unfold _update. apply wp_bind, wp_get. fold dt.
    apply wp_bind, wp_modify.
    apply wp_bind. eapply wp_of_eq; [exact E1|].
    apply wp_bind. eapply wp_of_eq; [exact E2|].
    apply wp_bind. eapply wp_of_eq; [exact E3|].
    apply wp_bind. eapply wp_of_eq; [exact E4|].
    apply wp_bind. eapply wp_of_eq; [exact E5|].
    apply wp_bind, wp_get. apply wp_bind, wp_modify. apply wp_ret.
    split; [|reflexivity].
    rewrite C5, C4, C3, C2. reflexivity.
  - cbn [stepCalls config _now set_updateTime].
    split; [exact HR5|]. split; [congruence|]. split; congruence.
Qed.

(** Two ticks in a row, not paused: the second one calls [step] with the
    time between the starts of the two ticks, in seconds, or with
    [maxSimulationStep] if that is smaller.  The time the first tick took
    does not enter. *)
Theorem two_ticks_elapsed fuel t1 t1' t2 t2' k s :
  hookFine preRender -> hookFine postRender ->
  Ready s \/ Fresh s -> In (renderSource (config s)) renderSources ->
  paused (config s) = false ->
  pressureIterations (config s) = INR k ->
  (k < fuel)%nat -> (20 < fuel)%nat -> t1 <> 0%Z ->
  exists s1 s2 dt1,
    _update preRender postRender fuel t1 t1' s
    = Ok (autoUpdate (config s)) s1 /\
    _update preRender postRender fuel t2 t2' s1
    = Ok (autoUpdate (config s)) s2 /\
    stepCalls s2
    = stepCalls s
      ++ [dt1; Rmin (IZR (t2 - t1) / 1000) (maxSimulationStep (config s))].
Proof.
  intros Hpre Hpost HR Hin Hpa Hk Hf Hf20 Ht.
  destruct (_update_tick fuel t1 t1' k s Hpre Hpost HR Hin Hk Hf Hf20)
    as (s1 & E1 & HR1 & C1 & N1 & St1).
  rewrite <- C1 in Hin, Hk.
  destruct (_update_tick fuel t2 t2' k s1 Hpre Hpost (or_introl HR1)
              Hin Hk Hf Hf20)
    as (s2 & E2 & _ & _ & _ & St2).
  rewrite C1 in E2, St2. rewrite Hpa in St1, St2.
  exists s1, s2, (updateDt s t1).
  split; [exact E1|]. split; [exact E2|].
  rewrite St2, St1, <- app_assoc. cbn [app]. do 3 f_equal.
  unfold updateDt, Num.min. rewrite N1, C1.
  apply Z.eqb_neq in Ht. rewrite Ht. reflexivity.
Qed.

(** A tick of a paused instance does not call [step], but it does record
    the time, so the first tick after the pause measures from the last
    paused tick and not from before the pause. *)
Theorem paused_tick fuel now now' k s :
  hookFine preRender -> hookFine postRender ->
  Ready s \/ Fresh s -> In (renderSource (config s)) renderSources ->
  paused (config s) = true ->
  pressureIterations (config s) = INR k ->
  (k < fuel)%nat -> (20 < fuel)%nat ->
  exists s',
    _update preRender postRender fuel now now' s
    = Ok (autoUpdate (config s)) s' /\
    stepCalls s' = stepCalls s /\ _now s' = Some now.
Proof.
  intros Hpre Hpost HR Hin Hpa Hk Hf Hf20.
  destruct (_update_tick fuel now now' k s Hpre Hpost HR Hin Hk Hf Hf20)
    as (s' & E & _ & _ & N & St).
  rewrite Hpa, app_nil_r in St.
  exists s'. split; [exact E|]. split; [exact St | exact N].
Qed.

(** *** What allocates and what does not *)

#[local] Instance sameTextureNames_preorder : PreOrder sameTextureNames.
Proof.
  split.
  - intros s. split; [tauto | reflexivity].
  - intros s1 s2 s3 [A1 B1] [A2 B2]. split; [|congruence].
    intros n. rewrite A2. apply A1.
Qed.

Lemma drawElements_names g n :
  is_Some (textures (drawElements g) !! n) <-> is_Some (textures g !! n).
Proof.
  unfold drawElements. destruct (program g); [|tauto].
  cbn [textures set_drawLog].
  destruct (framebuffer g) as [t|]; [|cbn [textures set_canvas]; tauto].
  destruct (textures g !! t) as [img|] eqn:E; [|tauto].
  cbn [textures set_textures].
  destruct (decide (t = n)) as [->|Hne].
  - rewrite lookup_insert_eq, E. split; eauto.
  - rewrite lookup_insert_ne by exact Hne. tauto.
Qed.

Lemma drawElements_nextName g : nextName (drawElements g) = nextName g.
Proof.
  unfold drawElements. destruct (program g); [|reflexivity].
  destruct (framebuffer g) as [t|]; [|reflexivity].
  destruct (textures g !! t); reflexivity.
Qed.

Lemma uniform1i_textures p u i g :
  textures (uniform1i p u i g) = textures g /\
  nextName (uniform1i p u i g) = nextName g.
Proof.
  unfold uniform1i. destruct (program g) as [cur|]; [|split; reflexivity].
  destruct (String.eqb cur (name p)); split; reflexivity.
Qed.

Ltac names_leaf :=
  unfold liftGL; apply (preserves_modify sameTextureNames); intros ?;
  cbv beta iota delta [setBuffer];
  split;
  [ intros ?; cbn [_gl set__gl set__dye set__velocity set__pressure
                   set_heap set_stepCalls];
    first [ tauto
          | rewrite drawElements_names; tauto
          | rewrite (proj1 (uniform1i_textures _ _ _ _)); tauto ]
  | cbn [_gl set__gl set__dye set__velocity set__pressure set_heap
         set_stepCalls];
    first [ reflexivity
          | rewrite drawElements_nextName; reflexivity
          | apply uniform1i_textures ] ].

Lemma step_sameTextureNames fuel dt :
  preserves sameTextureNames (step fuel dt).
Proof.
  unfold step, curlPass, vorticityPass, divergencePass, dissipatePressure,
    pressureSolve, pressureIteration, gradientSubtractPass, advectVelocity,
    advectDye, _updateSolids, updateOneSolid, updateSolid, _drawSolid,
    useProgram, _blit, swapBuffer.
  pres names_leaf.
Qed.

Lemma render_sameTextureNames : preserves sameTextureNames render.
Proof. unfold render, useProgram, _blit. pres names_leaf. Qed.

Lemma setDye_sameTextureNames random x y angle majorSize minorSize color :
  preserves sameTextureNames
    (setDye random x y angle majorSize minorSize color).
Proof. unfold setDye, useProgram, _blit, swapBuffer. pres names_leaf. Qed.

Lemma setVelocity_sameTextureNames x y angle majorSize minorSize dx dy :
  preserves sameTextureNames
    (setVelocity x y angle majorSize minorSize dx dy).
Proof. unfold setVelocity, useProgram, _blit, swapBuffer. pres names_leaf. Qed.

(** [step], [render], [setDye] and [setVelocity] create no texture and
    delete none, whichever way they end: all they do to the textures is
    draw into existing ones.  On a set-up instance [step] does return. *)
Theorem drawing_allocates_nothing fuel dt k s :
  (forall c : M World unit,
     In c [step fuel dt; render] \/
     (exists random x y angle majorSize minorSize color,
        c = setDye random x y angle majorSize minorSize color) \/
     (exists x y angle majorSize minorSize dx dy,
        c = setVelocity x y angle majorSize minorSize dx dy) ->
     match c s with
     | Ok _ s' => sameTextureNames s s'
     | Err _ s' => sameTextureNames s s'
     | Timeout => True
     end) /\
  (Ready s -> pressureIterations (config s) = INR k ->
   (k < fuel)%nat -> (20 < fuel)%nat ->
   exists s', step fuel dt s = Ok tt s' /\ sameTextureNames s s').
Proof.
  assert (A : forall c : M World unit,
     In c [step fuel dt; render] \/
     (exists random x y angle majorSize minorSize color,
        c = setDye random x y angle majorSize minorSize color) \/
     (exists x y angle majorSize minorSize dx dy,
        c = setVelocity x y angle majorSize minorSize dx dy) ->
     match c s with
     | Ok _ s' => sameTextureNames s s'
     | Err _ s' => sameTextureNames s s'
     | Timeout => True
     end).
  { intros c [[<-|[<-|[]]]|[H|H]].
    - apply step_sameTextureNames.
    - apply render_sameTextureNames.
    - destruct H as (random & x & y & a & M0 & m0 & color & ->).
      apply setDye_sameTextureNames.
    - destruct H as (x & y & a & M0 & m0 & dx & dy & ->).
      apply setVelocity_sameTextureNames. }
  split; [exact A|].
  intros HR Hk Hf Hf20.
  destruct (step_run fuel dt k s HR Hk Hf Hf20) as (s' & E & _).
  exists s'. split; [exact E|].
  specialize (A (step fuel dt) (or_introl (or_introl eq_refl))).
  rewrite E in A. exact A.
Qed.

(** *** The programs [step] runs, in order *)

Lemma passed_refl s : passed [] s s.
Proof.
  split; [|split; reflexivity]. exists []. split; [|reflexivity].
  unfold drawsBetween. now rewrite app_nil_r.
Qed.

Lemma passed_trans n1 n2 s1 s2 s3 :
  passed n1 s1 s2 -> passed n2 s2 s3 -> passed (n1 ++ n2) s1 s3.
Proof.
  intros ((l1 & L1 & M1) & C1 & S1) ((l2 & L2 & M2) & C2 & S2).
  split; [|split; congruence].
  exists (l1 ++ l2). split.
  - unfold drawsBetween in *. rewrite L2, L1, app_assoc. reflexivity.
  - rewrite map_app, M1, M2. reflexivity.
Qed.

Lemma pass_by_wp names (c : M World unit) :
  (forall s, Ready s -> wp c (fun _ s' => Ready s' /\ passed names s s') s) ->
  pass names c.
Proof.
  intros H s HR. destruct (wp_run _ _ _ (H s HR)) as ([] & s' & E & HQ).
  exists s'. split; auto.
Qed.

Lemma wp_pass names (c : M World unit) Q s :
  pass names c -> Ready s ->
  (forall s', Ready s' -> passed names s s' -> Q tt s') -> wp c Q s.
Proof.
  intros Hc HR HQ. destruct (Hc s HR) as (s' & E & HR' & Hp).
  eapply wp_of_eq; eauto.
Qed.

Lemma one_draw_passed n s s' g p vals vp t :
  _gl s' = blitGL vp t (useGL p vals g) ->
  drawLog g = drawLog (_gl s) ->
  name p = n ->
  config s' = config s -> solids s' = solids s ->
  passed [n] s s'.
Proof.
  intros Hs Hg Hn Hc Hso. split; [|split; assumption].
  eexists. split.
  - unfold drawsBetween. rewrite Hs, drawLog_blit_use, Hg. reflexivity.
  - cbn. rewrite Hn. reflexivity.
Qed.

Ltac pass_finish :=
  split;
  [ ready_solve
  | eapply one_draw_passed; reflexivity ].

Ltac pass_one :=
  apply pass_by_wp; intros ? ?;
  match goal with H : Ready _ |- _ => ready_intro H end;
  wp_go; pass_finish.

Lemma curlPass_pass : pass ["curl"%string] curlPass.
Proof. unfold curlPass. pass_one. Qed.

Lemma vorticityPass_pass dt : pass ["vorticity"%string] (vorticityPass dt).
Proof. unfold vorticityPass. pass_one. Qed.

Lemma divergencePass_pass : pass ["divergence"%string] divergencePass.
Proof. unfold divergencePass. pass_one. Qed.

Lemma gradientSubtractPass_pass :
  pass ["gradientSubtract"%string] gradientSubtractPass.
Proof. unfold gradientSubtractPass. pass_one. Qed.

Lemma advectVelocity_pass dt : pass ["advection"%string] (advectVelocity dt).
Proof. unfold advectVelocity. pass_one. Qed.

Lemma advectDye_pass dt : pass ["advection"%string] (advectDye dt).
Proof. unfold advectDye. pass_one. Qed.

Lemma _drawSolid_pass solid r g b :
  pass ["ellipsis"%string] (_drawSolid solid Velocity [r; g; b]).
Proof. unfold _drawSolid. pass_one. Qed.

Lemma dissipatePressure_pass dt s :
  Ready s ->
  exists s',
    dissipatePressure dt s = Ok tt s' /\ Ready s' /\
    passed (if truthy (pressureDissipation (config s))
            then ["transform"%string] else []) s s'.
Proof.
  intros HR.
  assert (W : wp (dissipatePressure dt)
                (fun _ s' =>
                   Ready s' /\
                   passed (if truthy (pressureDissipation (config s))
                           then ["transform"%string] else []) s s') s).
  { ready_intro HR. unfold dissipatePressure. apply wp_bind, wp_get.
    destruct (truthy (pressureDissipation (config s))).
    - wp_go. pass_finish.
    - apply wp_ret. split; [exact HR | apply passed_refl]. }
  destruct (wp_run _ _ _ W) as ([] & s' & E & HQ). exists s'. split; auto.
Qed.

Lemma jacobi_names d calls :
  forall pr,
    (forall j c, nth_error calls j = Some c ->
                 isJacobi d (Nat.iter j DoubleTextureFBO.swap pr) c) ->
    map dcProgram calls = repeat "pressure"%string (length calls).
Proof.
  induction calls as [|c calls IH]; intros pr J; [reflexivity|].
  cbn [map repeat length]. f_equal.
  - destruct (J 0%nat c eq_refl) as [Hc _]. exact Hc.
  - apply (IH (DoubleTextureFBO.swap pr)).
    intros j c' Hj. specialize (J (S j) c' Hj).
    rewrite Nat.iter_succ_r in J. exact J.
Qed.

Lemma pressureSolve_pass fuel k s :
  Ready s -> pressureIterations (config s) = INR k -> (k < fuel)%nat ->
  exists s',
    pressureSolve fuel s = Ok tt s' /\ Ready s' /\
    passed (repeat "pressure"%string k) s s'.
Proof.
  intros HR Hk Hf.
  pose proof HR as (_ & _ & _ & [pr Hpr] & [d Hd] & _).
  destruct (pressureSolve_spec fuel k s pr d HR Hpr Hd Hk Hf)
    as (s' & calls & E & HR' & C & So & _ & _ & L & N & J).
  exists s'. split; [exact E|]. split; [exact HR'|].
  split; [|split; assumption]. exists calls. split; [exact L|].
  rewrite <- N. exact (jacobi_names d calls pr J).
Qed.

Lemma updateOneSolid_pass fuel dt ref s :
  (20 < fuel)%nat -> Ready s -> In ref (solids s) ->
  exists s', updateOneSolid fuel dt ref s = Ok tt s' /\ Ready s' /\
             passed ["ellipsis"%string] s s'.
Proof.
  intros Hfuel HR Hin.
  assert (W : wp (updateOneSolid fuel dt ref)
                (fun _ s' => Ready s' /\ passed ["ellipsis"%string] s s') s).
  { ready_intro HR.
    match goal with
    | H : forall ref, In ref (solids s) -> _ |- _ =>
        destruct (H ref Hin) as [o Ho]
    end.
    unfold updateOneSolid. wp_go. cbv zeta.
    match goal with
    | |- context [pressureSum fuel 0 (PI * 2 / 20) ?c ?r ?n ?p 0 0] =>
        destruct (pressureSum_from_zero fuel c r n p Hfuel) as [[dx dy] E];
        rewrite E
    end.
    wp_go.
    eapply wp_pass; [apply _drawSolid_pass | | ].
    - unfold Ready. norm_state. repeat split; eauto.
      intros r Hr. rewrite lookup_insert.
      destruct (decide (ref = r)); unfold is_Some; eauto.
    - intros s' HR' Hq. split; [exact HR'|].
      eapply (passed_trans [] ["ellipsis"%string]); [|exact Hq].
      split; [|split; reflexivity]. exists []. split; [|reflexivity].
      unfold drawsBetween. norm_state. cbn. now rewrite app_nil_r. }
  destruct (wp_run _ _ _ W) as ([] & s' & E & HQ). exists s'. split; auto.
Qed.

Lemma solids_loop_pass fuel dt l s :
  (20 < fuel)%nat -> Ready s -> incl l (solids s) ->
  exists s', forOf l (updateOneSolid fuel dt) s = Ok tt s' /\ Ready s' /\
             passed (repeat "ellipsis"%string (length l)) s s'.
Proof.
  intros Hfuel. revert s. induction l as [|ref l IH]; intros s HR Hl.
  - exists s. split; [reflexivity|]. split; [exact HR | apply passed_refl].
  - destruct (updateOneSolid_pass fuel dt ref s Hfuel HR)
      as (s1 & E1 & HR1 & Q1).
    { apply Hl. now left. }
    destruct (IH s1 HR1) as (s2 & E2 & HR2 & Q2).
    { destruct Q1 as (_ & _ & ->). intros x Hx. apply Hl. now right. }
    exists s2. simpl. unfold bind. rewrite E1. split; [exact E2|].
    split; [exact HR2|].
    exact (passed_trans ["ellipsis"%string] _ s s1 s2 Q1 Q2).
Qed.

(** From a set-up instance [step(dt)] returns after running, in this
    order: curl, vorticity, divergence, the transform program once if
    [pressureDissipation] is not 0, the pressure program
    [pressureIterations] times, gradient-subtract, advection twice
    (velocity, then dye), and the ellipsis program once per solid.  It
    draws nothing else. *)
Theorem step_pass_order fuel dt k s :
  Ready s -> pressureIterations (config s) = INR k ->
  (k < fuel)%nat -> (20 < fuel)%nat ->
  exists s' new,
    step fuel dt s = Ok tt s' /\ drawsBetween s s' new /\
    map dcProgram new
    = ["curl"; "vorticity"; "divergence"]%string
      ++ (if truthy (pressureDissipation (config s))
          then ["transform"%string] else [])
      ++ repeat "pressure"%string k
      ++ ["gradientSubtract"; "advection"; "advection"]%string
      ++ repeat "ellipsis"%string (length (solids s)).
Proof.
  intros HR Hk Hf Hf20.
  assert (W : wp (step fuel dt)
                (fun _ s' =>
                   passed
                     (["curl"; "vorticity"; "divergence"]%string
                      ++ (if truthy (pressureDissipation (config s))
                          then ["transform"%string] else [])
                      ++ repeat "pressure"%string k
                      ++ ["gradientSubtract"; "advection";
                          "advection"]%string
                      ++ repeat "ellipsis"%string (length (solids s)))
                     s s') s).
  { unfold step. wp_go.
    match goal with
    | |- wp _ _ ?st =>
        assert (HR0 : Ready st) by exact HR;
        assert (P0 : passed [] s st)
          by (split; [exists []; split;
                       [unfold drawsBetween; cbn; now rewrite app_nil_r
                       | reflexivity]
                     | split; reflexivity]);
        set (s0 := st) in *; clearbody s0
    end.
    wp_open. eapply wp_pass; [apply curlPass_pass | eassumption |].
    intros s1 HR1 P1.
    wp_open. eapply wp_pass; [apply vorticityPass_pass | eassumption |].
    intros s2 HR2 P2.
    wp_open. eapply wp_pass; [apply divergencePass_pass | eassumption |].
    intros s3 HR3 P3.
    pose proof (passed_trans _ _ _ _ _
                  (passed_trans _ _ _ _ _
                     (passed_trans _ _ _ _ _ P0 P1) P2) P3) as P03.
    cbn [app] in P03.
    destruct (dissipatePressure_pass dt s3 HR3) as (s4 & E4 & HR4 & P4).
    assert (C3 : config s3 = config s) by apply P03.
    rewrite C3 in P4.
    wp_open. eapply wp_of_eq; [exact E4|].
    assert (C4 : config s4 = config s)
      by (destruct P4 as (_ & -> & _); exact C3).
    destruct (pressureSolve_pass fuel k s4 HR4) as (s5 & E5 & HR5 & P5);
      [congruence | exact Hf |].
    wp_open. eapply wp_of_eq; [exact E5|].
    wp_open. eapply wp_pass; [apply gradientSubtractPass_pass | eassumption |].
    intros s6 HR6 P6.
    wp_open. eapply wp_pass; [apply advectVelocity_pass | eassumption |].
    intros s7 HR7 P7.
    wp_open. eapply wp_pass; [apply advectDye_pass | eassumption |].
    intros s8 HR8 P8.
    pose proof (passed_trans _ _ _ _ _
                  (passed_trans _ _ _ _ _
                     (passed_trans _ _ _ _ _
                        (passed_trans _ _ _ _ _
                           (passed_trans _ _ _ _ _ P03 P4) P5) P6) P7) P8)
      as P08.
    assert (So8 : solids s8 = solids s) by apply P08.
    destruct (solids_loop_pass fuel dt (solids s8) s8 Hf20 HR8
                (incl_refl _)) as (s9 & E9 & HR9 & P9).
    unfold _updateSolids. apply wp_bind, wp_get.
    eapply wp_of_eq; [exact E9|].
    rewrite So8 in P9.
    pose proof (passed_trans _ _ _ _ _ P08 P9) as P09.
    rewrite <- !app_assoc in P09. cbn [app] in P09. exact P09. }
  destruct (wp_run _ _ _ W) as ([] & s' & E & ((new & L & M0) & _)).
  exists s', new. split; [exact E|]. split; [exact L | exact M0].
Qed.

(** *** Which velocity the dye is advected with *)

Lemma blitGL_fields vp t g :
  uniforms (blitGL vp t g) = uniforms g /\ units (blitGL vp t g) = units g.
Proof.
  unfold blitGL.
  destruct (drawElements_fields (set_viewport vp (set_framebuffer t g)))
    as (_ & U & N & _).
  rewrite U, N. split; reflexivity.
Qed.

Lemma drawLog_attach f i g : drawLog (attach f i g) = drawLog g.
Proof. reflexivity. Qed.

Lemma units_attach f i g :
  units (attach f i g) = <[i := TextureFBO.texture f]> (units g).
Proof. reflexivity. Qed.

Lemma uniformsOf_attach f i g n : uniformsOf (attach f i g) n = uniformsOf g n.
Proof. reflexivity. Qed.

Lemma uniformsOf_blitGL vp t g n :
  uniformsOf (blitGL vp t g) n = uniformsOf g n.
Proof. unfold uniformsOf. rewrite (proj1 (blitGL_fields vp t g)). reflexivity. Qed.

Lemma uniformsOf_set_program p g n :
  uniformsOf (set_program p g) n = uniformsOf g n.
Proof. reflexivity. Qed.

Lemma advection_run dt s v dye :
  Ready s -> _velocity s = Some v -> _dye s = Some dye ->
  exists sf,
    (advectVelocity dt ;;; advectDye dt) s = Ok tt sf /\
    _gl sf = dyeAdvectionGL dt (config s) dye
               (velocityAdvectionGL dt (config s) v (_gl s)) /\
    _velocity sf = Some (DoubleTextureFBO.swap v) /\
    _dye sf = Some (DoubleTextureFBO.swap dye).
Proof.
  intros HR Hv Hd. destruct HR as (Hprog & _). eexists. split.
  - apply wp_run_eq. unfold advectVelocity, advectDye. wp_go.
    split; reflexivity.
  - norm_state. unfold dyeAdvectionGL, velocityAdvectionGL, viewportOf.
    split; [reflexivity|]. split; reflexivity.
Qed.

Lemma velocityAdvectionGL_fields dt c v g :
  drawLog (velocityAdvectionGL dt c v g)
  = drawLog g
    ++ [mkDraw "advection"
          (uniformsOf (velocityAdvectionGL dt c v g) "advection")
          (units (velocityAdvectionGL dt c v g))
          (Some (TextureFBO.texture (DoubleTextureFBO.write v)))
          (viewportOf (DoubleTextureFBO.write v))] /\
  units (velocityAdvectionGL dt c v g)
  = <[0%nat := TextureFBO.texture (DoubleTextureFBO.read v)]> (units g) /\
  uniformsOf (velocityAdvectionGL dt c v g) "advection"
  = <["scale"%string := ANum (1 - velocityDissipation c * dt)]>
      (<["dt"%string := ANum dt]>
         (<["texelSize"%string := texelArg (DoubleTextureFBO.texelSize v)]>
            (<["uSource"%string := AUnit 0]>
               (<["uVelocity"%string := AUnit 0]>
                  (uniformsOf g "advection"))))).
Proof.
  unfold velocityAdvectionGL.
  set (P := Programs.linked "advection" Programs.advectionUniforms).
  set (vals := [("uVelocity"%string, AUnit 0); ("uSource"%string, AUnit 0);
                ("texelSize"%string,
                 texelArg (DoubleTextureFBO.texelSize v));
                ("dt"%string, ANum dt);
                ("scale"%string, ANum (1 - velocityDissipation c * dt))]).
  assert (N : units (blitGL (viewportOf (DoubleTextureFBO.write v))
                       (Some (TextureFBO.texture (DoubleTextureFBO.write v)))
                       (useGL P vals (attach (DoubleTextureFBO.read v) 0 g)))
              = <[0%nat := TextureFBO.texture (DoubleTextureFBO.read v)]>
                  (units g)).
  { rewrite (proj2 (blitGL_fields _ _ _)).
    destruct (useGL_fields P vals (attach (DoubleTextureFBO.read v) 0 g))
      as (_ & -> & _).
    apply units_attach. }
  assert (U : uniformsOf
                (useGL P vals (attach (DoubleTextureFBO.read v) 0 g))
                "advection"
              = <["scale"%string := ANum (1 - velocityDissipation c * dt)]>
                  (<["dt"%string := ANum dt]>
                     (<["texelSize"%string :=
                          texelArg (DoubleTextureFBO.texelSize v)]>
                        (<["uSource"%string := AUnit 0]>
                           (<["uVelocity"%string := AUnit 0]>
                              (uniformsOf g "advection")))))).
  { unfold useGL, vals. cbn [fold_left fst snd].
    change (name P) with "advection"%string.
    rewrite !uniformsOf_setUniform, uniformsOf_set_program,
      uniformsOf_attach. reflexivity. }
  split; [|split; [exact N|]].
  - rewrite drawLog_blit_use, drawLog_attach.
    change (name P) with "advection"%string.
    rewrite uniformsOf_blitGL, N.
    rewrite units_attach. reflexivity.
  - rewrite uniformsOf_blitGL. exact U.
Qed.

Lemma dyeAdvectionGL_log dt c dye g :
  drawLog (dyeAdvectionGL dt c dye g)
  = drawLog g
    ++ [mkDraw "advection"
          (<["scale"%string := ANum (1 - dyeDissipation c * dt)]>
             (<["uSource"%string := AUnit 1]> (uniformsOf g "advection")))
          (<[1%nat := TextureFBO.texture (DoubleTextureFBO.read dye)]>
             (units g))
          (Some (TextureFBO.texture (DoubleTextureFBO.write dye)))
          (viewportOf (DoubleTextureFBO.write dye))].
Proof.
  unfold dyeAdvectionGL.
  set (P := Programs.linked "advection" Programs.advectionUniforms).
  set (vals := [("uSource"%string, AUnit 1);
                ("scale"%string, ANum (1 - dyeDissipation c * dt))]).
  rewrite drawLog_blit_use, drawLog_attach.
  change (name P) with "advection"%string.
  rewrite units_attach. do 3 f_equal.
  unfold useGL, vals. cbn [fold_left fst snd].
  change (name P) with "advection"%string.
  rewrite !uniformsOf_setUniform, uniformsOf_set_program, uniformsOf_attach.
  reflexivity.
Qed.

(** The two advection passes of [step].  The dye pass sets only [uSource]
    and [scale]; [uVelocity], [texelSize] and [dt] are those the velocity
    pass has set, and unit 0 still holds the texture the velocity pass read
    from.  So the dye is carried along the velocity field as it was before
    its own advection: after the swap that texture is the writable side of
    the velocity buffer, not the readable one. *)
Theorem dye_advection_velocity dt s v dye :
  Ready s -> _velocity s = Some v -> _dye s = Some dye ->
  exists s' cv cd,
    (advectVelocity dt ;;; advectDye dt) s = Ok tt s' /\
    drawsBetween s s' [cv; cd] /\
    _velocity s' = Some (DoubleTextureFBO.swap v) /\
    _dye s' = Some (DoubleTextureFBO.swap dye) /\
    dcTarget cv = Some (TextureFBO.texture (DoubleTextureFBO.write v)) /\
    dcProgram cd = "advection"%string /\
    dcTarget cd = Some (TextureFBO.texture (DoubleTextureFBO.write dye)) /\
    dcUniforms cd !! "uVelocity"%string = Some (AUnit 0) /\
    dcUniforms cd !! "uSource"%string = Some (AUnit 1) /\
    dcUniforms cd !! "texelSize"%string
    = Some (texelArg (DoubleTextureFBO.texelSize v)) /\
    dcUniforms cd !! "dt"%string = Some (ANum dt) /\
    dcUniforms cd !! "scale"%string
    = Some (ANum (1 - dyeDissipation (config s) * dt)) /\
    dcUnits cd !! 0%nat
    = Some (TextureFBO.texture (DoubleTextureFBO.read v)) /\
    dcUnits cd !! 1%nat
    = Some (TextureFBO.texture (DoubleTextureFBO.read dye)).
Proof.
  intros HR Hv Hd.
  destruct (advection_run dt s v dye HR Hv Hd) as (sf & E & Hgl & Hvel & Hdye).
  destruct (velocityAdvectionGL_fields dt (config s) v (_gl s))
    as (L1 & N1 & U1).
  pose proof (dyeAdvectionGL_log dt (config s) dye
                (velocityAdvectionGL dt (config s) v (_gl s))) as L2.
  rewrite <- Hgl in L2. rewrite L1 in L2 at 1. rewrite <- app_assoc in L2.
  rewrite U1, N1 in L2. clear Hgl L1.
  exists sf. eexists. eexists. split; [exact E|].
  split; [exact L2|]. split; [exact Hvel|]. split; [exact Hdye|].
  cbn [dcProgram dcTarget dcUniforms dcUnits].
  do 3 (split; [reflexivity|]).
  split; [rewrite !lookup_insert_ne by discriminate; apply lookup_insert_eq|].
  split; [rewrite lookup_insert_ne by discriminate; apply lookup_insert_eq|].
  split; [rewrite !lookup_insert_ne by discriminate; apply lookup_insert_eq|].
  split; [rewrite !lookup_insert_ne by discriminate; apply lookup_insert_eq|].
  split; [apply lookup_insert_eq|].
  split; [rewrite lookup_insert_ne by discriminate; apply lookup_insert_eq|].
  apply lookup_insert_eq.
Qed.

(** *** What [render] shows *)

Lemma mat4_mul_identityTransform k v :
  mat4_mul (identityTransform k) v
  = let '(r, g, b, a) := v in (k * r, k * g, k * b, a).
Proof.
  destruct v as [[[r g] b] a]. unfold mat4_mul, identityTransform,
    identityMatrix4. cbn [at_ nth].
  repeat (apply pair_equal_spec; split); ring.
Qed.

Lemma mat4_mul_rToRG k v :
  mat4_mul (rToRG k) v = let '(r, g, b, a) := v in (k * r, - k * r, 0, a).
Proof.
  destruct v as [[[r g] b] a]. unfold mat4_mul, rToRG. cbn [at_ nth].
  repeat (apply pair_equal_spec; split); ring.
Qed.

(** [render()] on a set-up instance draws the selected texture, bound to
    unit 0, to the canvas through the transform program once, and the
    canvas then holds what the context makes of the fragments described
    next over what it held.  When the entry of
    [renderTransforms] for the source is a [Float32Array], the fragment is
    that matrix times the texel.  Otherwise the entry is a scale [k], where
    a missing entry and an entry of 0 both count as 1: for dye and
    velocity the three colour channels are multiplied by [k]; for pressure,
    divergence and curl red is [k] times the texel's red, green is its
    negative and blue is 0.  Alpha is always that of the texel. *)
Theorem render_channels s :
  Ready s -> In (renderSource (config s)) renderSources ->
  exists s' call f,
    render s = Ok tt s' /\ drawsBetween s s' [call] /\
    dcProgram call = "transform"%string /\ dcTarget call = None /\
    selectedTexture s f /\
    dcUniforms call !! "uTexture"%string = Some (AUnit 0) /\
    dcUnits call !! 0%nat = Some (TextureFBO.texture f) /\
    (forall img,
       textures (_gl s) !! TextureFBO.texture f = Some img ->
       canvas (_gl s')
       = rasterize (blend (_gl s)) (canvasViewport s)
           (fragmentOf "transform" (dcUniforms call)
              (fun _ => texture2D img))
           (canvas (_gl s))) /\
    (forall m tex uv,
       renderTransforms (config s) !! renderSource (config s)
       = Some (Matrix m) ->
       fragmentOf "transform" (dcUniforms call) tex uv
       = mat4_mul m (tex 0%nat uv)) /\
    (forall tex uv,
       (forall m, renderTransforms (config s) !! renderSource (config s)
                  <> Some (Matrix m)) ->
       let k := match renderTransforms (config s) !! renderSource (config s)
                with
                | Some (Scalar x) => if Req_dec_T x 0 then 1 else x
                | _ => 1
                end in
       fragmentOf "transform" (dcUniforms call) tex uv
       = let '(r, g, b, a) := tex 0%nat uv in
         if existsb (String.eqb (renderSource (config s)))
                    ["dye"; "velocity"]%string
         then (k * r, k * g, k * b, a)
         else (k * r, - k * r, 0, a)).
Proof.
  intros HR Hin. destruct (shownTexture_ready s HR Hin) as [f Hf].
  assert (Hp : _programs s !! "transform"%string
               = Some (Programs.linked "transform"
                         Programs.transformUniforms))
    by (eapply programs_lookup; [apply HR | apply compiled_lookup]).
  pose proof (render_run s f Hp Hf Hin) as E.
  pose proof (renderGL_fields f (renderMatrix (config s)) (canvasViewport s)
                (_gl s)) as F.
  cbv zeta in F. destruct F as (_ & _ & _ & _ & _ & _ & _ & _ & _ & _ & L).
  pose proof (renderGL_canvas f (renderMatrix (config s)) (canvasViewport s)
                (_gl s)) as CV.
  destruct (renderCall_fields f (renderMatrix (config s)) (canvasViewport s)
              (_gl s)) as (_ & _ & _ & C4 & _ & C6).
  revert E L CV.
  generalize (renderGL f (renderMatrix (config s)) (canvasViewport s)
                (_gl s)) as G.
  intros G E L CV.
  exists (set__gl G s), (renderCall f (renderMatrix (config s))
                           (canvasViewport s) (_gl s)), f.
  split; [exact E|]. split; [exact L|].
  split; [reflexivity|]. split; [reflexivity|].
  split; [exact (shownTexture_selected s f Hin Hf)|].
  split; [exact C4|]. split; [exact C6|].
  split.
  { intros img Himg. cbn [_gl set__gl]. rewrite (CV img Himg).
    unfold renderCall. cbn [dcUniforms]. rewrite transform_fragment.
    reflexivity. }
  assert (Fr : forall tex uv,
             fragmentOf "transform"
               (dcUniforms (renderCall f (renderMatrix (config s))
                              (canvasViewport s) (_gl s))) tex uv
             = mat4_mul (renderMatrix (config s)) (tex 0%nat uv)).
  { intros tex uv. unfold renderCall, renderUniforms, fragmentOf.
    cbn [dcUniforms String.eqb Ascii.eqb Bool.eqb].
    rewrite lookup_insert_eq.
    rewrite lookup_insert_ne by discriminate. rewrite lookup_insert_eq.
    reflexivity. }
  split.
  - intros m tex uv Hm. rewrite Fr. unfold renderMatrix, renderTransformOf.
    rewrite Hm. reflexivity.
  - intros tex uv Hm k. rewrite Fr. unfold renderMatrix, renderTransformOf.
    assert (K : match
                  match renderTransforms (config s)
                        !! renderSource (config s) with
                  | Some (Matrix m) => Matrix m
                  | Some (Scalar x) =>
                      if truthy x then Scalar x else Scalar 1
                  | None => Scalar 1
                  end
                with
                | Scalar x => x = k
                | Matrix _ => False
                end).
    { unfold k. destruct (renderTransforms (config s)
                           !! renderSource (config s)) as [[x|m]|] eqn:Et.
      - unfold truthy. destruct (Req_dec_T x 0); reflexivity.
      - exact (Hm m eq_refl).
      - reflexivity. }
    destruct (match renderTransforms (config s) !! renderSource (config s)
              with
              | Some (Matrix m) => Matrix m
              | Some (Scalar x) => if truthy x then Scalar x else Scalar 1
              | None => Scalar 1
              end) as [x|m]; [|contradiction].
    subst x. clearbody k.
    simpl in Hin.
    destruct Hin as [H|[H|[H|[H|[H|[]]]]]]; rewrite <- H;
      cbn [_defaultRenderTransforms existsb String.eqb Ascii.eqb Bool.eqb
           orb];
      first [ apply mat4_mul_identityTransform | apply mat4_mul_rToRG ].
Qed.

(** *** The sampling loop stays inside the read-back *)

Lemma sample_coordinate size x :
  (1 <= size)%Z -> -1 <= x <= 1 ->
  (0 <= Int_part (IZR size / 2 + (IZR size - 1) / 2 * x) < size)%Z.
Proof.
  intros Hs Hx.
  assert (1 <= IZR size) by (apply IZR_le in Hs; exact Hs).
  set (y := IZR size / 2 + (IZR size - 1) / 2 * x).
  assert (Hy : 1 / 2 <= y <= IZR size - 1 / 2) by (unfold y; split; nra).
  destruct (base_Int_part y) as [B1 B2]. split.
  - apply Z.lt_succ_r, lt_IZR. rewrite succ_IZR. lra.
  - apply lt_IZR. lra.
Qed.

Lemma pressureAt_agree l l' k :
  (0 <= k)%Z -> nth (Z.to_nat k) l 0%Z = nth (Z.to_nat k) l' 0%Z ->
  pressureAt l k = pressureAt l' k.
Proof.
  intros Hk H. unfold pressureAt.
  destruct (k <? 0)%Z; [reflexivity|]. rewrite H. reflexivity.
Qed.

(** The sampling loop of [_updateSolids] never reads outside the array
    the pressure was read back into.  For a solid whose radius times the
    simulation scale is not negative, and [Math.cos] and [Math.sin] within
    -1 and 1, the index [px + py * sampleSize] lies between 0 and
    [sampleSize * sampleSize - 1] at every angle; so the sums the loop
    returns are the same for two read-backs that agree on these entries,
    whatever they hold beyond. *)
Theorem samples_inside o scale :
  0 <= radius o * scale ->
  (forall a, -1 <= Math_cos a <= 1 /\ -1 <= Math_sin a <= 1) ->
  let size := sampleSizeOf o scale in
  let c := IZR size / 2 in
  let r := sampleRadius o scale in
  (forall a,
     (0 <= Int_part (c + r * Math_cos a)
           + Int_part (c + r * Math_sin a) * size
      < size * size)%Z) /\
  (forall fuel l l' a step dx dy,
     (forall k, (0 <= k < size * size)%Z ->
                nth (Z.to_nat k) l 0%Z = nth (Z.to_nat k) l' 0%Z) ->
     pressureSum fuel a step c r size l dx dy
     = pressureSum fuel a step c r size l' dx dy).
Proof.
  intros Hrad Hm size c r.
  assert (Hsize : (1 <= size)%Z).
  { unfold size, sampleSizeOf. pose proof (Int_part_nonneg _ Hrad). lia. }
  assert (Hidx : forall a,
             (0 <= Int_part (c + r * Math_cos a)
                   + Int_part (c + r * Math_sin a) * size
              < size * size)%Z).
  { intros a. destruct (Hm a) as [Hc Hs].
    pose proof (sample_coordinate size (Math_cos a) Hsize Hc) as Hx.
    pose proof (sample_coordinate size (Math_sin a) Hsize Hs) as Hy.
    unfold c, r, sampleRadius. fold size. nia. }
  split; [exact Hidx|].
  intros fuel l l' a step dx dy Hl. revert a dx dy.
  induction fuel as [|fuel IH]; intros a dx dy; [reflexivity|].
  cbn [pressureSum]. cbv zeta.
  destruct (Rlt_dec a (PI * 2)); [|reflexivity].
  rewrite (pressureAt_agree l l') by (apply Hidx || apply Hl, Hidx).
  apply IH.
Qed.

(** *** The smoothed run time of a tick *)

#[local] Instance sameUpdateTime_preorder : PreOrder sameUpdateTime.
Proof.
  split.
  - intros s. reflexivity.
  - intros s1 s2 s3 H1 H2. unfold sameUpdateTime in *. congruence.
Qed.

Lemma step_sameUpdateTime fuel dt : preserves sameUpdateTime (step fuel dt).
Proof.
  unfold step, curlPass, vorticityPass, divergencePass, dissipatePressure,
    pressureSolve, pressureIteration, gradientSubtractPass, advectVelocity,
    advectDye, _updateSolids, updateOneSolid, updateSolid, _drawSolid,
    useProgram, _blit, swapBuffer.
  pres ltac:(fields_leaf sameUpdateTime).
Qed.

Lemma _resizeIfNeeded_sameUpdateTime :
  preserves sameUpdateTime _resizeIfNeeded.
Proof.
  unfold _resizeIfNeeded, rescaleSolids, updateSolid, _resizeBuffers,
    createBuffers, copyOld, useProgram, _blit, swapBuffer.
  pres ltac:(fields_leaf sameUpdateTime).
Qed.

Lemma render_sameUpdateTime : preserves sameUpdateTime render.
Proof.
  unfold render, useProgram, _blit. pres ltac:(fields_leaf sameUpdateTime).
Qed.

(** A tick without hooks changes [updateTime] only in its last statement:
    the new value is the time the tick took, in seconds, weighted with
    [updateTimeAlpha], plus the old value weighted with the rest.  With
    [updateTimeAlpha] in [0, 1] it lies between the two. *)
Theorem updateTime_smoothed fuel now now' k s :
  Ready s \/ Fresh s -> In (renderSource (config s)) renderSources ->
  pressureIterations (config s) = INR k ->
  (k < fuel)%nat -> (20 < fuel)%nat ->
  exists s',
    _update None None fuel now now' s = Ok (autoUpdate (config s)) s' /\
    updateTime s'
    = IZR (now' - now) / 1000 * updateTimeAlpha (config s)
      + updateTime s * (1 - updateTimeAlpha (config s)) /\
    (0 <= updateTimeAlpha (config s) <= 1 ->
     Rmin (IZR (now' - now) / 1000) (updateTime s) <= updateTime s'
     <= Rmax (IZR (now' - now) / 1000) (updateTime s)).
Proof.
  intros HR Hin Hk Hf Hf20.
  set (dt := updateDt s now).
  assert (HR0 : Ready (set__now (Some now) s)
               \/ Fresh (set__now (Some now) s)) by exact HR.
  destruct (_resizeIfNeeded_run _ HR0) as (s1 & E1 & HR1 & (C1 & _) & _).
  change (config s1 = config s) in C1.
  pose proof (_resizeIfNeeded_sameUpdateTime (set__now (Some now) s)) as U1.
  rewrite E1 in U1. change (updateTime s1 = updateTime s) in U1.
  assert (X : exists s2,
             (s0 <- get ;; if paused (config s0) then ret tt
                           else step fuel dt) s1 = Ok tt s2 /\
             Ready s2 /\ config s2 = config s /\
             updateTime s2 = updateTime s).
  { unfold bind, get. rewrite C1.
    destruct (paused (config s)).
    - exists s1. split; [reflexivity|]. split; [exact HR1|].
      split; [exact C1 | exact U1].
    - destruct (step_run fuel dt k s1 HR1) as (s2 & E2 & HR2 & C2 & _);
        try (congruence || lia).
      pose proof (step_sameUpdateTime fuel dt s1) as K. rewrite E2 in K.
      exists s2. split; [exact E2|]. split; [exact HR2|].
      unfold sameUpdateTime in K. split; congruence. }
  destruct X as (s2 & E2 & HR2 & C2 & U2).
  assert (Hin2 : In (renderSource (config s2)) renderSources)
    by (rewrite C2; exact Hin).
  destruct (render_ready s2 HR2 Hin2) as (s4 & E4 & HR4 & (C4 & _)).
  pose proof (render_sameUpdateTime s2) as U4. rewrite E4 in U4.
  unfold sameUpdateTime in U4.
  assert (E : exists s',
             _update None None fuel now now' s
             = Ok (autoUpdate (config s)) s' /\
             updateTime s'
             = IZR (now' - now) / 1000 * updateTimeAlpha (config s)
               + updateTime s * (1 - updateTimeAlpha (config s))).
  { eexists. split.
    - apply wp_run_eq. unfold _update. apply wp_bind, wp_get. fold dt.
      apply wp_bind, wp_modify.
      apply wp_bind. eapply wp_of_eq; [exact E1|].
      apply wp_bind. eapply wp_of_eq; [exact E2|].
      apply wp_bind. eapply wp_of_eq; [reflexivity|].
      apply wp_bind. eapply wp_of_eq; [exact E4|].
      apply wp_bind. eapply wp_of_eq; [reflexivity|].
      apply wp_bind, wp_get. apply wp_bind, wp_modify. apply wp_ret.
      split; [|reflexivity].
      rewrite C4, C2. reflexivity.
    - cbn [updateTime set_updateTime]. rewrite C4, C2, U4, U2.
      reflexivity. }
  destruct E as (s' & E & U). exists s'. split; [exact E|].
  split; [exact U|]. intros Ha. rewrite U.
  unfold Rmin, Rmax.
  destruct (Rle_dec (IZR (now' - now) / 1000) (updateTime s)); nra.
Qed.

End EngineFacts.

(** ** Runs of the instance with one solid *)

#[local] Existing Instance exactMath.

Lemma runningWorld_Ready : Ready runningWorld.
Proof.
  unfold Ready. split; [reflexivity|].
  do 5 (split; [eexists; reflexivity|]).
  intros ref [<-|[]]. exists ball. apply lookup_insert_eq.
Qed.

Lemma freshWorld_Fresh : Fresh freshWorld.
Proof.
  unfold Fresh. do 3 (split; [reflexivity|]).
  intros ref [<-|[]]. exists ball. apply lookup_insert_eq.
Qed.

Lemma runningWorld_resizeNeeded : resizeNeeded runningWorld = true.
Proof.
  unfold resizeNeeded, differs. cbn [_width runningWorld config
                                      exampleConfig width].
  destruct (Req_dec_T 100 101) as [H|H]; [lra | reflexivity].
Qed.

Lemma exampleConfig_iterations : pressureIterations exampleConfig = INR 2.
Proof. simpl. lra. Qed.

Lemma exampleConfig_source :
  In (renderSource exampleConfig) renderSources.
Proof. simpl. auto. Qed.

Lemma floor_IZR z : floor (IZR z) = IZR z.
Proof.
  unfold floor. f_equal. symmetry. apply Int_part_spec. lra.
Qed.


Lemma exampleConfig_count :
  loopCount (pressureIterations (config runningWorld)) = 2%nat.
Proof.
  cbn [config runningWorld]. rewrite exampleConfig_iterations.
  apply loopCount_INR.
Qed.

Lemma step_pressure_iterations_witness :
  exists s' new,
    step 21 (1 / 60) runningWorld = Ok tt s' /\
    drawsBetween runningWorld s' new /\
    length (pressureCalls new) = 2%nat /\
    _pressure s' = Some (exampleDouble 4 100 100).
Proof.
  pose proof (proj1 (step_pressure_iterations 21 (1 / 60) runningWorld
                       (exampleDouble 4 100 100) (exampleFBO 6 100 100)
                       runningWorld_Ready eq_refl eq_refl
                       ltac:(rewrite exampleConfig_count; lia)
                       ltac:(lia))) as H.
  cbv zeta in H. rewrite exampleConfig_count in H.
  destruct H as (s' & new & E & L & N & _ & _ & P).
  exists s', new. split; [exact E|]. split; [exact L|]. split; [exact N|].
  rewrite P. unfold truthy. cbn [config runningWorld exampleConfig
                                  pressureDissipation].
  destruct (Req_dec_T 0 0) as [_|H]; [reflexivity | contradiction].
Defined.

Lemma step_keeps_solid_shape_witness :
  exists s',
    step 21 (1 / 60) runningWorld = Ok tt s' /\
    solidsFrame [0%nat] runningWorld s'.
Proof.
  exact (proj2 (proj2 (step_keeps_solid_shape 21 (1 / 60) 2 runningWorld))
           runningWorld_Ready exampleConfig_iterations
           ltac:(lia) ltac:(lia)).
Defined.

(** *** A solid under a pressure that is not uniform *)

Lemma gaugeWorld_Ready : Ready gaugeWorld.
Proof.
  unfold Ready. split; [reflexivity|].
  do 5 (split; [eexists; reflexivity|]).
  intros ref [<-|[]]. exists ball. apply lookup_insert_eq.
Qed.

Lemma nth_map_zrange (f : Z -> Z) n start i :
  (i < n)%nat ->
  nth i (map f (HalfFloat.zrange n start)) 0%Z = f (start + Z.of_nat i)%Z.
Proof.
  revert start i. induction n as [|n IH]; intros start i Hi; [lia|].
  destruct i as [|i]; cbn [HalfFloat.zrange map nth].
  - f_equal. lia.
  - rewrite IH by lia. f_equal. lia.
Qed.

Lemma halfPlane_numbers img x y w h :
  forallb isNumber16 (halfPlaneReadBack img x y w h) = true.
Proof.
  unfold halfPlaneReadBack. apply forallb_forall. intros v Hv.
  apply in_map_iff in Hv. destruct Hv as (k & <- & _).
  destruct (w * h <=? 2 * k)%Z; reflexivity.
Qed.

Lemma one_half : ofFloat (HalfFloat.uInt16ToFloat32 0x3C00) = 1.
Proof.
  change (HalfFloat.uInt16ToFloat32 0x3C00)
    with (S754_finite false 8388608 (-23)).
  unfold ofFloat. simpl. lra.
Qed.

Lemma zero_half : ofFloat (HalfFloat.uInt16ToFloat32 0) = 0.
Proof. reflexivity. Qed.

Lemma halfPlane_pressureAt img x y k :
  (0 <= k < 144)%Z ->
  pressureAt (halfPlaneReadBack img x y 12 12) k
  = if (72 <=? k)%Z then 1 else 0.
Proof.
  intros Hk. unfold pressureAt, halfPlaneReadBack.
  replace (k <? 0)%Z with false by (symmetry; apply Z.ltb_ge; lia).
  change (12 * 12)%Z with 144%Z.
  rewrite nth_map_zrange by lia.
  rewrite Z2Nat.id by lia. replace (0 + k)%Z with k by lia.
  destruct (Z.leb_spec 144 (2 * k)), (Z.leb_spec 72 k); try lia.
  - apply one_half.
  - apply zero_half.
Qed.



Lemma Int_part_below x z : x < IZR z -> (Int_part x < z)%Z.
Proof.
  intros H. destruct (base_Int_part x) as [B _]. apply lt_IZR. lra.
Qed.

Lemma Int_part_above x z : IZR z <= x -> (z <= Int_part x)%Z.
Proof.
  intros H. destruct (base_Int_part x) as [_ B].
  apply Z.lt_succ_r, lt_IZR. rewrite succ_IZR. lra.
Qed.

(** One term of the sum over [sin]: it is never negative, because only
    the upper half of the square holds pressure, and at the top of the
    circle it is 1. *)
Lemma halfPlane_term img x y a :
  let p :=
    pressureAt (halfPlaneReadBack img x y 12 12)
      (Int_part (IZR 12 / 2 + (IZR 12 - 1) / 2 * cos a)
       + Int_part (IZR 12 / 2 + (IZR 12 - 1) / 2 * sin a) * 12)%Z in
  0 <= p * sin a /\ (sin a = 1 -> p * sin a = 1).
Proof.
  cbv zeta.
  pose proof (sample_coordinate 12 (cos a) ltac:(lia) (COS_bound a)) as Hx.
  pose proof (sample_coordinate 12 (sin a) ltac:(lia) (SIN_bound a)) as Hy.
  set (px := Int_part (IZR 12 / 2 + (IZR 12 - 1) / 2 * cos a)) in *.
  set (py := Int_part (IZR 12 / 2 + (IZR 12 - 1) / 2 * sin a)) in *.
  rewrite halfPlane_pressureAt by lia.
  destruct (Z.leb_spec 72 (px + py * 12)) as [Hi|Hi].
  - assert (Hpy : (6 <= py)%Z) by lia.
    assert (Hs : 0 <= sin a).
    { destruct (Rle_dec 0 (sin a)) as [H|H]; [exact H|]. exfalso.
      assert (py < 6)%Z; [|lia].
      apply Int_part_below. lra. }
    split; [lra|]. intros ->. lra.
  - split; [lra|]. intros Hs. exfalso.
    assert (11 <= py)%Z; [|lia].
    apply Int_part_above. rewrite Hs. lra.
Qed.

Lemma halfPlane_sum img x y fuel :
  forall n dx dy, (n <= 20)%nat -> (20 - n < fuel)%nat ->
  exists dx' dy',
    pressureSum fuel (INR n * (PI * 2 / 20)) (PI * 2 / 20)
      (IZR 12 / 2) ((IZR 12 - 1) / 2) 12
      (halfPlaneReadBack img x y 12 12) dx dy
    = Some (dx', dy') /\
    dy + (if (n <=? 5)%nat then 1 else 0) <= dy'.
Proof.
  pose proof PI_RGT_0 as Hpi.
  induction fuel as [|fuel IH]; intros n dx dy Hn Hf; [lia|].
  cbn [pressureSum]. cbv zeta. cbn [Math_cos Math_sin exactMath].
  destruct (Rlt_dec (INR n * (PI * 2 / 20)) (PI * 2)) as [Hlt|Hge].
  - assert (Hn' : n <> 20%nat).
    { intros ->. replace (INR 20) with 20 in Hlt by (simpl; lra). lra. }
    replace (INR n * (PI * 2 / 20) + PI * 2 / 20)
      with (INR (S n) * (PI * 2 / 20)) by (rewrite S_INR; field).
    destruct (halfPlane_term img x y (INR n * (PI * 2 / 20))) as [T0 T1].
    cbv zeta in T0, T1.
    match goal with
    | |- context [pressureSum fuel _ _ _ _ _ _ ?a ?b] =>
        destruct (IH (S n) a b) as (dx' & dy' & E & Hdy); try lia
    end.
    exists dx', dy'. split; [exact E|].
    destruct (Nat.leb_spec (S n) 5) as [H6|H6];
      destruct (Nat.leb_spec n 5) as [H5|H5]; try lia; try lra.
    assert (n = 5%nat) as -> by lia.
    assert (Hs : sin (INR 5 * (PI * 2 / 20)) = 1).
    { replace (INR 5 * (PI * 2 / 20)) with (PI / 2) by (simpl; field).
      apply sin_PI2. }
    rewrite (T1 Hs) in Hdy. lra.
  - exists dx, dy. split; [reflexivity|].
    destruct (Nat.leb_spec n 5) as [H5|H5]; [|lra]. exfalso. apply Hge.
    apply le_INR in H5. replace (INR 5) with 5 in H5 by (simpl; lra).
    assert (INR n * PI <= 5 * PI) by (apply Rmult_le_compat_r; lra).
    lra.
Qed.

Lemma ball_floor : floor (radius ball * simScale exampleConfig) = 5.
Proof.
  unfold floor. cbn [radius ball simScale exampleConfig].
  replace (Int_part (10 * (1 / 2))) with 5%Z
    by (apply Int_part_spec; lra).
  reflexivity.
Qed.

Lemma ball_sampleSize : sampleSizeOf ball (simScale exampleConfig) = 12%Z.
Proof.
  unfold sampleSizeOf. cbn [radius ball simScale exampleConfig].
  replace (Int_part (10 * (1 / 2))) with 5%Z
    by (apply Int_part_spec; lra).
  reflexivity.
Qed.

Lemma solid_mass_derived_witness :
  exists s' o',
    updateOneSolid 21 (1 / 60) 0 gaugeWorld = Ok tt s' /\
    heap s' !! 0%nat = Some o' /\
    snd (velocity o') < 0 /\ radius o' = 10.
Proof.
  destruct (solid_mass_derived 21 (1 / 60) 0%nat gaugeWorld ball
              (exampleDouble 4 100 100) (blankPixels 100 100 R16F NEAREST)
              gaugeWorld_Ready (or_introl eq_refl) (lookup_insert_eq _ _ _)
              eq_refl ltac:(lia) eq_refl eq_refl
              (halfPlane_numbers _ _ _ _ _))
    as (s' & dx & dy & E & E' & Hs).
  cbv zeta in Hs. cbn [config gaugeWorld] in E, Hs.
  rewrite ball_floor in E, Hs. rewrite ball_sampleSize in E.
  cbn [readPixels gauge] in E.
  replace (5 + 1 / 2) with ((IZR 12 - 1) / 2) in E by lra.
  destruct (halfPlane_sum (blankPixels 100 100 R16F NEAREST)
              (Int_part ((fst (position ball) - radius ball)
                         * simScale exampleConfig) - 1)
              (Int_part ((snd (position ball) - radius ball)
                         * simScale exampleConfig) - 1)
              21 0%nat 0 0 ltac:(lia) ltac:(lia))
    as (dx' & dy' & E0 & Hdy).
  cbn [INR] in E0. rewrite Rmult_0_l in E0.
  rewrite E in E0. injection E0 as <- <-.
  cbn [Nat.leb] in Hdy.
  eexists. eexists. split; [exact E'|]. split; [exact Hs|].
  cbn [velocity radius snd ball density]. split; [|reflexivity].
  pose proof PI_RGT_0 as Hpi.
  unfold orElse, truthy. destruct (Req_dec_T 2 0) as [H|_]; [lra|].
  assert (Hm : 0 < / (2 * PI * (5 + 1 / 2) * (5 + 1 / 2)))
    by (apply Rinv_0_lt_compat; nra).
  assert (Hf : 0 < dy * (5 + 1 / 2) * (PI * 2 / 20)) by nra.
  unfold Rdiv at 1.
  replace (0 + - dy * (5 + 1 / 2) * (PI * 2 / 20)
               * / (2 * PI * (5 + 1 / 2) * (5 + 1 / 2)))
    with (- (dy * (5 + 1 / 2) * (PI * 2 / 20)
             * / (2 * PI * (5 + 1 / 2) * (5 + 1 / 2)))) by ring.
  assert (0 < dy * (5 + 1 / 2) * (PI * 2 / 20)
              * / (2 * PI * (5 + 1 / 2) * (5 + 1 / 2)))
    by (apply Rmult_lt_0_compat; assumption).
  lra.
Defined.

(** With a density of 2, a radius of 10 and no [mass], at a simulation
    scale of 1, the mass the coupling uses is 2 * PI * 110.25: the radius
    that enters is that of the sampling circle, 10.5, not the [radius]
    property. *)
Lemma solid_mass_uses_sampling_radius :
  massOf ball 1 = 2 * PI * (441 / 4) /\
  massOf ball 1 <> 2 * PI * (10 * 10).
Proof.
  assert (E : massOf ball 1 = 2 * PI * (441 / 4)).
  { rewrite massOf_derived by reflexivity.
    cbn [density radius ball]. unfold orElse, truthy.
    destruct (Req_dec_T 2 0) as [H|_]; [lra|].
    replace (10 * 1) with (IZR 10) by lra. rewrite floor_IZR. field. }
  split; [exact E|]. rewrite E. intros H.
  pose proof PI_RGT_0. lra.
Qed.

Lemma resize_records_scaled_sizes_witness :
  exists s',
    _resizeIfNeeded runningWorld = Ok tt s' /\
    sizedAs (101 * (1 / 2)) (100 * (1 / 2)) (101 * 1) (100 * 1) s'.
Proof.
  destruct (resize_records_scaled_sizes runningWorld (or_introl runningWorld_Ready)
              runningWorld_resizeNeeded) as (s' & E & _ & Z).
  exists s'. split; [exact E | exact Z].
Defined.

(** A canvas 101 pixels wide simulated at half resolution: the first
    resize records a velocity buffer 50.5 wide, which is no whole number,
    so it is not the rounded-up product. *)
Lemma resize_records_fraction :
  exists s' v,
    _resizeIfNeeded freshWorld = Ok tt s' /\
    _velocity s' = Some v /\
    DoubleTextureFBO.w v = 101 * (1 / 2) /\
    DoubleTextureFBO.w v
    <> ceil (width exampleConfig * simScale exampleConfig).
Proof.
  destruct (_resizeIfNeeded_run freshWorld (or_intror freshWorld_Fresh))
    as (s' & E & _ & _ & Z).
  rewrite (resizeNeeded_fresh freshWorld freshWorld_Fresh) in Z.
  destruct Z as (d & v & p & dv & c & _ & V & _ & _ & _ & _
                 & (Sw & _) & _).
  cbn [config freshWorld exampleConfig width simScale] in Sw.
  exists s', v. split; [exact E|]. split; [exact V|]. split; [exact Sw|].
  rewrite Sw. unfold ceil. cbn [exampleConfig width simScale].
  generalize (Int_part (- (101 * (1 / 2)))) as z. intros z H.
  assert (H' : IZR 101 = IZR (-2 * z)) by (rewrite mult_IZR; lra).
  apply eq_IZR in H'. lia.
Qed.

Lemma update_step_argument_witness :
  exists s' dt,
    _update None None 21 2016 2020 runningWorld = Ok true s' /\
    stepCalls s' = [dt] /\ dt <= 1 / 20.
Proof.
  destruct (update_step_argument None None 21 2016 2020 2 runningWorld
              hookFine_None hookFine_None
              (or_introl runningWorld_Ready) exampleConfig_source eq_refl
              exampleConfig_iterations ltac:(lia) ltac:(lia))
    as (s' & dt & E & St & _ & Le & _).
  exists s', dt. split; [exact E|]. split; [exact St | exact Le].
Defined.

(** The clock set back by one second between two ticks: the last tick was
    at 2000 ms and this one reads 1000 ms.  The tick calls [step] with
    -1, although [maxSimulationStep] is 1/20. *)
Lemma update_step_negative :
  exists s',
    _update None None 21 1000 1001 runningWorld = Ok true s' /\
    stepCalls s' = [-1] /\
    0 <= maxSimulationStep exampleConfig /\ -1 < 0.
Proof.
  destruct (_update_run None None 21 1000 1001 2 runningWorld
              hookFine_None hookFine_None
              (or_introl runningWorld_Ready) exampleConfig_source
              exampleConfig_iterations ltac:(lia) ltac:(lia))
    as (s' & E & St).
  assert (D : updateDt runningWorld 1000 = -1).
  { unfold updateDt, Num.min.
    cbn [_now runningWorld config exampleConfig maxSimulationStep].
    change (2000 =? 0)%Z with false. change (1000 - 2000)%Z with (-1000)%Z.
    cbv iota. unfold Rmin.
    destruct (Rle_dec (-1000 / 1000) (1 / 20)) as [_|H]; lra. }
  exists s'. split; [exact E|]. split.
  - rewrite St, D. reflexivity.
  - cbn [exampleConfig maxSimulationStep]. lra.
Qed.

Lemma render_checks_source_witness :
  (exists e, render strayWorld
             = Err e strayWorld) /\
  (exists s', render runningWorld
              = Ok tt s').
Proof.
  split.
  - apply (proj1 (render_checks_source strayWorld)).
    simpl. intros [H|[H|[H|[H|[H|[]]]]]]; discriminate H.
  - exact (proj2 (render_checks_source runningWorld)
             exampleConfig_source runningWorld_Ready).
Defined.







Lemma runningWorld_names n :
  is_Some (textures (_gl runningWorld) !! n) ->
  (n < nextName (_gl runningWorld))%nat.
Proof.
  intros [img H]. cbn [textures nextName _gl runningWorld runningGL] in *.
  repeat (apply lookup_insert_Some in H;
          destruct H as [[<- _]|[_ H]]; [lia|]).
  rewrite lookup_empty in H. discriminate H.
Qed.





(** *** More runs and instances *)

Lemma HSVtoRGB_range_witness :
  exists r g b, HSVtoRGB (1 / 2) 1 1 = Some [r; g; b] /\
                Rmax r (Rmax g b) = 1.
Proof.
  destruct (HSVtoRGB_range (1 / 2) 1 1 ltac:(lra)) as (r & g & b & E & H).
  exists r, g, b. split; [exact E|].
  apply (H ltac:(lra) ltac:(lra)).
Defined.

Lemma ellipsis_disc_witness :
  ellipsis_main (fun _ => (0, 0, 0, 0)) (50 / 100, 50 / 100)
                (splatTransform 0 10 10 100 100) (1, 1, 1) (1 / 2, 1 / 2)
  = (1, 1, 1, 1).
Proof.
  rewrite (ellipsis_disc _ 50 50 10 100 100 1 1 1 (1 / 2) (1 / 2))
    by lra.
  destruct (Rlt_dec _ _) as [_|N]; [reflexivity|]. exfalso. apply N. lra.
Defined.

Lemma pausedWorld_Ready : Ready pausedWorld.
Proof.
  unfold Ready. split; [reflexivity|].
  do 5 (split; [eexists; reflexivity|]).
  intros ref [<-|[]]. exists ball. apply lookup_insert_eq.
Qed.

Lemma HSVtoRGB_undefined_witness : HSVtoRGB (- (1 / 12)) 1 1 = None.
Proof.
  apply (proj2 (HSVtoRGB_undefined (- (1 / 12)) 1 1)).
  replace (Int_part (- (1 / 12) * 6)) with (-1)%Z
    by (apply Int_part_spec; lra).
  split; [lia | discriminate].
Defined.

Lemma useProgram_first_bad_entry_witness :
  exists msg,
    useProgram (Programs.linked "splat" Programs.splatUniforms)
               [("uSource"%string, AUnit 0); ("colour"%string, ANum 1);
                ("point"%string, AArr [0; 0])]
               runningWorld
    = Err (Thrown msg)
          (set__gl (useGL (Programs.linked "splat" Programs.splatUniforms)
                          [("uSource"%string, AUnit 0)] (_gl runningWorld))
                   runningWorld).
Proof.
  exact (useProgram_first_bad_entry
           (Programs.linked "splat" Programs.splatUniforms)
           [("uSource"%string, AUnit 0)] "colour" (ANum 1)
           [("point"%string, AArr [0; 0])] runningWorld eq_refl eq_refl).
Defined.

Lemma useProgram_returns_iff_witness :
  exists s',
    useProgram (Programs.linked "splat" Programs.splatUniforms)
               [("uSource"%string, AUnit 0); ("point"%string, AArr [0; 0])]
               runningWorld
    = Ok tt s'.
Proof.
  apply (proj2 (useProgram_returns_iff
                  (Programs.linked "splat" Programs.splatUniforms)
                  [("uSource"%string, AUnit 0);
                   ("point"%string, AArr [0; 0])]
                  runningWorld)).
  reflexivity.
Defined.


Lemma setDye_wrong_length_witness :
  exists msg s',
    setDye 0 50 50 0 10 10 (Some [1; 1]) runningWorld
    = Err (Thrown msg) s' /\
    _dye s' = Some (exampleDouble 0 100 100).
Proof.
  destruct (setDye_wrong_length 0 50 50 0 10 10 [1; 1] runningWorld
              (exampleDouble 0 100 100) eq_refl eq_refl
              ltac:(discriminate))
    as (msg & s' & E & D & _).
  exists msg, s'. split; [exact E | exact D].
Defined.

Lemma setDye_random_colour_witness :
  exists s' call r g b,
    setDye (1 / 2) 50 50 0 10 10 None runningWorld = Ok tt s' /\
    drawsBetween runningWorld s' [call] /\
    dcUniforms call !! "color"%string
    = Some (AArr [r * 2.72; g * 2.72; b * 2.72]) /\
    Rmax r (Rmax g b) = 1.
Proof.
  destruct (setDye_random_colour (1 / 2) 50 50 0 10 10 runningWorld
              (exampleDouble 0 100 100) eq_refl eq_refl ltac:(lra))
    as (s' & call & r & g & b & E & L & _ & _ & C & Mx & _).
  exists s', call, r, g, b.
  split; [exact E|]. split; [exact L|]. split; [exact C | exact Mx].
Defined.

Lemma reset_keeps_old_textures_witness :
  exists s',
    reset runningWorld = Ok tt s' /\
    textures (_gl s') !! 4%nat = Some (blankPixels 100 100 R16F NEAREST) /\
    size (textures (_gl s')) = (size (textures (_gl runningWorld)) + 8)%nat.
Proof.
  destruct (reset_keeps_old_textures runningWorld runningWorld_names)
    as (s' & E & _ & _ & K & N & _).
  exists s'. split; [exact E|]. split; [|exact N].
  apply K. reflexivity.
Defined.

Lemma _resizeIfNeeded_twice_witness :
  exists s',
    _resizeIfNeeded runningWorld = Ok tt s' /\
    _resizeIfNeeded s' = Ok tt s'.
Proof.
  destruct (_resizeIfNeeded_twice runningWorld
              (or_introl runningWorld_Ready)) as (s' & E & _ & E').
  exists s'. split; [exact E | exact E'].
Defined.

Lemma resize_rescales_solids_witness :
  exists s',
    _resizeIfNeeded runningWorld = Ok tt s' /\
    heap s' !! 0%nat
    = Some (mkSolid (50 * (101 / 100), 50 * (100 / 100))
                    (0 * (101 / 100), 0 * (100 / 100)) 10 (Some 2) None).
Proof.
  destruct (resize_rescales_solids runningWorld 100 100
              runningWorld_Ready runningWorld_resizeNeeded
              eq_refl ltac:(lra) eq_refl ltac:(lra)
              ltac:(repeat constructor; simpl; tauto))
    as (s' & E & H).
  exists s'. split; [exact E|].
  exact (H 0%nat ball (or_introl eq_refl) (lookup_insert_eq _ _ _)).
Defined.

Lemma two_ticks_elapsed_witness :
  exists s1 s2 dt1,
    _update None None 21 2016 2020 runningWorld = Ok true s1 /\
    _update None None 21 2032 2036 s1 = Ok true s2 /\
    stepCalls s2 = [dt1; Rmin (IZR (2032 - 2016) / 1000) (1 / 20)].
Proof.
  exact (two_ticks_elapsed None None 21 2016 2020 2032 2036 2 runningWorld
           hookFine_None hookFine_None
           (or_introl runningWorld_Ready) exampleConfig_source eq_refl
           exampleConfig_iterations ltac:(lia) ltac:(lia) ltac:(lia)).
Defined.

Lemma paused_tick_witness :
  exists s',
    _update None None 21 2016 2020 pausedWorld = Ok true s' /\
    stepCalls s' = [] /\ _now s' = Some 2016%Z.
Proof.
  exact (paused_tick None None 21 2016 2020 2 pausedWorld
           hookFine_None hookFine_None
           (or_introl pausedWorld_Ready) exampleConfig_source eq_refl
           exampleConfig_iterations ltac:(lia) ltac:(lia)).
Defined.

Lemma drawing_allocates_nothing_witness :
  exists s',
    step 21 (1 / 60) runningWorld = Ok tt s' /\
    sameTextureNames runningWorld s'.
Proof.
  exact (proj2 (drawing_allocates_nothing 21 (1 / 60) 2 runningWorld)
           runningWorld_Ready exampleConfig_iterations
           ltac:(lia) ltac:(lia)).
Defined.

Lemma step_pass_order_witness :
  exists s' new,
    step 21 (1 / 60) runningWorld = Ok tt s' /\
    drawsBetween runningWorld s' new /\
    map dcProgram new
    = ["curl"; "vorticity"; "divergence"; "pressure"; "pressure";
       "gradientSubtract"; "advection"; "advection"; "ellipsis"]%string.
Proof.
  destruct (step_pass_order 21 (1 / 60) 2 runningWorld
              runningWorld_Ready exampleConfig_iterations
              ltac:(lia) ltac:(lia)) as (s' & new & E & L & P).
  exists s', new. split; [exact E|]. split; [exact L|].
  rewrite P. unfold truthy.
  cbn [config runningWorld exampleConfig pressureDissipation].
  destruct (Req_dec_T 0 0) as [_|H]; [reflexivity | contradiction].
Defined.

Lemma dye_advection_velocity_witness :
  exists s' cv cd,
    (advectVelocity (1 / 60) ;;; advectDye (1 / 60)) runningWorld
    = Ok tt s' /\
    drawsBetween runningWorld s' [cv; cd] /\
    dcTarget cv = Some 3%nat /\
    dcUnits cd !! 0%nat = Some 2%nat.
Proof.
  destruct (dye_advection_velocity (1 / 60) runningWorld
              (exampleDouble 2 100 100) (exampleDouble 0 100 100)
              runningWorld_Ready eq_refl eq_refl)
    as (s' & cv & cd & E & L & _ & _ & T & _ & _ & _ & _ & _ & _ & _
        & U & _).
  exists s', cv, cd.
  split; [exact E|]. split; [exact L|]. split; [exact T | exact U].
Defined.

Lemma render_channels_witness :
  exists s' call,
    render runningWorld = Ok tt s' /\
    drawsBetween runningWorld s' [call] /\
    dcProgram call = "transform"%string /\
    dcUnits call !! 0%nat = Some 0%nat.
Proof.
  destruct (render_channels runningWorld runningWorld_Ready
              exampleConfig_source)
    as (s' & call & f & E & L & P & _ & Hsel & _ & U & _).
  exists s', call. split; [exact E|]. split; [exact L|].
  split; [exact P|]. rewrite U.
  destruct Hsel as [(_ & d & Hd & ->)|[(H & _)|[(H & _)|[(H & _)|(H & _)]]]];
    try discriminate H.
  injection Hd as <-. reflexivity.
Defined.

Lemma samples_inside_witness :
  0 <= radius ball * (1 / 2) /\
  (0 <= Int_part (IZR (sampleSizeOf ball (1 / 2)) / 2
                  + sampleRadius ball (1 / 2) * cos PI)
        + Int_part (IZR (sampleSizeOf ball (1 / 2)) / 2
                    + sampleRadius ball (1 / 2) * sin PI)
          * sampleSizeOf ball (1 / 2)
   < sampleSizeOf ball (1 / 2) * sampleSizeOf ball (1 / 2))%Z.
Proof.
  assert (H : 0 <= radius ball * (1 / 2)) by (cbn [radius ball]; lra).
  split; [exact H|].
  exact (proj1 (samples_inside ball (1 / 2) H
                  (fun a => conj (COS_bound a) (SIN_bound a))) PI).
Defined.

Lemma updateTime_smoothed_witness :
  exists s',
    _update None None 21 2016 2020 runningWorld = Ok true s' /\
    updateTime s' = IZR (2020 - 2016) / 1000 * (1 / 120) + 0 * (1 - 1 / 120).
Proof.
  destruct (updateTime_smoothed 21 2016 2020 2 runningWorld
              (or_introl runningWorld_Ready) exampleConfig_source
              exampleConfig_iterations ltac:(lia) ltac:(lia))
    as (s' & E & U & _).
  exists s'. split; [exact E | exact U].
Defined.

End Fluid.

(** ** Properties of the half-float decoder *)

Module HalfFloatFacts.
Import JSInt IEEE HalfFloat.
Local Open Scope Z_scope.

(** The literal vectors of the in-source test table
    ([_uInt16ToFloat32Tests]) decode to the numbers the table expects. *)
Lemma uInt16ToFloat32_test_vectors :
  uInt16ToFloat32 0x3c00 = S754_finite false 0x800000 (-23) /\
  uInt16ToFloat32 0x8000 = S754_zero true /\
  uInt16ToFloat32 0x7c00 = S754_infinity false /\
  uInt16ToFloat32 0xfc00 = S754_infinity true /\
  uInt16ToFloat32 0x0000 = S754_zero false.
Proof. repeat split; vm_compute; reflexivity. Qed.

(** Over all 65536 patterns the decoder returns the number the pattern
    denotes exactly when the pattern is not one of the subnormals whose
    leading fraction bit is at position 1, 3, 5 or 7. *)
Lemma uInt16ToFloat32_correct_iff :
  forallb (fun hf => Bool.eqb (converts_correctly hf) (negb (odd_subnormal hf)))
          all_uint16 = true.
Proof. vm_compute. reflexivity. Qed.

(** C5 (evaluation at the failing input).  The half-float 0x0002 is the
    subnormal 2 * 2^-24 = 2^-23; [uInt16ToFloat32] stores the pattern
    0x34800000, that is 2^23 * 2^-45 = 2^-22, twice the IEEE 754 value. *)
Theorem uInt16ToFloat32_subnormal_0x0002 :
  uInt16ToFloat32_bits 0x0002 = 0x34800000 /\
  uInt16ToFloat32 0x0002 = S754_finite false 0x800000 (-45) /\
  decode16 0x0002 = S754_finite false 2 (-24) /\
  converts_correctly 0x0002 = false.
Proof. repeat split; vm_compute; reflexivity. Qed.

Lemma In_zrange n :
  forall start x, start <= x < start + Z.of_nat n -> In x (zrange n start).
Proof.
  induction n as [|n IH]; intros start x H; [lia|].
  cbn [zrange]. destruct (Z.eq_dec start x) as [->|Hne]; [now left|].
  right. apply IH. lia.
Qed.

(** For every 16-bit pattern, [uInt16ToFloat32] returns the number the
    half-float denotes (same sign, same class, same value) exactly when
    the pattern is not a subnormal whose leading fraction bit is at
    position 1, 3, 5 or 7.  In particular every pattern with a nonzero
    exponent field, so every normal number, infinity and NaN, is
    converted exactly, and so are both zeros. *)
Theorem uInt16ToFloat32_exact hf :
  0 <= hf < 65536 ->
  converts_correctly hf = negb (odd_subnormal hf) /\
  (Z.land hf 0x7C00 <> 0 \/ Z.land hf 0x03FF = 0 ->
   converts_correctly hf = true).
Proof.
  intros H.
  assert (Hin : In hf all_uint16).
  { unfold all_uint16. apply In_zrange. rewrite Z2Nat.id; lia. }
  pose proof (proj1 (forallb_forall _ _) uInt16ToFloat32_correct_iff hf Hin)
    as E.
  apply Bool.eqb_prop in E. split; [exact E|].
  intros Hn. rewrite E. unfold odd_subnormal.
  destruct Hn as [Hn|Hn].
  - apply Z.eqb_neq in Hn. rewrite Hn. reflexivity.
  - rewrite Hn. rewrite andb_false_r. reflexivity.
Qed.

Lemma uInt16ToFloat32_exact_witness : converts_correctly 0x3555 = true.
Proof.
  apply (proj2 (uInt16ToFloat32_exact 0x3555 ltac:(lia))).
  left. vm_compute. discriminate.
Defined.

End HalfFloatFacts.
